(** * Translation dispatch-and-cache core: a shallow embedding

    The development follows [core/translator.py] (class [AITranslator]),
    [core/offline_translator.py] (class [OfflineTranslator]) and
    [core/caching.py] (class [ModelCache]).

    Python strings are sequences of Unicode code points, result dictionaries
    are finite maps from field names to values, and the methods that touch
    the clock, the cache tiers, the model map or a translation backend are
    functions in a state monad.  Whatever an external library decides
    (the language detector, the Marian model, the two web services, the
    clock, whether a cache tier raises) is read from a [World] of oracles
    indexed by the number of external operations performed so far, so two
    calls with the same arguments may well answer differently. *)

From Stdlib Require Import ZArith String Ascii DecimalString Lia.
From Stdlib Require DecimalPos DecimalZ.
From Stdlib Require Import Floats.PrimFloat.
From stdpp Require Import base gmap strings list.

Set Warnings "-inexact-float".
Local Open Scope Z_scope.

(** ** Python strings and values *)

Module Py.

(** A [str] is a sequence of code points. *)
Abbreviation str := (list N).

(** An ASCII literal of the source, as a [str]. *)
Definition lit (s : string) : str :=
  List.map N_of_ascii (list_ascii_of_string s).

(** [len(s)] *)
Definition len (s : str) : Z := Z.of_nat (length s).

(** The characters [str.strip()], [str.split()] and the regex class
    [\s] treat as whitespace. *)
Definition isspace (c : N) : bool :=
  ((9 <=? c) && (c <=? 13) || (28 <=? c) && (c <=? 32)
   || (c =? 133) || (c =? 160) || (c =? 5760)
   || (8192 <=? c) && (c <=? 8202)
   || (c =? 8232) || (c =? 8233) || (c =? 8239) || (c =? 8287)
   || (c =? 12288))%N.

Fixpoint lstrip (s : str) : str :=
  match s with
  | c :: s' => if isspace c then lstrip s' else s
  | [] => []
  end.

Definition rstrip (s : str) : str := rev (lstrip (rev s)).

(** [s.strip()] *)
Definition strip (s : str) : str := rstrip (lstrip s).

(** [sep.join(parts)] *)
Fixpoint join (sep : str) (parts : list str) : str :=
  match parts with
  | [] => []
  | [p] => p
  | p :: rest => p ++ sep ++ join sep rest
  end.

(** The strings of a list whose items are strings or [None]: [None] when
    one item is [None]. *)
Fixpoint strings_of (parts : list (option str)) : option (list str) :=
  match parts with
  | [] => Some []
  | Some p :: rest =>
      match strings_of rest with
      | Some ps => Some (p :: ps)
      | None => None
      end
  | None :: _ => None
  end.

(** [sep.join(parts)] for items that may be [None]; the result [None]
    stands for the [TypeError] that [join] raises on such an item. *)
Definition join_parts (sep : str) (parts : list (option str)) : option str :=
  match strings_of parts with
  | Some ps => Some (join sep ps)
  | None => None
  end.

(** [s.split()]: the maximal runs of non-whitespace characters. *)
Fixpoint split_from (cur : str) (s : str) : list str :=
  match s with
  | [] => match cur with [] => [] | _ => [cur] end
  | c :: s' =>
      if isspace c
      then match cur with [] => split_from [] s' | _ => cur :: split_from [] s' end
      else split_from (cur ++ [c]) s'
  end.

Definition split (s : str) : list str := split_from [] s.

(** [str(n)] for an integer. *)
Definition str_of_int (z : Z) : str := lit (NilZero.string_of_int (Z.to_int z)).

(** [[text[i:i+size] for i in range(0, len(text), size)]] *)
Definition range_step (stop step : nat) : list nat :=
  List.map (fun k => (k * step)%nat) (seq 0 (Nat.div (stop + step - 1) step)).

Definition slice (s : str) (i j : nat) : str := take (j - i) (drop i s).

Definition chunks (size : nat) (text : str) : list str :=
  List.map (fun i => slice text i (i + size)) (range_step (length text) size).

(** The values a result dictionary holds. *)
Inductive value : Type :=
| VStr (s : str)
| VFloat (f : float)
| VBool (b : bool)
| VNone.

(** A result dictionary: field name to value. *)
Abbreviation dict := (gmap string value).

(** Truthiness, as [if x:] tests it. *)
Definition truthy_str (s : str) : bool :=
  match s with [] => false | _ => true end.

Definition truthy_opt (o : option str) : bool :=
  match o with Some s => truthy_str s | None => false end.

Definition truthy_dict (d : dict) : bool := negb (bool_decide (d = ∅)).

(** [if d:] for a variable that holds a dictionary or [None]. *)
Definition truthy_opt_dict (o : option dict) : bool :=
  match o with Some d => truthy_dict d | None => false end.

(** The exceptions that escape the modelled methods. *)
Inductive exn : Type := TypeError | AttributeError.

Inductive outcome (A : Type) : Type :=
| Returns (a : A)
| Raises (e : exn).
Arguments Returns {A} a.
Arguments Raises {A} e.

End Py.

Import Py.

(** ** The environment and the mutable state *)

(** What the external libraries and services answer.  The [nat] argument is
    the number of external operations performed before the call, so the
    answers may change from one call to the next (a network that comes and
    goes, a clock that advances). *)
Record World : Type := mkWorld {
  (** [time.time()] *)
  clock : nat -> float;
  (** the built-in [hash] of a string, fixed for the life of the process *)
  py_hash : str -> Z;
  (** [hashlib.md5(s.encode()).hexdigest()] *)
  md5_hexdigest : str -> str;
  (** [c.isalnum()], which with [_] makes the regex class [\w] *)
  isalnum : N -> bool;
  (** [langdetect.detect]; [None] stands for [LangDetectException] *)
  langdetect : nat -> str -> option str;
  (** [MarianTokenizer.from_pretrained] and [MarianMTModel.from_pretrained]:
      whether both load *)
  from_pretrained : nat -> str -> bool;
  (** tokenize, [model.generate], decode with the model of that name;
      [None] stands for any exception *)
  marian_generate : nat -> str -> str -> option str;
  (** the string [GoogleTranslator(source, target).translate(chunk)]
      returns; [None] when the call gives no string *)
  google_translate : nat -> str -> str -> str -> option str;
  (** the string [MyMemoryTranslator(source, target).translate(chunk)]
      returns; [None] when the call gives no string *)
  mymemory_translate : nat -> str -> str -> str -> option str;
  (** whether a call of [GoogleTranslator.translate] that gives no string
      returns [None]; otherwise it raises *)
  google_returns_none : nat -> str -> str -> str -> bool;
  (** the same for [MyMemoryTranslator.translate] *)
  mymemory_returns_none : nat -> str -> str -> str -> bool;
  (** whether the Redis operation issued now raises *)
  redis_raises : nat -> bool;
  (** whether the disk cache operation issued now raises *)
  disk_raises : nat -> bool
}.

(** The external operations, in the order they were issued. *)
Inductive Event : Type :=
| EvTime
| EvDetect (text : str)
| EvLoad (model_name : str)
| EvGenerate (model_name chunk : str)
| EvGoogle (source target chunk : str)
| EvMyMemory (source target chunk : str)
| EvSleep (seconds : float)
| EvRedisGet (key : str)
| EvRedisSetex (key : str)
| EvDiskGet (key : str)
| EvDiskSet (key : str).

(** A stored translation: the result dictionary and the time it expires.
    Redis holds the JSON text of the dictionary and the disk cache its
    pickle; both give back an equal dictionary, which is what is kept here. *)
Record Entry : Type := mkEntry {
  entry_value : dict;
  entry_expires : float
}.

(** A loaded (tokenizer, model) pair, known by the name it was loaded under. *)
Record ModelHandle : Type := mkHandle { handle_name : str }.

Record State : Type := mkState {
  (** external operations performed so far *)
  tick : nat;
  trace : list Event;
  (** [self.redis_client is not None] *)
  redis_client : bool;
  (** the keys of the Redis server *)
  redis_store : gmap str Entry;
  (** [self.disk_cache] *)
  disk_cache : gmap str Entry;
  (** [self.model_cache] *)
  model_cache : gmap str ModelHandle
}.

Definition set_redis_store (f : gmap str Entry -> gmap str Entry) (st : State) : State :=
  mkState (tick st) (trace st) (redis_client st) (f (redis_store st))
          (disk_cache st) (model_cache st).

Definition set_disk_cache (f : gmap str Entry -> gmap str Entry) (st : State) : State :=
  mkState (tick st) (trace st) (redis_client st) (redis_store st)
          (f (disk_cache st)) (model_cache st).

Definition set_model_cache (f : gmap str ModelHandle -> gmap str ModelHandle) (st : State) : State :=
  mkState (tick st) (trace st) (redis_client st) (redis_store st)
          (disk_cache st) (f (model_cache st)).

(** One external operation: it is appended to the trace and the counter
    moves on. *)
Definition record_event (e : Event) (st : State) : State :=
  mkState (S (tick st)) (trace st ++ [e]) (redis_client st) (redis_store st)
          (disk_cache st) (model_cache st).

(** The state monad of the methods. *)
Definition M (A : Type) : Type := State -> A * State.

#[export] Instance M_ret : MRet M := fun A a st => (a, st).
#[export] Instance M_bind : MBind M :=
  fun A B k m st => let r := m st in k (fst r) (snd r).

(** Issue an external operation and learn the index it was issued at. *)
Definition external (e : Event) : M nat :=
  fun st => (tick st, record_event e st).

Definition get_state : M State := fun st => (st, st).

Definition modify (f : State -> State) : M unit := fun st => (tt, f st).

(** A loop body that may raise: the first exception ends the loop. *)
Fixpoint for_each_try {A B : Type} (body : A -> M (option B)) (l : list A)
  : M (option (list B)) :=
  match l with
  | [] => mret (Some [])
  | a :: l' =>
      r ← body a;
      match r with
      | None => mret None
      | Some b =>
          rs ← for_each_try body l';
          mret (match rs with Some bs => Some (b :: bs) | None => None end)
      end
  end.

Section Primitives.
Context (W : World).

(** [time.time()] *)
Definition time_time : M float :=
  k ← external EvTime; mret (clock W k).

(** [time.sleep(seconds)] *)
Definition time_sleep (seconds : float) : M unit :=
  _ ← external (EvSleep seconds); mret tt.

(** [GoogleTranslator(source, target).translate(chunk)] issued as operation
    [k]: [None] when it raises, [Some None] when it returns [None]. *)
Definition google_call (k : nat) (source target chunk : str) : option (option str) :=
  match google_translate W k source target chunk with
  | Some result => Some (Some result)
  | None => if google_returns_none W k source target chunk then Some None else None
  end.

(** [MyMemoryTranslator(source, target).translate(chunk)] issued as
    operation [k], likewise. *)
Definition mymemory_call (k : nat) (source target chunk : str) : option (option str) :=
  match mymemory_translate W k source target chunk with
  | Some result => Some (Some result)
  | None => if mymemory_returns_none W k source target chunk then Some None else None
  end.

(** Whether a stored entry is still there at time [now]. *)
Definition live (now : float) (e : Entry) : bool := ltb now (entry_expires e).

Definition read_store (store : gmap str Entry) (now : float) (key : str) : option dict :=
  match store !! key with
  | Some e => if live now e then Some (entry_value e) else None
  | None => None
  end.

(** [redis_client.setex(key, ttl, json.dumps(value))]; [None] when it raises. *)
Definition redis_setex (key : str) (ttl : float) (value : dict) : M (option unit) :=
  k ← external (EvRedisSetex key);
  if redis_raises W k then mret None
  else
    _ ← modify (set_redis_store (insert key (mkEntry value (add (clock W k) ttl))));
    mret (Some tt).

(** [redis_client.get(key)], decoded; [None] when it raises, [Some None]
    when the key is absent or expired. *)
Definition redis_get (key : str) : M (option (option dict)) :=
  k ← external (EvRedisGet key);
  if redis_raises W k then mret None
  else st ← get_state; mret (Some (read_store (redis_store st) (clock W k) key)).

(** [disk_cache.set(key, value, expire=ttl)] *)
Definition disk_set (key : str) (value : dict) (ttl : float) : M (option unit) :=
  k ← external (EvDiskSet key);
  if disk_raises W k then mret None
  else
    _ ← modify (set_disk_cache (insert key (mkEntry value (add (clock W k) ttl))));
    mret (Some tt).

(** [disk_cache.get(key)] *)
Definition disk_get (key : str) : M (option (option dict)) :=
  k ← external (EvDiskGet key);
  if disk_raises W k then mret None
  else st ← get_state; mret (Some (read_store (disk_cache st) (clock W k) key)).

End Primitives.

(** ** [core/caching.py]: class [ModelCache] *)

Module ModelCache.

(** An argument of [_make_key]: a string or an integer. *)
Inductive arg : Type :=
| AStr (s : str)
| AInt (z : Z).

(** [str(arg)] *)
Definition py_str (a : arg) : str :=
  match a with
  | AStr s => s
  | AInt z => str_of_int z
  end.

Section Methods.
Context (W : World).

(** [_make_key(prefix, *args)] *)
Definition _make_key (prefix : str) (args : list arg) : str :=
  let key_parts := List.map py_str args in
  let key_str := join (lit ":") key_parts in
  if 200 <? len key_str then
    let key_hash := md5_hexdigest W key_str in
    prefix ++ lit ":" ++ key_hash
  else prefix ++ lit ":" ++ key_str.

(** The key both [cache_translation] and [get_cached_translation] build:
    [_make_key("trans", source_lang, target_lang, hash(text))]. *)
Definition translation_key (text source_lang target_lang : str) : str :=
  _make_key (lit "trans") [AStr source_lang; AStr target_lang; AInt (py_hash W text)].

(** [get_model(model_name)] *)
Definition get_model (model_name : str) : M (option ModelHandle) :=
  st ← get_state; mret (model_cache st !! model_name).

(** [set_model(model_name, model_data)] *)
Definition set_model (model_name : str) (model_data : ModelHandle) : M unit :=
  modify (set_model_cache (insert model_name model_data)).

(** The default [ttl] of [cache_translation]. *)
Definition default_ttl : float := 3600%float.

(** [cache_translation(text, source_lang, target_lang, result, ttl)] *)
Definition cache_translation (text source_lang target_lang : str) (result : dict)
    (ttl : float) : M unit :=
  let cache_key := translation_key text source_lang target_lang in
  st ← get_state;
  written ← (if redis_client st
             then r ← redis_setex W cache_key ttl result; mret (bool_decide (is_Some r))
             else mret false);
  if written : bool then mret tt
  else _ ← disk_set W cache_key result ttl; mret tt.

(** [get_cached_translation(text, source_lang, target_lang)] *)
Definition get_cached_translation (text source_lang target_lang : str)
  : M (option dict) :=
  let cache_key := translation_key text source_lang target_lang in
  st ← get_state;
  from_redis ← (if redis_client st
                then r ← redis_get W cache_key;
                     mret (match r with Some (Some cached) => Some cached | _ => None end)
                else mret None);
  match from_redis with
  | Some cached => mret (Some cached)
  | None =>
      r ← disk_get W cache_key;
      match r with
      | Some (Some cached) =>
          if truthy_dict cached then
            _ ← (if redis_client st
                 then _ ← redis_setex W cache_key 3600%float cached; mret tt
                 else mret tt);
            mret (Some cached)
          else mret None
      | _ => mret None
      end
  end.

End Methods.
End ModelCache.

(** ** [core/translator.py]: class [AITranslator] *)

Module AITranslator.
Import ModelCache.

(** [self.supported_languages] *)
Definition supported_languages : gmap str str :=
  list_to_map
    [ (lit "en", lit "English"); (lit "es", lit "Spanish"); (lit "fr", lit "French");
      (lit "de", lit "German"); (lit "it", lit "Italian"); (lit "pt", lit "Portuguese");
      (lit "ru", lit "Russian"); (lit "ja", lit "Japanese"); (lit "ko", lit "Korean");
      (lit "zh", lit "Chinese"); (lit "ar", lit "Arabic"); (lit "hi", lit "Hindi");
      (lit "nl", lit "Dutch"); (lit "sv", lit "Swedish"); (lit "da", lit "Danish");
      (lit "no", lit "Norwegian"); (lit "fi", lit "Finnish"); (lit "pl", lit "Polish");
      (lit "tr", lit "Turkish"); (lit "th", lit "Thai") ].

(** [key in d] *)
Definition contains {V : Type} (d : gmap str V) (key : str) : bool :=
  bool_decide (is_Some (d !! key)).

(** [any(lo <= char <= hi for char in text)] *)
Definition any_in_range (lo hi : N) (text : str) : bool :=
  existsb (fun c => (lo <=? c)%N && (c <=? hi)%N) text.

(** A dictionary literal. *)
Definition mk_dict (fields : list (string * value)) : dict := list_to_map fields.

(** [f"{x}"] for a variable that holds a string or [None]. *)
Definition fmt (o : option str) : str :=
  match o with Some s => s | None => lit "None" end.

(** A variable that holds a string or [None], as a dictionary value. *)
Definition of_opt (o : option str) : value :=
  match o with Some s => VStr s | None => VNone end.

Section Methods.
Context (W : World).

(** [load_ai_model(model_name)]: the pair, or [(None, None)] as [None]. *)
Definition load_ai_model (model_name : str) : M (option ModelHandle) :=
  cached_model ← get_model model_name;
  match cached_model with
  | Some h => mret (Some h)
  | None =>
      k ← external (EvLoad model_name);
      if from_pretrained W k model_name then
        let model_data := mkHandle model_name in
        _ ← set_model model_name model_data;
        mret (Some model_data)
      else mret None
  end.

(** [re.sub(r'[^\w\s]', ' ', text)] *)
Definition sub_non_word (text : str) : str :=
  List.map (fun c => if isalnum W c || (c =? 95)%N || isspace c then c else 32%N) text.

(** [detect_language(text)] *)
Definition detect_language (text : str) : M (str * float) :=
  if negb (truthy_str text) || (len (strip text) <? 3) then
    mret (lit "en", 0.3%float)
  else
    let clean_text := sub_non_word text in
    let clean_text := join (lit " ") (split clean_text) in
    let sample := if 10 <? len clean_text then clean_text else text in
    k ← external (EvDetect sample);
    match langdetect W k sample with
    | Some detected =>
        let confidence := if 10 <? len clean_text then 0.95%float else 0.7%float in
        if negb (contains supported_languages detected) then mret (lit "en", 0.5%float)
        else mret (detected, confidence)
    | None =>
        if any_in_range 0x4e00 0x9fff text then mret (lit "zh", 0.8%float)
        else if any_in_range 0x3040 0x309f text || any_in_range 0x30a0 0x30ff text
        then mret (lit "ja", 0.8%float)
        else if any_in_range 0xac00 0xd7af text then mret (lit "ko", 0.8%float)
        else if any_in_range 0x0600 0x06ff text then mret (lit "ar", 0.8%float)
        else if any_in_range 0x0900 0x097f text then mret (lit "hi", 0.8%float)
        else mret (lit "en", 0.5%float)
    end.

(** One pass through tokenizer, [model.generate] and [tokenizer.decode]. *)
Definition generate (h : ModelHandle) (chunk : str) : M (option str) :=
  k ← external (EvGenerate (handle_name h) chunk);
  mret (marian_generate W k (handle_name h) chunk).

(** [translate_with_ai(text, source_lang, target_lang)]: result and method. *)
Definition translate_with_ai (text source_lang target_lang : str)
  : M (option str * option str) :=
  if negb (truthy_str (strip text)) then mret (None, None)
  else
    let model_name :=
      lit "Helsinki-NLP/opus-mt-" ++ source_lang ++ lit "-" ++ target_lang in
    loaded ← load_ai_model model_name;
    match loaded with
    | Some h =>
        let max_length := 400%nat in
        r ← (if Z.of_nat max_length <? len text then
               let chunks := chunks max_length text in
               translated_chunks ← for_each_try (generate h) chunks;
               mret (join (lit " ") <$> translated_chunks)
             else generate h text);
        match r with
        | Some result => mret (Some result, Some (lit "AI Model (Marian)"))
        | None => mret (None, None)
        end
    | None => mret (None, None)
    end.

Definition max_retries : nat := 3.

(** The body of [translate_with_google]'s [try], after the source language
    is settled: the text, in chunks when long.  [None] when something
    raises, otherwise what [result] holds, a string or [None]. *)
Definition google_request (text source_lang target_lang : str)
  : M (option (option str)) :=
  let max_chunk_size := 4500%nat in
  if Z.of_nat max_chunk_size <? len text then
    let chunks := chunks max_chunk_size text in
    translated_chunks ←
      for_each_try
        (fun chunk =>
           k ← external (EvGoogle source_lang target_lang chunk);
           match google_call W k source_lang target_lang chunk with
           | Some chunk_result => _ ← time_sleep 0.1%float; mret (Some chunk_result)
           | None => mret None
           end)
        chunks;
    mret (match translated_chunks with
          | Some parts => Some <$> join_parts (lit " ") parts
          | None => None
          end)
  else
    k ← external (EvGoogle source_lang target_lang text);
    mret (google_call W k source_lang target_lang text).

(** [for attempt in range(max_retries)] of [translate_with_google]. *)
Fixpoint google_attempts (attempts : list nat) (text source_lang target_lang : str)
  : M (option str * option str * option str) :=
  match attempts with
  | [] => mret (None, None, None)
  | attempt :: rest =>
      source_lang ← (if bool_decide (source_lang = lit "auto")
                     then r ← detect_language text; mret (fst r)
                     else mret source_lang);
      r ← google_request text source_lang target_lang;
      match r with
      | Some result => mret (result, Some source_lang, Some (lit "Google Translate"))
      | None =>
          if (attempt <? max_retries - 1)%nat
          then _ ← time_sleep 1%float; google_attempts rest text source_lang target_lang
          else mret (None, None, None)
      end
  end.

(** [translate_with_google(text, source_lang, target_lang)]: result, source
    language and method. *)
Definition translate_with_google (text source_lang target_lang : str)
  : M (option str * option str * option str) :=
  google_attempts (seq 0 max_retries) text source_lang target_lang.

(** [translate_with_mymemory(text, source_lang, target_lang)] *)
Definition translate_with_mymemory (text source_lang target_lang : str)
  : M (option str * option str) :=
  let max_chunk_size := 450%nat in
  r ← (if Z.of_nat max_chunk_size <? len text then
         let chunks := chunks max_chunk_size text in
         translated_chunks ←
           for_each_try
             (fun chunk =>
                k ← external (EvMyMemory source_lang target_lang chunk);
                match mymemory_call W k source_lang target_lang chunk with
                | Some chunk_result => _ ← time_sleep 0.2%float; mret (Some chunk_result)
                | None => mret None
                end)
             chunks;
         mret (match translated_chunks with
               | Some parts => Some <$> join_parts (lit " ") parts
               | None => None
               end)
       else
         k ← external (EvMyMemory source_lang target_lang text);
         mret (mymemory_call W k source_lang target_lang text));
  match r with
  | Some result => mret (result, Some (lit "MyMemory"))
  | None => mret (None, None)
  end.

(** The first lines of both [smart_translate]s: [source_lang] after the
    [if source_lang == 'auto'] block. *)
Definition resolve_source (text source_lang : str) : M str :=
  if bool_decide (source_lang = lit "auto")
  then r ← detect_language text; mret (fst r)
  else mret source_lang.

(** The cache-hit return of both [smart_translate]s. *)
Definition return_cached (cached_result : dict) (start_time : float) : M (option dict) :=
  now ← time_time W;
  let cached_result := <["time" := VFloat (sub now start_time)]> cached_result in
  let cached_result := <["cached" := VBool true]> cached_result in
  mret (Some cached_result).

(** [smart_translate] from [# Try AI model first] on: the backend chain
    run after the cache probe found nothing. *)
Definition backend_chain (text source_lang target_lang : str) (start_time : float)
  : M (option dict) :=
  ai ← translate_with_ai text source_lang target_lang;
  let '(ai_result, ai_method) := ai in
  if truthy_opt ai_result then
    now ← time_time W;
    let result := mk_dict
      [ ("translation", of_opt ai_result);
        ("source_lang", VStr source_lang);
        ("method", of_opt ai_method);
        ("time", VFloat (sub now start_time));
        ("confidence", VFloat 0.95%float);
        ("cached", VBool false) ] in
    _ ← cache_translation W text source_lang target_lang result default_ttl;
    mret (Some result)
  else
    g ← translate_with_google text source_lang target_lang;
    let '(google_result, detected_lang, google_method) := g in
    if truthy_opt google_result then
      now ← time_time W;
      let result := mk_dict
        [ ("translation", of_opt google_result);
          ("source_lang", of_opt detected_lang);
          ("method", of_opt google_method);
          ("time", VFloat (sub now start_time));
          ("confidence", VFloat 0.90%float);
          ("cached", VBool false) ] in
      _ ← cache_translation W text source_lang target_lang result default_ttl;
      mret (Some result)
    else
      mm ← translate_with_mymemory text source_lang target_lang;
      let '(mymemory_result, mymemory_method) := mm in
      if truthy_opt mymemory_result then
        now ← time_time W;
        let result := mk_dict
          [ ("translation", of_opt mymemory_result);
            ("source_lang", VStr source_lang);
            ("method", of_opt mymemory_method);
            ("time", VFloat (sub now start_time));
            ("confidence", VFloat 0.80%float);
            ("cached", VBool false) ] in
        _ ← cache_translation W text source_lang target_lang result default_ttl;
        mret (Some result)
      else mret None.

(** [smart_translate(text, source_lang, target_lang)] *)
Definition smart_translate (text source_lang target_lang : str) : M (option dict) :=
  start_time ← time_time W;
  source_lang ← resolve_source text source_lang;
  cached_result ← get_cached_translation W text source_lang target_lang;
  match cached_result with
  | Some cached =>
      if truthy_dict cached then return_cached cached start_time
      else backend_chain text source_lang target_lang start_time
  | None => backend_chain text source_lang target_lang start_time
  end.

End Methods.

(** [validate_input(text, source_lang, target_lang)]; [text] may be [None]. *)
Definition validate_input (text : option str) (source_lang target_lang : str)
  : outcome (list str) :=
  let errors := [] in
  let errors :=
    if match text with
       | None => true
       | Some s => negb (truthy_str s) || negb (truthy_str (strip s))
       end
    then errors ++ [lit "Please enter some text to translate"]
    else errors in
  match text with
  | None => Raises TypeError
  | Some s =>
      let errors :=
        if 10000 <? len s
        then errors ++ [lit "Text is too long (maximum 10,000 characters)"]
        else errors in
      let errors :=
        if bool_decide (source_lang = target_lang) && negb (bool_decide (source_lang = lit "auto"))
        then errors ++ [lit "Source and target languages cannot be the same"]
        else errors in
      Returns errors
  end.

End AITranslator.

(** ** [core/offline_translator.py]: class [OfflineTranslator] *)

Module OfflineTranslator.
Import ModelCache.
Import AITranslator.

(** The switches [__init__] reads from its argument and the environment. *)
Record Config : Type := mkConfig {
  offline_mode : bool;
  use_ai_models : bool;
  use_google_translate : bool;
  use_mymemory : bool
}.

(** [self.offline_pairs] *)
Definition offline_pairs : gmap (str * str) str :=
  list_to_map
    [ ((lit "en", lit "es"), lit "Helsinki-NLP/opus-mt-en-es");
      ((lit "en", lit "fr"), lit "Helsinki-NLP/opus-mt-en-fr");
      ((lit "en", lit "de"), lit "Helsinki-NLP/opus-mt-en-de");
      ((lit "en", lit "it"), lit "Helsinki-NLP/opus-mt-en-it");
      ((lit "en", lit "pt"), lit "Helsinki-NLP/opus-mt-en-pt");
      ((lit "en", lit "ru"), lit "Helsinki-NLP/opus-mt-en-ru");
      ((lit "en", lit "zh"), lit "Helsinki-NLP/opus-mt-en-zh");
      ((lit "en", lit "ja"), lit "Helsinki-NLP/opus-mt-en-jap");
      ((lit "en", lit "ko"), lit "Helsinki-NLP/opus-mt-en-ko");
      ((lit "en", lit "ar"), lit "Helsinki-NLP/opus-mt-en-ar");
      ((lit "en", lit "hi"), lit "Helsinki-NLP/opus-mt-en-hi");
      ((lit "en", lit "nl"), lit "Helsinki-NLP/opus-mt-en-nl");
      ((lit "en", lit "sv"), lit "Helsinki-NLP/opus-mt-en-sv");
      ((lit "en", lit "da"), lit "Helsinki-NLP/opus-mt-en-da");
      ((lit "en", lit "no"), lit "Helsinki-NLP/opus-mt-en-no");
      ((lit "en", lit "fi"), lit "Helsinki-NLP/opus-mt-en-fi");
      ((lit "en", lit "pl"), lit "Helsinki-NLP/opus-mt-en-pl");
      ((lit "en", lit "tr"), lit "Helsinki-NLP/opus-mt-en-tr");
      ((lit "es", lit "en"), lit "Helsinki-NLP/opus-mt-es-en");
      ((lit "fr", lit "en"), lit "Helsinki-NLP/opus-mt-fr-en");
      ((lit "de", lit "en"), lit "Helsinki-NLP/opus-mt-de-en");
      ((lit "it", lit "en"), lit "Helsinki-NLP/opus-mt-it-en");
      ((lit "pt", lit "en"), lit "Helsinki-NLP/opus-mt-pt-en");
      ((lit "ru", lit "en"), lit "Helsinki-NLP/opus-mt-ru-en");
      ((lit "zh", lit "en"), lit "Helsinki-NLP/opus-mt-zh-en");
      ((lit "ja", lit "en"), lit "Helsinki-NLP/opus-mt-jap-en");
      ((lit "ko", lit "en"), lit "Helsinki-NLP/opus-mt-ko-en");
      ((lit "ar", lit "en"), lit "Helsinki-NLP/opus-mt-ar-en");
      ((lit "hi", lit "en"), lit "Helsinki-NLP/opus-mt-hi-en");
      ((lit "nl", lit "en"), lit "Helsinki-NLP/opus-mt-nl-en");
      ((lit "sv", lit "en"), lit "Helsinki-NLP/opus-mt-sv-en");
      ((lit "da", lit "en"), lit "Helsinki-NLP/opus-mt-da-en");
      ((lit "no", lit "en"), lit "Helsinki-NLP/opus-mt-no-en");
      ((lit "fi", lit "en"), lit "Helsinki-NLP/opus-mt-fi-en");
      ((lit "pl", lit "en"), lit "Helsinki-NLP/opus-mt-pl-en");
      ((lit "tr", lit "en"), lit "Helsinki-NLP/opus-mt-tr-en");
      ((lit "es", lit "fr"), lit "Helsinki-NLP/opus-mt-es-fr");
      ((lit "fr", lit "es"), lit "Helsinki-NLP/opus-mt-fr-es");
      ((lit "es", lit "it"), lit "Helsinki-NLP/opus-mt-es-it");
      ((lit "it", lit "es"), lit "Helsinki-NLP/opus-mt-it-es");
      ((lit "fr", lit "de"), lit "Helsinki-NLP/opus-mt-fr-de");
      ((lit "de", lit "fr"), lit "Helsinki-NLP/opus-mt-de-fr") ].

(** [is_offline_available(source_lang, target_lang)] *)
Definition is_offline_available (source_lang target_lang : str) : bool :=
  bool_decide (is_Some (offline_pairs !! (source_lang, target_lang))).

(** The characters between the two languages in the fallback's error text,
    as the source file spells them. *)
Definition arrow : str := [32; 226; 8224; 8217; 32]%N.

(** What [preload_models] returns: the [(source, target, model_name)]
    triples that loaded and the [(source, target, message)] triples that
    did not. *)
Record PreloadResults : Type := mkPreloadResults {
  loaded : list (str * str * str);
  errors : list (str * str * str)
}.

Section Methods.
Context (W : World) (self : Config).

(** [_translate_via_english_pivot(text, source_lang, target_lang)] *)
Definition _translate_via_english_pivot (text source_lang target_lang : str)
  : M (option dict) :=
  start_time ← time_time W;
  if is_offline_available source_lang (lit "en") then
    step1 ← translate_with_ai W text source_lang (lit "en");
    let '(english_result, method1) := step1 in
    match english_result with
    | None => mret None
    | Some english =>
        if negb (truthy_str english) then mret None
        else if is_offline_available (lit "en") target_lang then
          step2 ← translate_with_ai W english (lit "en") target_lang;
          let '(final_result, method2) := step2 in
          if negb (truthy_opt final_result) then mret None
          else
            now ← time_time W;
            let result := mk_dict
              [ ("translation", of_opt final_result);
                ("source_lang", VStr source_lang);
                ("method", VStr (lit "AI Model via English Pivot (Offline)"));
                ("time", VFloat (sub now start_time));
                ("confidence", VFloat 0.85%float);
                ("cached", VBool false);
                ("offline", VBool true);
                ("pivot", VBool true) ] in
            _ ← cache_translation W text source_lang target_lang result default_ttl;
            mret (Some result)
        else mret None
    end
  else mret None.

(** [smart_translate] from [# Fall back to online services] on. *)
Definition online_chain (text source_lang target_lang : str) (start_time : float)
  : M (option dict) :=
  served ←
    (if use_google_translate self then
       g ← translate_with_google W text source_lang target_lang;
       let '(google_result, detected_lang, google_method) := g in
       if truthy_opt google_result then
         now ← time_time W;
         let result := mk_dict
           [ ("translation", of_opt google_result);
             ("source_lang", of_opt detected_lang);
             ("method", VStr (fmt google_method ++ lit " (Online)"));
             ("time", VFloat (sub now start_time));
             ("confidence", VFloat 0.90%float);
             ("cached", VBool false);
             ("offline", VBool false) ] in
         _ ← cache_translation W text source_lang target_lang result default_ttl;
         mret (Some result)
       else mret None
     else mret None);
  match served with
  | Some result => mret (Some result)
  | None =>
      if use_mymemory self then
        mm ← translate_with_mymemory W text source_lang target_lang;
        let '(mymemory_result, mymemory_method) := mm in
        if truthy_opt mymemory_result then
          now ← time_time W;
          let result := mk_dict
            [ ("translation", of_opt mymemory_result);
              ("source_lang", VStr source_lang);
              ("method", VStr (fmt mymemory_method ++ lit " (Online)"));
              ("time", VFloat (sub now start_time));
              ("confidence", VFloat 0.80%float);
              ("cached", VBool false);
              ("offline", VBool false) ] in
          _ ← cache_translation W text source_lang target_lang result default_ttl;
          mret (Some result)
        else mret None
      else mret None
  end.

(** The [# Return fallback result] dictionary. *)
Definition offline_fallback (text source_lang target_lang : str) (start_time : float)
  : M (option dict) :=
  now ← time_time W;
  mret (Some (mk_dict
    [ ("translation", VStr text);
      ("source_lang", VStr source_lang);
      ("method", VStr (lit "Offline Fallback"));
      ("time", VFloat (sub now start_time));
      ("confidence", VFloat 0.1%float);
      ("cached", VBool false);
      ("offline", VBool true);
      ("error", VStr (lit "No offline model available for " ++ source_lang
                      ++ arrow ++ target_lang)) ])).

(** [smart_translate] from [# If offline mode is forced] on. *)
Definition after_local_model (text source_lang target_lang : str) (start_time : float)
  : M (option dict) :=
  if offline_mode self then
    pivot_result ←
      (if negb (bool_decide (source_lang = lit "en"))
          && negb (bool_decide (target_lang = lit "en"))
       then _translate_via_english_pivot text source_lang target_lang
       else mret None);
    if truthy_opt_dict pivot_result then mret pivot_result
    else offline_fallback text source_lang target_lang start_time
  else online_chain text source_lang target_lang start_time.

(** [smart_translate] from [# Try offline AI model first if available] on. *)
Definition local_model_first (text source_lang target_lang : str) (start_time : float)
  : M (option dict) :=
  if use_ai_models self && is_offline_available source_lang target_lang then
    ai ← translate_with_ai W text source_lang target_lang;
    let '(ai_result, ai_method) := ai in
    if truthy_opt ai_result then
      now ← time_time W;
      let result := mk_dict
        [ ("translation", of_opt ai_result);
          ("source_lang", VStr source_lang);
          ("method", VStr (fmt ai_method ++ lit " (Offline)"));
          ("time", VFloat (sub now start_time));
          ("confidence", VFloat 0.92%float);
          ("cached", VBool false);
          ("offline", VBool true) ] in
      _ ← cache_translation W text source_lang target_lang result default_ttl;
      mret (Some result)
    else after_local_model text source_lang target_lang start_time
  else after_local_model text source_lang target_lang start_time.

(** [smart_translate(text, source_lang, target_lang)] *)
Definition smart_translate (text source_lang target_lang : str) : M (option dict) :=
  start_time ← time_time W;
  source_lang ← resolve_source W text source_lang;
  cached_result ← get_cached_translation W text source_lang target_lang;
  match cached_result with
  | Some cached =>
      if truthy_dict cached then return_cached W cached start_time
      else local_model_first text source_lang target_lang start_time
  | None => local_model_first text source_lang target_lang start_time
  end.

(** The pairs [preload_models] loads when it is given none. *)
Definition common_pairs : list (str * str) :=
  [ (lit "en", lit "es"); (lit "es", lit "en");
    (lit "en", lit "fr"); (lit "fr", lit "en");
    (lit "en", lit "de"); (lit "de", lit "en");
    (lit "en", lit "it"); (lit "it", lit "en");
    (lit "en", lit "pt"); (lit "pt", lit "en") ].

(** The loop of [preload_models] over the pairs still to do. *)
Fixpoint preload_loop (language_pairs : list (str * str)) (results : PreloadResults)
  : M PreloadResults :=
  match language_pairs with
  | [] => mret results
  | (source, target) :: rest =>
      match offline_pairs !! (source, target) with
      | Some model_name =>
          model_data ← load_ai_model W model_name;
          match model_data with
          | Some _ =>
              preload_loop rest
                (mkPreloadResults (loaded results ++ [(source, target, model_name)])
                                  (errors results))
          | None =>
              preload_loop rest
                (mkPreloadResults (loaded results)
                   (errors results ++ [(source, target, lit "Failed to load model")]))
          end
      | None => preload_loop rest results
      end
  end.

(** [preload_models(language_pairs)]; [None] stands for the default. *)
Definition preload_models (language_pairs : option (list (str * str))) : M PreloadResults :=
  let language_pairs := default common_pairs language_pairs in
  preload_loop language_pairs (mkPreloadResults [] []).

End Methods.
End OfflineTranslator.

(** ** Concrete environments

    Small worlds the statements below are run in: the clock, the local
    model and the two web services are given, the rest is fixed. *)

Module Demo.
Import ModelCache AITranslator OfflineTranslator.

(** Values of [hash] in a CPython 3.11 process started with
    [PYTHONHASHSEED=0]; any other text hashes to 0 here. *)
Definition demo_hash (text : str) : Z :=
  if bool_decide (text = lit "Hello") then -594506919523553963
  else if bool_decide (text = lit "Hello world") then -5684338334176538361
  else if bool_decide (text = lit "Bonjour") then 646135910855293367
  else if bool_decide (text = lit "Hi") then -1568241599318169379
  else 0.

(** Letters and digits of ASCII. *)
Definition ascii_alnum (c : N) : bool :=
  ((48 <=? c) && (c <=? 57) || (65 <=? c) && (c <=? 90) || (97 <=? c) && (c <=? 122))%N.

Definition world_with (clock : nat -> float)
    (marian : str -> str -> option str)
    (google mymemory : str -> option str) : World :=
  {| clock := clock;
     py_hash := demo_hash;
     md5_hexdigest := fun _ => lit "d41d8cd98f00b204e9800998ecf8427e";
     isalnum := ascii_alnum;
     langdetect := fun _ _ => Some (lit "en");
     from_pretrained := fun _ _ => true;
     marian_generate := fun _ => marian;
     google_translate := fun _ _ _ => google;
     mymemory_translate := fun _ _ _ => mymemory;
     google_returns_none := fun _ _ _ _ => false;
     mymemory_returns_none := fun _ _ _ _ => false;
     redis_raises := fun _ => false;
     disk_raises := fun _ => false |}.

(** A local model that knows three language pairs. *)
Definition demo_marian (model_name chunk : str) : option str :=
  if bool_decide (model_name = lit "Helsinki-NLP/opus-mt-en-es") then Some (lit "Hola")
  else if bool_decide (model_name = lit "Helsinki-NLP/opus-mt-es-en") then Some (lit "Hello")
  else if bool_decide (model_name = lit "Helsinki-NLP/opus-mt-en-de") then Some (lit "Hallo")
  else None.

(** A clock that stands still. *)
Definition still_clock (k : nat) : float := 1000%float.

(** A clock that jumps past every expiry after six operations. *)
Definition late_clock (k : nat) : float :=
  if (k <? 6)%nat then 1000%float else 10000%float.

(** Everything works. *)
Definition demo_world : World :=
  world_with still_clock demo_marian (fun _ => Some (lit "Hola")) (fun _ => Some (lit "Hola")).

(** Everything works, and the clock jumps. *)
Definition late_world : World :=
  world_with late_clock demo_marian (fun _ => Some (lit "Hola")) (fun _ => Some (lit "Hola")).

(** No model, and both web services answer with the empty string. *)
Definition silent_world : World :=
  world_with still_clock (fun _ _ => None) (fun _ => Some []) (fun _ => Some []).

(** No model, the first web service answers with the empty string. *)
Definition mymemory_world : World :=
  world_with still_clock (fun _ _ => None) (fun _ => Some []) (fun _ => Some (lit "Hola")).

(** A fresh process: nothing cached, no Redis client. *)
Definition fresh : State :=
  mkState 0 [] false ∅ ∅ ∅.

(** A fresh process connected to Redis. *)
Definition fresh_redis : State :=
  mkState 0 [] true ∅ ∅ ∅.

(** 480 characters, and 401 spaces. *)
Definition long_text : str := concat (repeat (lit "Hello ") 80).
Definition blank_text : str := repeat 32%N 401.

Definition forced_offline : Config := mkConfig true true true true.
Definition online : Config := mkConfig false true true true.
Definition switched_off : Config := mkConfig false false false false.

(** Nothing answers: no model loads and both web services raise. *)
Definition dead_world : World :=
  {| clock := still_clock;
     py_hash := demo_hash;
     md5_hexdigest := fun _ => lit "d41d8cd98f00b204e9800998ecf8427e";
     isalnum := ascii_alnum;
     langdetect := fun _ _ => None;
     from_pretrained := fun _ _ => false;
     marian_generate := fun _ _ _ => None;
     google_translate := fun _ _ _ _ => None;
     mymemory_translate := fun _ _ _ _ => None;
     google_returns_none := fun _ _ _ _ => false;
     mymemory_returns_none := fun _ _ _ _ => false;
     redis_raises := fun _ => false;
     disk_raises := fun _ => false |}.

(** Google raises until the fifth external operation; models load from the
    third operation on and the model answers only its first call. *)
Definition flaky_world : World :=
  {| clock := still_clock;
     py_hash := demo_hash;
     md5_hexdigest := fun _ => lit "d41d8cd98f00b204e9800998ecf8427e";
     isalnum := ascii_alnum;
     langdetect := fun _ _ => Some (lit "en");
     from_pretrained := fun k _ => (2 <=? k)%nat;
     marian_generate := fun k _ _ => if (k <=? 1)%nat then Some (lit "Hola") else None;
     google_translate := fun k _ _ _ => if (k <? 4)%nat then None else Some (lit "Hola");
     mymemory_translate := fun _ _ _ _ => Some (lit "Hola");
     google_returns_none := fun _ _ _ _ => false;
     mymemory_returns_none := fun _ _ _ _ => false;
     redis_raises := fun _ => false;
     disk_raises := fun _ => false |}.

(** Redis raises on every operation; the rest works. *)
Definition redis_down_world : World :=
  {| clock := still_clock;
     py_hash := demo_hash;
     md5_hexdigest := fun _ => lit "d41d8cd98f00b204e9800998ecf8427e";
     isalnum := ascii_alnum;
     langdetect := fun _ _ => Some (lit "en");
     from_pretrained := fun _ _ => true;
     marian_generate := fun _ => demo_marian;
     google_translate := fun _ _ _ _ => Some (lit "Hola");
     mymemory_translate := fun _ _ _ _ => Some (lit "Hola");
     google_returns_none := fun _ _ _ _ => false;
     mymemory_returns_none := fun _ _ _ _ => false;
     redis_raises := fun _ => true;
     disk_raises := fun _ => false |}.

(** No model loads; Google returns [None] without raising, and MyMemory
    answers. *)
Definition none_world : World :=
  {| clock := still_clock;
     py_hash := demo_hash;
     md5_hexdigest := fun _ => lit "d41d8cd98f00b204e9800998ecf8427e";
     isalnum := ascii_alnum;
     langdetect := fun _ _ => Some (lit "en");
     from_pretrained := fun _ _ => false;
     marian_generate := fun _ _ _ => None;
     google_translate := fun _ _ _ _ => None;
     mymemory_translate := fun _ _ _ _ => Some (lit "Hola");
     google_returns_none := fun _ _ _ _ => true;
     mymemory_returns_none := fun _ _ _ _ => false;
     redis_raises := fun _ => false;
     disk_raises := fun _ => false |}.

(** Everything works but the disk cache's [get] at the eighth operation,
    which raises. *)
Definition unreadable_world : World :=
  {| clock := still_clock;
     py_hash := demo_hash;
     md5_hexdigest := fun _ => lit "d41d8cd98f00b204e9800998ecf8427e";
     isalnum := ascii_alnum;
     langdetect := fun _ _ => Some (lit "en");
     from_pretrained := fun _ _ => true;
     marian_generate := fun _ => demo_marian;
     google_translate := fun _ _ _ _ => Some (lit "Hola");
     mymemory_translate := fun _ _ _ _ => Some (lit "Hola");
     google_returns_none := fun _ _ _ _ => false;
     mymemory_returns_none := fun _ _ _ _ => false;
     redis_raises := fun _ => false;
     disk_raises := fun k => (k =? 7)%nat |}.

(** Redis raises during the first eight operations and works afterwards. *)
Definition redis_back_world : World :=
  {| clock := still_clock;
     py_hash := demo_hash;
     md5_hexdigest := fun _ => lit "d41d8cd98f00b204e9800998ecf8427e";
     isalnum := ascii_alnum;
     langdetect := fun _ _ => Some (lit "en");
     from_pretrained := fun _ _ => true;
     marian_generate := fun _ => demo_marian;
     google_translate := fun _ _ _ _ => Some (lit "Hola");
     mymemory_translate := fun _ _ _ _ => Some (lit "Hola");
     google_returns_none := fun _ _ _ _ => false;
     mymemory_returns_none := fun _ _ _ _ => false;
     redis_raises := fun k => (k <? 8)%nat;
     disk_raises := fun _ => false |}.

(** 1000 characters, and 5000. *)
Definition longer_text : str := concat (repeat (lit "Hello you ") 100).
Definition longest_text : str := concat (repeat (lit "Hello you ") 500).

(** A process that holds the Marian model from English to Spanish. *)
Definition warm : State :=
  set_model_cache
    (insert (lit "Helsinki-NLP/opus-mt-" ++ lit "en" ++ lit "-" ++ lit "es")
            (mkHandle (lit "Helsinki-NLP/opus-mt-en-es")))
    fresh.

(** A process connected to Redis whose disk cache holds [result] for
    ["Hello"] from English to Spanish until the clock reads 2000. *)
Definition disk_only (W : World) (result : dict) : State :=
  set_disk_cache
    (insert (translation_key W (lit "Hello") (lit "en") (lit "es")) (mkEntry result 2000))
    fresh_redis.

(** A result dictionary to store. *)
Definition sample_result : dict :=
  mk_dict [ ("translation", VStr (lit "Hola")); ("method", VStr (lit "Test")) ].

(** A process connected to Redis, where an earlier result for ["Hello"]
    from English to Spanish is kept until the clock reads 2000. *)
Definition stale_redis (W : World) : State :=
  set_redis_store
    (insert (translation_key W (lit "Hello") (lit "en") (lit "es"))
            (mkEntry (mk_dict [ ("translation", VStr (lit "Buenas")); ("method", VStr (lit "Test")) ])
                     2000))
    fresh_redis.

End Demo.

(** ** Vocabulary of the statements *)

Module Spec.
Import ModelCache AITranslator OfflineTranslator.

(** The third message of [validate_input]. *)
Definition same_language_error : str :=
  lit "Source and target languages cannot be the same".


(** The method names the results carry. *)
Definition ai_method_name : str := lit "AI Model (Marian)".
Definition google_method_name : str := lit "Google Translate".
Definition mymemory_method_name : str := lit "MyMemory".
Definition offline_ai_method_name : str := lit "AI Model (Marian) (Offline)".
Definition offline_google_method_name : str := lit "Google Translate (Online)".
Definition offline_mymemory_method_name : str := lit "MyMemory (Online)".
Definition pivot_method_name : str := lit "AI Model via English Pivot (Offline)".
Definition fallback_method_name : str := lit "Offline Fallback".

(** A result that was not read from the cache, with its method and its
    confidence. *)
Definition produced_by (method : str) (confidence : float) (result : dict) : Prop :=
  result !! "method" = Some (VStr method)
  /\ result !! "confidence" = Some (VFloat confidence)
  /\ result !! "cached" = Some (VBool false).

(** A result that carries what a backend answered, with the method and the
    confidence of that backend. *)
Definition result_of (answer : option str) (method : str) (confidence : float)
    (result : dict) : Prop :=
  result !! "translation" = Some (of_opt answer)
  /\ produced_by method confidence result.

(** No operation on a cache tier raises. *)
Definition tiers_never_fail (W : World) : Prop :=
  forall k, redis_raises W k = false /\ disk_raises W k = false.

(** The entry a probe reads first: the one in Redis when there is a client,
    the one on disk otherwise. *)
Definition stored_entry (st : State) (key : str) : option Entry :=
  if redis_client st then redis_store st !! key else disk_cache st !! key.

(** The two tiers of the translation cache. *)
Inductive Tier : Type := InRedis | OnDisk.

(** The tier that took the cache write with which a call ended in state
    [st1]: Redis when the last operation is a [setex] (after a [setex]
    that raises the disk write follows), the disk cache when the last
    operation is a disk write that did not raise.  [None]: the write did
    not succeed. *)
Definition written_to (W : World) (st1 : State) : option Tier :=
  match last (trace st1) with
  | Some (EvRedisSetex _) => Some InRedis
  | Some (EvDiskSet _) => if disk_raises W (Nat.pred (tick st1)) then None else Some OnDisk
  | _ => None
  end.

(** The next call, which starts in [st1] and probes the cache after it has
    read the clock, reads the entry that the last operation before [st1]
    wrote to [tier] with the default time to live: the read of that tier
    does not raise and comes before the entry expires; an entry on disk is
    reached only if Redis, when there is a client, raises or holds no live
    entry under the key. *)
Definition read_back (W : World) (st1 : State) (key : str) (tier : Tier) : Prop :=
  let expires := add (clock W (Nat.pred (tick st1))) default_ttl in
  let first_read := S (tick st1) in
  match tier with
  | InRedis =>
      redis_raises W first_read = false /\ ltb (clock W first_read) expires = true
  | OnDisk =>
      let disk_read := if redis_client st1 then S first_read else first_read in
      (redis_client st1 = true ->
       redis_raises W first_read = true
       \/ read_store (redis_store st1) (clock W first_read) key = None)
      /\ disk_raises W disk_read = false
      /\ ltb (clock W disk_read) expires = true
  end.

(** The fields of a result, in the order the source writes them. *)
Definition field_names : list string :=
  [ "translation"; "source_lang"; "method"; "time"; "confidence"; "cached";
    "offline"; "pivot"; "error" ].

Definition fields_of (result : dict) : list (string * value) :=
  omap (fun name => (fun v => (name, v)) <$> result !! name) field_names.

(** The calls of the local model in a trace: model name and chunk. *)
Definition generate_calls (events : list Event) : list (str * str) :=
  omap (fun e => match e with
                 | EvGenerate model_name chunk => Some (model_name, chunk)
                 | _ => None
                 end) events.

(** The dictionary under [# Return fallback result]. *)
Definition fallback_result (text source_lang target_lang : str) (elapsed : float) : dict :=
  mk_dict
    [ ("translation", VStr text);
      ("source_lang", VStr source_lang);
      ("method", VStr fallback_method_name);
      ("time", VFloat elapsed);
      ("confidence", VFloat 0.1%float);
      ("cached", VBool false);
      ("offline", VBool true);
      ("error", VStr (lit "No offline model available for " ++ source_lang
                      ++ arrow ++ target_lang)) ].

End Spec.

(** ** What a run does to the state

    The external operations fall into kinds; a run is described by a
    relation between the state before and the state after. *)

Module Effects.

Inductive Kind : Type :=
| Clock
| Detector
| ModelLoad
| ModelCall
| OnlineService
| Pause
| CacheTier.

#[export] Instance Kind_eq_dec : EqDecision Kind.
Proof. solve_decision. Defined.

Definition kind (e : Event) : Kind :=
  match e with
  | EvTime => Clock
  | EvDetect _ => Detector
  | EvLoad _ => ModelLoad
  | EvGenerate _ _ => ModelCall
  | EvGoogle _ _ _ | EvMyMemory _ _ _ => OnlineService
  | EvSleep _ => Pause
  | EvRedisGet _ | EvRedisSetex _ | EvDiskGet _ | EvDiskSet _ => CacheTier
  end.

(** The events of one kind in a list of events. *)
Definition of_kind (k : Kind) (events : list Event) : list Event :=
  List.filter (fun e => bool_decide (kind e = k)) events.

(** [st'] is [st] after more external operations, all of allowed kinds. *)
Definition grows (allowed : Kind -> bool) (st st' : State) : Prop :=
  exists events,
    trace st' = trace st ++ events
    /\ forallb (fun e => allowed (kind e)) events = true.

(** The cache tiers hold the same entries. *)
Definition same_stores (st st' : State) : Prop :=
  redis_client st' = redis_client st
  /\ redis_store st' = redis_store st
  /\ disk_cache st' = disk_cache st.

(** The model map is the same. *)
Definition same_models (st st' : State) : Prop :=
  model_cache st' = model_cache st.

(** Every run of [m] relates the state before to the state after. *)
Definition steps (R : relation State) {A : Type} (m : M A) : Prop :=
  forall st, R st (snd (m st)).

(** What a relation on states has to accept of the primitive changes. *)
Definition event_ok (R : relation State) (k : Kind) : Prop :=
  forall e st, kind e = k -> R st (record_event e st).

Definition models_ok (R : relation State) : Prop :=
  forall f st, R st (set_model_cache f st).

Definition stores_ok (R : relation State) : Prop :=
  (forall f st, R st (set_redis_store f st))
  /\ (forall f st, R st (set_disk_cache f st)).

(** The kinds a cache hit may issue, and the kinds forced offline mode may. *)
Definition no_backend (k : Kind) : bool :=
  bool_decide (k = Clock \/ k = Detector \/ k = CacheTier).

Definition not_online (k : Kind) : bool :=
  negb (bool_decide (k = OnlineService \/ k = Pause)).

Definition not_detector (k : Kind) : bool := negb (bool_decide (k = Detector)).

Definition not_load (k : Kind) : bool := negb (bool_decide (k = ModelLoad)).

End Effects.

(** * Properties *)

Import ModelCache AITranslator Spec.

(** ** The Python helpers on small inputs *)

Example lit_auto : lit "auto" = [97; 117; 116; 111]%N.
Proof. reflexivity. Qed.

Example strip_example : strip (lit "  Hi ") = lit "Hi".
Proof. reflexivity. Qed.

Example split_example : split (lit " a  bc d ") = [lit "a"; lit "bc"; lit "d"].
Proof. reflexivity. Qed.

Example join_example : join (lit " ") [lit "a"; lit "bc"] = lit "a bc".
Proof. reflexivity. Qed.

Example chunks_example :
  chunks 4 (lit "abcdefghij") = [lit "abcd"; lit "efgh"; lit "ij"].
Proof. reflexivity. Qed.

Example str_of_int_example : str_of_int (-42) = lit "-42".
Proof. reflexivity. Qed.

Lemma truthy_str_nonempty (s : str) : s ≠ [] -> truthy_str s = true.
Proof. destruct s; [congruence|reflexivity]. Qed.

Lemma truthy_dict_lookup (d : dict) (field : string) (v : value) :
  d !! field = Some v -> truthy_dict d = true.
Proof.
  intros H. unfold truthy_dict. apply negb_true_iff, bool_decide_eq_false.
  intros ->. rewrite lookup_empty in H. discriminate H.
Qed.

(** ** Running the monad *)

Lemma run_bind {A B : Type} (m : M A) (k : A -> M B) (st : State) :
  (m ≫= k) st = k (fst (m st)) (snd (m st)).
Proof. reflexivity. Qed.

Lemma run_eq {A : Type} (x : A * State) (a : A) : fst x = a -> x = (a, snd x).
Proof. intros <-. destruct x; reflexivity. Qed.

Lemma run_time_time (W : World) (st : State) :
  time_time W st = (clock W (tick st), record_event EvTime st).
Proof. reflexivity. Qed.

Example smart_translate_demo :
  fields_of <$> fst (AITranslator.smart_translate Demo.demo_world
                       (lit "Hello") (lit "en") (lit "es") Demo.fresh)
  = Some [ ("translation", VStr (lit "Hola"));
           ("source_lang", VStr (lit "en"));
           ("method", VStr (lit "AI Model (Marian)"));
           ("time", VFloat 0%float);
           ("confidence", VFloat 0.95%float);
           ("cached", VBool false) ].
Proof. vm_compute. reflexivity. Qed.

(** ** Input validation *)

(** C7. For every text and every language code [L] other than ["auto"],
    [validate_input(text, L, L)] returns a list of errors that is not empty
    (it holds the same-language error), and [validate_input(text, "auto", L)]
    returns a list without the same-language error. *)
Theorem validate_input_same_language (text L : str) :
  L ≠ lit "auto" ->
  (exists errors,
      validate_input (Some text) L L = Returns errors
      /\ errors ≠ [] /\ same_language_error ∈ errors)
  /\ (exists errors,
         validate_input (Some text) (lit "auto") L = Returns errors
         /\ same_language_error ∉ errors).
Proof.
  intros HL. split.
  - unfold validate_input.
    rewrite (bool_decide_eq_true_2 (L = L) eq_refl).
    rewrite (bool_decide_eq_false_2 (L = lit "auto") HL). cbn [andb negb].
    eexists. split; [reflexivity|]. split.
    + intros H. apply (f_equal (@length _)) in H.
      rewrite length_app in H. cbn in H. lia.
    + apply elem_of_app. right. apply list_elem_of_singleton. reflexivity.
  - unfold validate_input.
    rewrite (bool_decide_eq_true_2 (lit "auto" = lit "auto") eq_refl).
    rewrite andb_false_r.
    eexists. split; [reflexivity|].
    intros H.
    destruct (negb (truthy_str text) || negb (truthy_str (strip text)));
      destruct (10000 <? len text); cbn in H;
      repeat (apply elem_of_cons in H as [H|H]; [discriminate H|]);
      inversion H.
Qed.

Lemma validate_input_same_language_witness :
  lit "en" ≠ lit "auto"
  /\ (exists errors,
        validate_input (Some (lit "Hello")) (lit "en") (lit "en") = Returns errors
        /\ errors ≠ [] /\ same_language_error ∈ errors)
  /\ (exists errors,
        validate_input (Some (lit "Hello")) (lit "auto") (lit "en") = Returns errors
        /\ same_language_error ∉ errors).
Proof.
  split; [discriminate|].
  apply (validate_input_same_language (lit "Hello") (lit "en")). discriminate.
Defined.

(** C10. [validate_input] is total on strings only: with [text = None] it
    raises [TypeError] (the length test runs although the emptiness test has
    already recorded an error), and with a string it returns a list of
    errors, which may be empty. *)
Theorem validate_input_total_on_strings :
  (forall source_lang target_lang,
      validate_input None source_lang target_lang = Raises TypeError)
  /\ (forall text source_lang target_lang,
         exists errors, validate_input (Some text) source_lang target_lang = Returns errors)
  /\ validate_input (Some (lit "Hello world")) (lit "en") (lit "es") = Returns [].
Proof.
  split; [reflexivity|]. split; [|reflexivity].
  intros text s t. unfold validate_input. eexists. reflexivity.
Qed.

(** ** Language detection *)

(** C8. For every string whose trimmed length is below 3 (the empty string
    included), [detect_language] returns [("en", 0.3)] and leaves the state
    as it found it: no external operation is issued, so the statistical
    detector is not invoked. *)
Theorem detect_language_short (W : World) (text : str) (st : State) :
  len (strip text) < 3 ->
  detect_language W text st = ((lit "en", 0.3%float), st)
  /\ trace (snd (detect_language W text st)) = trace st.
Proof.
  intros Hshort.
  assert (H : detect_language W text st = ((lit "en", 0.3%float), st)).
  { unfold detect_language.
    apply Z.ltb_lt in Hshort. rewrite Hshort, orb_true_r. reflexivity. }
  split; [exact H|]. rewrite H. reflexivity.
Qed.

Lemma detect_language_short_witness :
  len (strip (lit " Hi  ")) < 3
  /\ detect_language Demo.demo_world (lit " Hi  ") Demo.fresh
     = ((lit "en", 0.3%float), Demo.fresh)
  /\ trace (snd (detect_language Demo.demo_world (lit " Hi  ") Demo.fresh))
     = trace Demo.fresh.
Proof.
  split; [reflexivity|].
  apply (detect_language_short Demo.demo_world (lit " Hi  ") Demo.fresh).
  reflexivity.
Defined.

(** The empty string is such an input. *)
Example detect_language_empty (W : World) (st : State) :
  detect_language W [] st = ((lit "en", 0.3%float), st).
Proof. reflexivity. Qed.

(** A longer text does reach the detector. *)
Example detect_language_long :
  detect_language Demo.demo_world (lit "Hello world, how are you?") Demo.fresh
  = ((lit "en", 0.95%float),
     record_event (EvDetect (lit "Hello world how are you")) Demo.fresh).
Proof. vm_compute. reflexivity. Qed.

(** ** Cache keys *)



(** ** What the three backends hand back *)

Section Backends.
Context (W : World).

Lemma translate_with_ai_returns text source_lang target_lang st :
  fst (translate_with_ai W text source_lang target_lang st) = (None, None)
  \/ exists result,
       fst (translate_with_ai W text source_lang target_lang st)
       = (Some result, Some ai_method_name).
Proof.
  unfold translate_with_ai.
  destruct (negb (truthy_str (strip text))); [left; reflexivity|].
  rewrite run_bind.
  destruct (fst (load_ai_model _ _ _)) as [h|]; [|left; reflexivity].
  rewrite run_bind.
  match goal with |- context [match fst ?x with _ => _ end] => destruct (fst x) end.
  - right. eexists. reflexivity.
  - left. reflexivity.
Qed.

Lemma google_attempts_returns attempts text source_lang target_lang st :
  fst (google_attempts W attempts text source_lang target_lang st) = (None, None, None)
  \/ exists result detected,
       fst (google_attempts W attempts text source_lang target_lang st)
       = (result, Some detected, Some google_method_name).
Proof.
  revert source_lang st.
  induction attempts as [|attempt rest IH]; intros source_lang st.
  - left. reflexivity.
  - cbn [google_attempts]. rewrite !run_bind.
    match goal with |- context [fst (google_request W ?a ?b ?c ?s)] =>
      destruct (fst (google_request W a b c s)) end.
    + right. eexists _, _. reflexivity.
    + destruct (attempt <? max_retries - 1)%nat.
      * rewrite run_bind. apply IH.
      * left. reflexivity.
Qed.

Lemma translate_with_google_returns text source_lang target_lang st :
  fst (translate_with_google W text source_lang target_lang st) = (None, None, None)
  \/ exists result detected,
       fst (translate_with_google W text source_lang target_lang st)
       = (result, Some detected, Some google_method_name).
Proof. apply google_attempts_returns. Qed.

Lemma translate_with_mymemory_returns text source_lang target_lang st :
  fst (translate_with_mymemory W text source_lang target_lang st) = (None, None)
  \/ exists result,
       fst (translate_with_mymemory W text source_lang target_lang st)
       = (result, Some mymemory_method_name).
Proof.
  unfold translate_with_mymemory. rewrite run_bind.
  match goal with |- context [match fst ?x with _ => _ end] => destruct (fst x) end.
  - right. eexists. reflexivity.
  - left. reflexivity.
Qed.

Lemma resolve_source_given text source_lang st :
  source_lang ≠ lit "auto" ->
  resolve_source W text source_lang st = (source_lang, st).
Proof.
  intros Hne. unfold resolve_source.
  rewrite (bool_decide_eq_false_2 _ Hne). reflexivity.
Qed.

End Backends.

(** ** The dispatcher of [AITranslator] *)

Section Dispatcher.
Context (W : World).

(** Either the probe hits and the stored dictionary is returned, or the
    backend chain runs from the state the probe left. *)
Lemma smart_translate_cases text source_lang target_lang st :
  let start_time := fst (time_time W st) in
  let resolved := resolve_source W text source_lang (snd (time_time W st)) in
  let probe := get_cached_translation W text (fst resolved) target_lang (snd resolved) in
  (exists cached, fst probe = Some cached /\ truthy_dict cached = true
     /\ smart_translate W text source_lang target_lang st
        = return_cached W cached start_time (snd probe))
  \/ (truthy_opt_dict (fst probe) = false
      /\ smart_translate W text source_lang target_lang st
         = backend_chain W text (fst resolved) target_lang start_time (snd probe)).
Proof.
  cbv zeta. unfold smart_translate. rewrite !run_bind.
  destruct (fst (get_cached_translation _ _ _ _ _)) as [cached|] eqn:Hprobe.
  - destruct (truthy_dict cached) eqn:Ht.
    + left. exists cached. repeat split; try reflexivity; assumption.
    + right. cbn. rewrite Ht. split; reflexivity.
  - right. split; reflexivity.
Qed.

Lemma smart_translate_miss text source_lang target_lang st :
  let start_time := fst (time_time W st) in
  let resolved := resolve_source W text source_lang (snd (time_time W st)) in
  let probe := get_cached_translation W text (fst resolved) target_lang (snd resolved) in
  truthy_opt_dict (fst probe) = false ->
  smart_translate W text source_lang target_lang st
  = backend_chain W text (fst resolved) target_lang start_time (snd probe).
Proof.
  cbv zeta. intros Hmiss.
  destruct (smart_translate_cases text source_lang target_lang st)
    as [(cached & Hsome & Ht & _)|[_ Heq]]; [|exact Heq].
  rewrite Hsome in Hmiss. cbn in Hmiss. congruence.
Qed.

Lemma return_cached_flag cached start_time st result st' :
  return_cached W cached start_time st = (Some result, st') ->
  result !! "cached" = Some (VBool true).
Proof.
  unfold return_cached. rewrite run_bind. intros H. inversion H; subst.
  apply lookup_insert_eq.
Qed.

Lemma truthy_opt_some (o : option str) :
  truthy_opt o = true -> exists s, o = Some s /\ truthy_str s = true.
Proof.
  destruct o as [s|]; [|discriminate].
  intros H. exists s. split; [reflexivity|exact H].
Qed.

(** Whatever the backend chain returns carries a translation that is not
    the empty string. *)
Lemma backend_chain_translation_nonempty text source_lang target_lang start_time st result st' :
  backend_chain W text source_lang target_lang start_time st = (Some result, st') ->
  exists s, result !! "translation" = Some (VStr s) /\ truthy_str s = true.
Proof.
  unfold backend_chain. rewrite run_bind.
  match goal with |- context [fst (translate_with_ai W ?a ?b ?c ?s)] =>
    destruct (fst (translate_with_ai W a b c s)) as [ai_result ai_method] end.
  destruct (truthy_opt ai_result) eqn:Ha.
  { apply truthy_opt_some in Ha as (s & -> & Hs).
    rewrite !run_bind. intros H. inversion H; subst.
    exists s. split; [reflexivity|exact Hs]. }
  rewrite run_bind.
  match goal with |- context [fst (translate_with_google W ?a ?b ?c ?s)] =>
    destruct (fst (translate_with_google W a b c s))
      as [[google_result detected] google_method] end.
  destruct (truthy_opt google_result) eqn:Hg.
  { apply truthy_opt_some in Hg as (s & -> & Hs).
    rewrite !run_bind. intros H. inversion H; subst.
    exists s. split; [reflexivity|exact Hs]. }
  rewrite run_bind.
  match goal with |- context [fst (translate_with_mymemory W ?a ?b ?c ?s)] =>
    destruct (fst (translate_with_mymemory W a b c s))
      as [mymemory_result mymemory_method] end.
  destruct (truthy_opt mymemory_result) eqn:Hm.
  { apply truthy_opt_some in Hm as (s & -> & Hs).
    rewrite !run_bind. intros H. inversion H; subst.
    exists s. split; [reflexivity|exact Hs]. }
  discriminate.
Qed.

(** C1. When the cache probe misses and the AI model, Google and MyMemory
    each yield nothing usable ([None] or the empty string), [smart_translate]
    returns [None], not a dictionary with an empty translation.  An empty
    string from a backend is not usable: after an empty answer of the AI
    model the Google result is the one returned (confidence 0.90), and after
    an empty answer of Google the MyMemory result is (confidence 0.80).  On
    a miss, a dictionary that is returned never carries an empty
    translation. *)
Theorem smart_translate_total_failure text source_lang target_lang st :
  let start_time := fst (time_time W st) in
  let resolved := resolve_source W text source_lang (snd (time_time W st)) in
  let src := fst resolved in
  let probe := get_cached_translation W text src target_lang (snd resolved) in
  let ai := translate_with_ai W text src target_lang (snd probe) in
  let google := translate_with_google W text src target_lang (snd ai) in
  let mymemory := translate_with_mymemory W text src target_lang (snd google) in
  let ai_result := fst (fst ai) in
  let google_result := fst (fst (fst google)) in
  let mymemory_result := fst (fst mymemory) in
  let returned := fst (smart_translate W text source_lang target_lang st) in
  truthy_opt_dict (fst probe) = false ->
  (truthy_opt ai_result = false -> truthy_opt google_result = false ->
   truthy_opt mymemory_result = false ->
   returned = None)
  /\ (ai_result = Some [] -> truthy_opt google_result = true ->
      exists result, returned = Some result
        /\ result !! "translation" = Some (of_opt google_result)
        /\ result !! "confidence" = Some (VFloat 0.90%float))
  /\ (truthy_opt ai_result = false -> google_result = Some [] ->
      truthy_opt mymemory_result = true ->
      exists result, returned = Some result
        /\ result !! "translation" = Some (of_opt mymemory_result)
        /\ result !! "confidence" = Some (VFloat 0.80%float))
  /\ (forall result, returned = Some result ->
      exists s, result !! "translation" = Some (VStr s) /\ truthy_str s = true).
Proof.
  cbv zeta. intros Hmiss.
  rewrite (smart_translate_miss _ _ _ _ Hmiss).
  assert (Hnonempty : forall result,
    fst (backend_chain W text
           (fst (resolve_source W text source_lang (snd (time_time W st)))) target_lang
           (fst (time_time W st))
           (snd (get_cached_translation W text
                   (fst (resolve_source W text source_lang (snd (time_time W st))))
                   target_lang
                   (snd (resolve_source W text source_lang (snd (time_time W st)))))))
    = Some result ->
    exists s, result !! "translation" = Some (VStr s) /\ truthy_str s = true).
  { intros result Hreturned. apply run_eq in Hreturned.
    eapply backend_chain_translation_nonempty. exact Hreturned. }
  revert Hnonempty.
  unfold backend_chain. rewrite run_bind.
  destruct (translate_with_ai _ _ _ _ _) as [[ai_result ai_method] st3].
  cbn [fst snd].
  destruct (translate_with_google _ _ _ _ _)
    as [[[google_result detected] google_method] st4] eqn:Hgoogle.
  cbn [fst snd].
  destruct (translate_with_mymemory _ _ _ _ _)
    as [[mymemory_result mymemory_method] st5] eqn:Hmymemory.
  cbn [fst snd].
  intros Hnonempty.
  split; [|split; [|split; [|exact Hnonempty]]].
  - intros Ha Hg Hm. rewrite Ha, run_bind, Hgoogle. cbn [fst snd].
    rewrite Hg, run_bind, Hmymemory. cbn [fst snd]. rewrite Hm. reflexivity.
  - intros -> Hg. cbn [truthy_opt truthy_str]. rewrite run_bind, Hgoogle.
    cbn [fst snd]. rewrite Hg, !run_bind. cbn [fst snd].
    eexists. split; [reflexivity|]. split; reflexivity.
  - intros Ha -> Hm. rewrite Ha, run_bind, Hgoogle. cbn [fst snd truthy_opt truthy_str].
    rewrite run_bind, Hmymemory. cbn [fst snd]. rewrite Hm, !run_bind. cbn [fst snd].
    eexists. split; [reflexivity|]. split; reflexivity.
Qed.

End Dispatcher.

(** With no model and two web services that answer with the empty string,
    nothing is cached and nothing is returned. *)
Lemma smart_translate_total_failure_witness :
  truthy_opt_dict
    (fst (get_cached_translation Demo.silent_world (lit "Hello") (lit "en") (lit "es")
            (record_event EvTime Demo.fresh))) = false
  /\ fst (smart_translate Demo.silent_world (lit "Hello") (lit "en") (lit "es") Demo.fresh)
     = None.
Proof.
  assert (Hmiss : truthy_opt_dict
    (fst (get_cached_translation Demo.silent_world (lit "Hello") (lit "en") (lit "es")
            (record_event EvTime Demo.fresh))) = false) by (vm_compute; reflexivity).
  split; [exact Hmiss|].
  pose proof (smart_translate_total_failure Demo.silent_world
                (lit "Hello") (lit "en") (lit "es") Demo.fresh) as H.
  cbv zeta in H.
  destruct (H Hmiss) as [Hnone _].
  apply Hnone; vm_compute; reflexivity.
Defined.

(** The empty answer of Google is passed over and MyMemory serves. *)
Example smart_translate_skips_empty :
  fields_of <$> fst (smart_translate Demo.mymemory_world
                       (lit "Hello") (lit "en") (lit "es") Demo.fresh)
  = Some [ ("translation", VStr (lit "Hola"));
           ("source_lang", VStr (lit "en"));
           ("method", VStr (lit "MyMemory"));
           ("time", VFloat 0%float);
           ("confidence", VFloat 0.80%float);
           ("cached", VBool false) ].
Proof. vm_compute. reflexivity. Qed.

(** ** Confidence is a constant of the path taken *)

Section Confidence.
Context (W : World).

Lemma backend_chain_confidence text source_lang target_lang start_time st result st' :
  backend_chain W text source_lang target_lang start_time st = (Some result, st') ->
  produced_by ai_method_name 0.95%float result
  \/ produced_by google_method_name 0.90%float result
  \/ produced_by mymemory_method_name 0.80%float result.
Proof.
  unfold backend_chain. rewrite run_bind.
  destruct (translate_with_ai_returns W text source_lang target_lang st)
    as [Hai|[ai_result Hai]]; rewrite Hai; cbn [truthy_opt].
  2: destruct (truthy_str ai_result).
  2: { rewrite !run_bind. intros H. inversion H; subst. left.
       repeat split; reflexivity. }
  all: rewrite run_bind;
    match goal with |- context [fst (translate_with_google W ?a ?b ?c ?s)] =>
      destruct (translate_with_google_returns W a b c s)
        as [Hg|(google_result & detected & Hg)]; rewrite Hg; cbn [truthy_opt]
    end.
  all: try destruct (truthy_opt google_result).
  all: try (rewrite !run_bind; intros H; inversion H; subst; right; left;
            repeat split; reflexivity).
  all: rewrite run_bind;
    match goal with |- context [fst (translate_with_mymemory W ?a ?b ?c ?s)] =>
      destruct (translate_with_mymemory_returns W a b c s)
        as [Hm|(mymemory_result & Hm)]; rewrite Hm; cbn [truthy_opt]
    end.
  all: try destruct (truthy_opt mymemory_result).
  all: try (rewrite !run_bind; intros H; inversion H; subst; right; right;
            repeat split; reflexivity).
  all: intros H; discriminate H.
Qed.

Lemma smart_translate_confidence text source_lang target_lang st result st' :
  smart_translate W text source_lang target_lang st = (Some result, st') ->
  result !! "cached" = Some (VBool false) ->
  produced_by ai_method_name 0.95%float result
  \/ produced_by google_method_name 0.90%float result
  \/ produced_by mymemory_method_name 0.80%float result.
Proof.
  intros Hrun Hfresh.
  destruct (smart_translate_cases W text source_lang target_lang st)
    as [(cached & _ & _ & Heq)|[_ Heq]]; rewrite Heq in Hrun.
  - apply return_cached_flag in Hrun. rewrite Hrun in Hfresh. discriminate Hfresh.
  - eapply backend_chain_confidence; eassumption.
Qed.

(** Which backend the result of the chain comes from: the first of the
    three, in their order, whose answer is usable. *)
Lemma backend_chain_paths text source_lang target_lang start_time st :
  let ai := translate_with_ai W text source_lang target_lang st in
  let google := translate_with_google W text source_lang target_lang (snd ai) in
  let mymemory := translate_with_mymemory W text source_lang target_lang (snd google) in
  let ai_result := fst (fst ai) in
  let google_result := fst (fst (fst google)) in
  let mymemory_result := fst (fst mymemory) in
  let returned := fst (backend_chain W text source_lang target_lang start_time st) in
  (truthy_opt ai_result = true ->
   exists result, returned = Some result
     /\ result_of ai_result ai_method_name 0.95%float result)
  /\ (truthy_opt ai_result = false -> truthy_opt google_result = true ->
      exists result, returned = Some result
        /\ result_of google_result google_method_name 0.90%float result)
  /\ (truthy_opt ai_result = false -> truthy_opt google_result = false ->
      truthy_opt mymemory_result = true ->
      exists result, returned = Some result
        /\ result_of mymemory_result mymemory_method_name 0.80%float result).
Proof.
  cbv zeta. unfold backend_chain. rewrite run_bind.
  pose proof (translate_with_ai_returns W text source_lang target_lang st) as Hai.
  destruct (translate_with_ai W text source_lang target_lang st)
    as [[ai_result ai_method] st1].
  cbn [fst snd] in *.
  pose proof (translate_with_google_returns W text source_lang target_lang st1) as Hgoogle.
  destruct (translate_with_google W text source_lang target_lang st1)
    as [[[google_result detected] google_method] st2] eqn:Egoogle.
  cbn [fst snd] in *.
  pose proof (translate_with_mymemory_returns W text source_lang target_lang st2)
    as Hmymemory.
  destruct (translate_with_mymemory W text source_lang target_lang st2)
    as [[mymemory_result mymemory_method] st3] eqn:Emymemory.
  cbn [fst snd] in *.
  split; [|split].
  - intros Ha. rewrite Ha, !run_bind. cbn [fst snd mret M_ret].
    destruct Hai as [Hai|[r Hai]]; inversion Hai; subst; [discriminate Ha|].
    eexists. split; [reflexivity|]. repeat split; reflexivity.
  - intros Ha Hg. rewrite Ha, run_bind, Egoogle. cbn [fst snd].
    rewrite Hg, !run_bind. cbn [fst snd mret M_ret].
    destruct Hgoogle as [Hgoogle|(r & d & Hgoogle)]; inversion Hgoogle; subst;
      [discriminate Hg|].
    eexists. split; [reflexivity|]. repeat split; reflexivity.
  - intros Ha Hg Hm. rewrite Ha, run_bind, Egoogle. cbn [fst snd].
    rewrite Hg, run_bind, Emymemory. cbn [fst snd].
    rewrite Hm, !run_bind. cbn [fst snd mret M_ret].
    destruct Hmymemory as [Hmymemory|(r & Hmymemory)]; inversion Hmymemory; subst;
      [discriminate Hm|].
    eexists. split; [reflexivity|]. repeat split; reflexivity.
Qed.

End Confidence.

Section OfflineConfidence.
Import OfflineTranslator.
Context (W : World) (self : Config).

Lemma pivot_returns text source_lang target_lang st result st' :
  _translate_via_english_pivot W text source_lang target_lang st = (Some result, st') ->
  produced_by pivot_method_name 0.85%float result
  /\ result !! "pivot" = Some (VBool true).
Proof.
  unfold _translate_via_english_pivot. rewrite run_bind.
  destruct (is_offline_available source_lang (lit "en")); [|discriminate].
  rewrite run_bind.
  match goal with |- context [fst (translate_with_ai W ?a ?b ?c ?s)] =>
    destruct (fst (translate_with_ai W a b c s)) as [english_result method1] end.
  destruct english_result as [english|]; [|discriminate].
  destruct (negb (truthy_str english)); [discriminate|].
  destruct (is_offline_available (lit "en") target_lang); [|discriminate].
  rewrite run_bind.
  match goal with |- context [fst (translate_with_ai W ?a ?b ?c ?s)] =>
    destruct (fst (translate_with_ai W a b c s)) as [final_result method2] end.
  destruct (negb (truthy_opt final_result)); [discriminate|].
  rewrite !run_bind. intros H. inversion H; subst.
  repeat split; reflexivity.
Qed.

Lemma online_chain_confidence text source_lang target_lang start_time st result st' :
  online_chain W self text source_lang target_lang start_time st = (Some result, st') ->
  (produced_by offline_google_method_name 0.90%float result
   \/ produced_by offline_mymemory_method_name 0.80%float result)
  /\ result !! "pivot" = None.
Proof.
  unfold online_chain. rewrite run_bind.
  destruct (use_google_translate self).
  - rewrite run_bind.
    match goal with |- context [fst (translate_with_google W ?a ?b ?c ?s)] =>
      destruct (translate_with_google_returns W a b c s)
        as [Hg|(google_result & detected & Hg)]; rewrite Hg; cbn [truthy_opt]
    end.
    2: destruct (truthy_opt google_result).
    2: { rewrite !run_bind. cbn [fst snd]. intros H. inversion H; subst.
         split; [left; repeat split; reflexivity|reflexivity]. }
    all: cbn [fst snd mret M_ret]; destruct (use_mymemory self); [|discriminate].
    all: rewrite run_bind;
      match goal with |- context [fst (translate_with_mymemory W ?a ?b ?c ?s)] =>
        destruct (translate_with_mymemory_returns W a b c s)
          as [Hm|(mymemory_result & Hm)]; rewrite Hm; cbn [truthy_opt]
      end.
    all: try destruct (truthy_opt mymemory_result).
    all: try (rewrite !run_bind; intros H; inversion H; subst;
              split; [right; repeat split; reflexivity|reflexivity]).
    all: discriminate.
  - cbn [fst snd mret M_ret]. destruct (use_mymemory self); [|discriminate].
    rewrite run_bind;
      match goal with |- context [fst (translate_with_mymemory W ?a ?b ?c ?s)] =>
        destruct (translate_with_mymemory_returns W a b c s)
          as [Hm|(mymemory_result & Hm)]; rewrite Hm; cbn [truthy_opt]
      end.
    all: try destruct (truthy_opt mymemory_result).
    all: try (rewrite !run_bind; intros H; inversion H; subst;
              split; [right; repeat split; reflexivity|reflexivity]).
    all: discriminate.
Qed.

Lemma after_local_model_confidence text source_lang target_lang start_time st result st' :
  after_local_model W self text source_lang target_lang start_time st = (Some result, st') ->
  produced_by pivot_method_name 0.85%float result
  \/ produced_by fallback_method_name 0.1%float result
  \/ produced_by offline_google_method_name 0.90%float result
  \/ produced_by offline_mymemory_method_name 0.80%float result.
Proof.
  unfold after_local_model.
  destruct (offline_mode self).
  - rewrite run_bind.
    match goal with |- context [truthy_opt_dict (fst ?x)] =>
      destruct x as [[pivot|] st1] eqn:Hpivot end; cbn [fst snd truthy_opt_dict].
    + destruct (truthy_dict pivot).
      * intros H. inversion H; subst.
        destruct (negb _ && negb _); [|discriminate].
        left. eapply pivot_returns. eassumption.
      * unfold offline_fallback. rewrite run_bind. intros H. inversion H; subst.
        right. left. repeat split; reflexivity.
    + unfold offline_fallback. rewrite run_bind. intros H. inversion H; subst.
      right. left. repeat split; reflexivity.
  - intros H. apply online_chain_confidence in H. tauto.
Qed.

Lemma local_model_first_confidence text source_lang target_lang start_time st result st' :
  local_model_first W self text source_lang target_lang start_time st = (Some result, st') ->
  produced_by offline_ai_method_name 0.92%float result
  \/ produced_by pivot_method_name 0.85%float result
  \/ produced_by fallback_method_name 0.1%float result
  \/ produced_by offline_google_method_name 0.90%float result
  \/ produced_by offline_mymemory_method_name 0.80%float result.
Proof.
  unfold local_model_first.
  destruct (use_ai_models self && is_offline_available source_lang target_lang).
  - rewrite run_bind.
    destruct (translate_with_ai_returns W text source_lang target_lang st)
      as [Hai|[ai_result Hai]]; rewrite Hai; cbn [truthy_opt].
    2: destruct (truthy_str ai_result).
    2: { rewrite !run_bind. intros H. inversion H; subst. left.
         repeat split; reflexivity. }
    all: intros H; apply after_local_model_confidence in H; tauto.
  - intros H; apply after_local_model_confidence in H; tauto.
Qed.

Lemma offline_smart_translate_cases text source_lang target_lang st :
  let start_time := fst (time_time W st) in
  let resolved := resolve_source W text source_lang (snd (time_time W st)) in
  let probe := get_cached_translation W text (fst resolved) target_lang (snd resolved) in
  (exists cached, fst probe = Some cached /\ truthy_dict cached = true
     /\ OfflineTranslator.smart_translate W self text source_lang target_lang st
        = return_cached W cached start_time (snd probe))
  \/ (truthy_opt_dict (fst probe) = false
      /\ OfflineTranslator.smart_translate W self text source_lang target_lang st
         = local_model_first W self text (fst resolved) target_lang start_time (snd probe)).
Proof.
  cbv zeta. unfold OfflineTranslator.smart_translate. rewrite !run_bind.
  destruct (fst (get_cached_translation _ _ _ _ _)) as [cached|] eqn:Hprobe.
  - destruct (truthy_dict cached) eqn:Ht.
    + left. exists cached. repeat split; try reflexivity; assumption.
    + right. cbn. rewrite Ht. split; reflexivity.
  - right. split; reflexivity.
Qed.

(** The online tail: Google when it is switched on and answers, MyMemory
    when it is switched on and Google gave nothing usable. *)
Lemma online_chain_paths text source_lang target_lang start_time st :
  let google := translate_with_google W text source_lang target_lang st in
  let after_google := if use_google_translate self then snd google else st in
  let mymemory := translate_with_mymemory W text source_lang target_lang after_google in
  let google_result := fst (fst (fst google)) in
  let mymemory_result := fst (fst mymemory) in
  let returned := fst (online_chain W self text source_lang target_lang start_time st) in
  (use_google_translate self = true -> truthy_opt google_result = true ->
   exists result, returned = Some result
     /\ result_of google_result offline_google_method_name 0.90%float result)
  /\ ((use_google_translate self = true -> truthy_opt google_result = false) ->
      use_mymemory self = true -> truthy_opt mymemory_result = true ->
      exists result, returned = Some result
        /\ result_of mymemory_result offline_mymemory_method_name 0.80%float result).
Proof.
  cbv zeta. unfold online_chain. rewrite run_bind.
  pose proof (translate_with_google_returns W text source_lang target_lang st) as Hgoogle.
  destruct (use_google_translate self).
  - rewrite run_bind.
    destruct (translate_with_google W text source_lang target_lang st)
      as [[[google_result detected] google_method] st2].
    cbn [fst snd] in *.
    pose proof (translate_with_mymemory_returns W text source_lang target_lang st2)
      as Hmymemory.
    split.
    + intros _ Hg. rewrite Hg, !run_bind. cbn [fst snd mret M_ret].
      destruct Hgoogle as [Hgoogle|(r & d & Hgoogle)]; inversion Hgoogle; subst;
        [discriminate Hg|].
      eexists. split; [reflexivity|]. repeat split; reflexivity.
    + intros Hg Hswitch Hm. rewrite (Hg eq_refl). cbn [fst snd mret M_ret].
      rewrite Hswitch, run_bind.
      destruct (translate_with_mymemory W text source_lang target_lang st2)
        as [[mymemory_result mymemory_method] st3].
      cbn [fst snd] in *. rewrite Hm, !run_bind. cbn [fst snd mret M_ret].
      destruct Hmymemory as [Hmymemory|(r & Hmymemory)]; inversion Hmymemory; subst;
        [discriminate Hm|].
      eexists. split; [reflexivity|]. repeat split; reflexivity.
  - pose proof (translate_with_mymemory_returns W text source_lang target_lang st)
      as Hmymemory.
    split; [discriminate|].
    intros _ Hswitch Hm. cbn [fst snd mret M_ret]. rewrite Hswitch, run_bind.
    destruct (translate_with_mymemory W text source_lang target_lang st)
      as [[mymemory_result mymemory_method] st3].
    cbn [fst snd] in *. rewrite Hm, !run_bind. cbn [fst snd mret M_ret].
    destruct Hmymemory as [Hmymemory|(r & Hmymemory)]; inversion Hmymemory; subst;
      [discriminate Hm|].
    eexists. split; [reflexivity|]. repeat split; reflexivity.
Qed.

(** The forced-offline tail: the result of the English pivot when it is
    tried and gives one, the fallback otherwise. *)
Lemma offline_tail_paths text source_lang target_lang start_time st :
  let may_pivot :=
    negb (bool_decide (source_lang = lit "en"))
    && negb (bool_decide (target_lang = lit "en")) in
  let pivot := _translate_via_english_pivot W text source_lang target_lang st in
  let returned :=
    fst (after_local_model W self text source_lang target_lang start_time st) in
  offline_mode self = true ->
  (may_pivot = true -> forall result, fst pivot = Some result ->
   returned = Some result /\ produced_by pivot_method_name 0.85%float result)
  /\ ((may_pivot = true -> fst pivot = None) ->
      exists result, returned = Some result
        /\ result_of (Some text) fallback_method_name 0.1%float result).
Proof.
  cbv zeta. intros Hforced. unfold after_local_model. rewrite Hforced, run_bind.
  destruct (negb (bool_decide (source_lang = lit "en"))
            && negb (bool_decide (target_lang = lit "en"))).
  - split.
    + intros _ result Hresult.
      assert (Hpivot : produced_by pivot_method_name 0.85%float result).
      { eapply pivot_returns. apply run_eq. exact Hresult. }
      rewrite Hresult. cbn [truthy_opt_dict].
      rewrite (truthy_dict_lookup result "method" _ (proj1 Hpivot)).
      cbn [mret M_ret fst]. split; [reflexivity|exact Hpivot].
    + intros Hnone. rewrite (Hnone eq_refl). cbn [truthy_opt_dict].
      unfold offline_fallback. rewrite run_bind. cbn [mret M_ret fst].
      eexists. split; [reflexivity|]. repeat split; reflexivity.
  - split; [discriminate|].
    intros _. cbn [mret M_ret fst snd truthy_opt_dict].
    unfold offline_fallback. rewrite run_bind. cbn [mret M_ret fst].
    eexists. split; [reflexivity|]. repeat split; reflexivity.
Qed.

(** [smart_translate] after a cache miss, path by path. *)
Lemma local_model_first_paths text source_lang target_lang start_time st :
  let has_model := use_ai_models self && is_offline_available source_lang target_lang in
  let direct := translate_with_ai W text source_lang target_lang st in
  let direct_result := fst (fst direct) in
  let after_direct := if has_model then snd direct else st in
  let may_pivot :=
    negb (bool_decide (source_lang = lit "en"))
    && negb (bool_decide (target_lang = lit "en")) in
  let pivot := _translate_via_english_pivot W text source_lang target_lang after_direct in
  let google := translate_with_google W text source_lang target_lang after_direct in
  let after_google := if use_google_translate self then snd google else after_direct in
  let mymemory := translate_with_mymemory W text source_lang target_lang after_google in
  let google_result := fst (fst (fst google)) in
  let mymemory_result := fst (fst mymemory) in
  let returned :=
    fst (local_model_first W self text source_lang target_lang start_time st) in
  (has_model = true -> truthy_opt direct_result = true ->
   exists result, returned = Some result
     /\ result_of direct_result offline_ai_method_name 0.92%float result)
  /\ ((has_model = true -> truthy_opt direct_result = false) ->
      (offline_mode self = true ->
       (may_pivot = true -> forall result, fst pivot = Some result ->
        returned = Some result /\ produced_by pivot_method_name 0.85%float result)
       /\ ((may_pivot = true -> fst pivot = None) ->
           exists result, returned = Some result
             /\ result_of (Some text) fallback_method_name 0.1%float result))
      /\ (offline_mode self = false ->
          (use_google_translate self = true -> truthy_opt google_result = true ->
           exists result, returned = Some result
             /\ result_of google_result offline_google_method_name 0.90%float result)
          /\ ((use_google_translate self = true -> truthy_opt google_result = false) ->
              use_mymemory self = true -> truthy_opt mymemory_result = true ->
              exists result, returned = Some result
                /\ result_of mymemory_result offline_mymemory_method_name
                     0.80%float result))).
Proof.
  cbv zeta. unfold local_model_first.
  assert (Hafter : forall st1,
    (offline_mode self = true ->
     (negb (bool_decide (source_lang = lit "en"))
      && negb (bool_decide (target_lang = lit "en")) = true ->
      forall result,
        fst (_translate_via_english_pivot W text source_lang target_lang st1) = Some result ->
        fst (after_local_model W self text source_lang target_lang start_time st1)
        = Some result
        /\ produced_by pivot_method_name 0.85%float result)
     /\ ((negb (bool_decide (source_lang = lit "en"))
          && negb (bool_decide (target_lang = lit "en")) = true ->
          fst (_translate_via_english_pivot W text source_lang target_lang st1) = None) ->
         exists result,
           fst (after_local_model W self text source_lang target_lang start_time st1)
           = Some result
           /\ result_of (Some text) fallback_method_name 0.1%float result))
    /\ (offline_mode self = false ->
        (use_google_translate self = true ->
         truthy_opt (fst (fst (fst (translate_with_google W text source_lang target_lang
                                      st1)))) = true ->
         exists result,
           fst (after_local_model W self text source_lang target_lang start_time st1)
           = Some result
           /\ result_of (fst (fst (fst (translate_with_google W text source_lang
                                          target_lang st1))))
                offline_google_method_name 0.90%float result)
        /\ ((use_google_translate self = true ->
             truthy_opt (fst (fst (fst (translate_with_google W text source_lang
                                          target_lang st1)))) = false) ->
            use_mymemory self = true ->
            truthy_opt
              (fst (fst (translate_with_mymemory W text source_lang target_lang
                           (if use_google_translate self
                            then snd (translate_with_google W text source_lang
                                        target_lang st1)
                            else st1)))) = true ->
            exists result,
              fst (after_local_model W self text source_lang target_lang start_time st1)
              = Some result
              /\ result_of
                   (fst (fst (translate_with_mymemory W text source_lang target_lang
                                (if use_google_translate self
                                 then snd (translate_with_google W text source_lang
                                             target_lang st1)
                                 else st1))))
                   offline_mymemory_method_name 0.80%float result))).
  { intros st1. split.
    - intros Hforced.
      apply (offline_tail_paths text source_lang target_lang start_time st1 Hforced).
    - intros Honline.
      pose proof (online_chain_paths text source_lang target_lang start_time st1) as H.
      cbv zeta in H. unfold after_local_model. rewrite Honline. exact H. }
  destruct (use_ai_models self && is_offline_available source_lang target_lang).
  - rewrite run_bind.
    pose proof (translate_with_ai_returns W text source_lang target_lang st) as Hai.
    destruct (translate_with_ai W text source_lang target_lang st)
      as [[ai_result ai_method] st1].
    cbn [fst snd] in *. split.
    + intros _ Ha. rewrite Ha, !run_bind. cbn [fst snd mret M_ret].
      destruct Hai as [Hai|[r Hai]]; inversion Hai; subst; [discriminate Ha|].
      eexists. split; [reflexivity|]. repeat split; reflexivity.
    + intros Ha. rewrite (Ha eq_refl). apply Hafter.
  - split; [discriminate|]. intros _. apply Hafter.
Qed.

End OfflineConfidence.

(** C3, as amended. A successful result that was not read from the cache
    carries the answer of the backend that produced it, the method name of
    that backend and a confidence that is a constant of the path.  In
    [AITranslator.smart_translate], after a cache miss: the answer of the
    AI model with 0.95 when it is usable; otherwise the answer of Google
    with 0.90 when that is usable; otherwise the answer of MyMemory with
    0.80 when that is usable.  In [OfflineTranslator.smart_translate],
    after a cache miss: the answer of the AI model called directly (tried
    only when models are enabled and the pair has one) with 0.92, not 0.95;
    when that gives nothing, in forced offline mode the result of the
    English pivot with 0.85 or else the input text with 0.1, and with
    offline mode off the answer of Google (when switched on) with 0.90 or
    else the answer of MyMemory (when switched on) with 0.80.  No other
    pair of method and confidence occurs in a result that was not read
    from the cache. *)
Theorem confidence_fixed_per_path :
  (forall W text source_lang target_lang st result st',
      AITranslator.smart_translate W text source_lang target_lang st = (Some result, st') ->
      result !! "cached" = Some (VBool false) ->
      produced_by ai_method_name 0.95%float result
      \/ produced_by google_method_name 0.90%float result
      \/ produced_by mymemory_method_name 0.80%float result)
  /\ (forall W self text source_lang target_lang st result st',
      OfflineTranslator.smart_translate W self text source_lang target_lang st
      = (Some result, st') ->
      result !! "cached" = Some (VBool false) ->
      produced_by offline_ai_method_name 0.92%float result
      \/ produced_by pivot_method_name 0.85%float result
      \/ produced_by fallback_method_name 0.1%float result
      \/ produced_by offline_google_method_name 0.90%float result
      \/ produced_by offline_mymemory_method_name 0.80%float result)
  /\ (forall W text source_lang target_lang st,
      let resolved := resolve_source W text source_lang (snd (time_time W st)) in
      let src := fst resolved in
      let probe := get_cached_translation W text src target_lang (snd resolved) in
      let ai := translate_with_ai W text src target_lang (snd probe) in
      let google := translate_with_google W text src target_lang (snd ai) in
      let mymemory := translate_with_mymemory W text src target_lang (snd google) in
      let ai_result := fst (fst ai) in
      let google_result := fst (fst (fst google)) in
      let mymemory_result := fst (fst mymemory) in
      let returned := fst (AITranslator.smart_translate W text source_lang target_lang st) in
      truthy_opt_dict (fst probe) = false ->
      (truthy_opt ai_result = true ->
       exists result, returned = Some result
         /\ result_of ai_result ai_method_name 0.95%float result)
      /\ (truthy_opt ai_result = false -> truthy_opt google_result = true ->
          exists result, returned = Some result
            /\ result_of google_result google_method_name 0.90%float result)
      /\ (truthy_opt ai_result = false -> truthy_opt google_result = false ->
          truthy_opt mymemory_result = true ->
          exists result, returned = Some result
            /\ result_of mymemory_result mymemory_method_name 0.80%float result))
  /\ (forall W self text source_lang target_lang st,
      let resolved := resolve_source W text source_lang (snd (time_time W st)) in
      let src := fst resolved in
      let probe := get_cached_translation W text src target_lang (snd resolved) in
      let has_model :=
        OfflineTranslator.use_ai_models self
        && OfflineTranslator.is_offline_available src target_lang in
      let direct := translate_with_ai W text src target_lang (snd probe) in
      let direct_result := fst (fst direct) in
      let after_direct := if has_model then snd direct else snd probe in
      let may_pivot :=
        negb (bool_decide (src = lit "en")) && negb (bool_decide (target_lang = lit "en")) in
      let pivot :=
        OfflineTranslator._translate_via_english_pivot W text src target_lang after_direct in
      let google := translate_with_google W text src target_lang after_direct in
      let after_google :=
        if OfflineTranslator.use_google_translate self then snd google else after_direct in
      let mymemory := translate_with_mymemory W text src target_lang after_google in
      let google_result := fst (fst (fst google)) in
      let mymemory_result := fst (fst mymemory) in
      let returned :=
        fst (OfflineTranslator.smart_translate W self text source_lang target_lang st) in
      truthy_opt_dict (fst probe) = false ->
      (has_model = true -> truthy_opt direct_result = true ->
       exists result, returned = Some result
         /\ result_of direct_result offline_ai_method_name 0.92%float result)
      /\ ((has_model = true -> truthy_opt direct_result = false) ->
          (OfflineTranslator.offline_mode self = true ->
           (may_pivot = true -> forall result, fst pivot = Some result ->
            returned = Some result /\ produced_by pivot_method_name 0.85%float result)
           /\ ((may_pivot = true -> fst pivot = None) ->
               exists result, returned = Some result
                 /\ result_of (Some text) fallback_method_name 0.1%float result))
          /\ (OfflineTranslator.offline_mode self = false ->
              (OfflineTranslator.use_google_translate self = true ->
               truthy_opt google_result = true ->
               exists result, returned = Some result
                 /\ result_of google_result offline_google_method_name 0.90%float result)
              /\ ((OfflineTranslator.use_google_translate self = true ->
                   truthy_opt google_result = false) ->
                  OfflineTranslator.use_mymemory self = true ->
                  truthy_opt mymemory_result = true ->
                  exists result, returned = Some result
                    /\ result_of mymemory_result offline_mymemory_method_name
                         0.80%float result)))).
Proof.
  split; [|split; [|split]].
  - intros W. apply smart_translate_confidence.
  - intros W self text source_lang target_lang st result st' Hrun Hfresh.
    destruct (offline_smart_translate_cases W self text source_lang target_lang st)
      as [(cached & _ & _ & Heq)|[_ Heq]]; rewrite Heq in Hrun.
    + apply return_cached_flag in Hrun. rewrite Hrun in Hfresh. discriminate Hfresh.
    + eapply local_model_first_confidence; eassumption.
  - intros W text source_lang target_lang st. cbv zeta. intros Hmiss.
    rewrite (smart_translate_miss W _ _ _ _ Hmiss).
    apply backend_chain_paths.
  - intros W self text source_lang target_lang st. cbv zeta. intros Hmiss.
    destruct (offline_smart_translate_cases W self text source_lang target_lang st)
      as [(cached & Hsome & Htruthy & _)|[_ Heq]].
    { rewrite Hsome in Hmiss. cbn in Hmiss. congruence. }
    rewrite Heq. apply local_model_first_paths.
Qed.

(** ["Hello"] from English to Spanish: the local model answers ["Hola"] and
    the result carries it with 0.95. *)
Lemma confidence_fixed_per_path_witness :
  let run := AITranslator.smart_translate Demo.demo_world
               (lit "Hello") (lit "en") (lit "es") Demo.fresh in
  exists result,
    fst run = Some result
    /\ result_of (Some (lit "Hola")) ai_method_name 0.95%float result.
Proof.
  cbv zeta.
  destruct confidence_fixed_per_path as (_ & _ & Hpaths & _).
  specialize (Hpaths Demo.demo_world (lit "Hello") (lit "en") (lit "es") Demo.fresh).
  cbv zeta in Hpaths.
  destruct Hpaths as (Hai & _ & _); [vm_compute; reflexivity|].
  destruct Hai as (result & Hreturned & Hresult); [vm_compute; reflexivity|].
  exists result. split; [exact Hreturned|].
  destruct Hresult as [Htranslation Hproduced]. split; [|exact Hproduced].
  rewrite Htranslation. vm_compute. reflexivity.
Defined.

(** C3 as the specification states it fails for the offline variant: with
    the default switches, ["Hello"] from ["en"] to ["es"] is translated by the local
    model, and the result carries 0.92, which is not 0.95. *)
Lemma offline_local_model_confidence :
  let run := OfflineTranslator.smart_translate Demo.demo_world Demo.online
               (lit "Hello") (lit "en") (lit "es") Demo.fresh in
  generate_calls (trace (snd run)) = [(lit "Helsinki-NLP/opus-mt-en-es", lit "Hello")]
  /\ fields_of <$> fst run
     = Some [ ("translation", VStr (lit "Hola"));
              ("source_lang", VStr (lit "en"));
              ("method", VStr (lit "AI Model (Marian) (Offline)"));
              ("time", VFloat 0%float);
              ("confidence", VFloat 0.92%float);
              ("cached", VBool false);
              ("offline", VBool true) ]
  /\ PrimFloat.eqb 0.92 0.95 = false.
Proof. cbv zeta. repeat split; vm_compute; reflexivity. Qed.

(** ** A second call is served from the cache *)

Section SecondCall.
Context (W : World).

Lemma cache_translation_stores text source_lang target_lang result ttl st :
  tiers_never_fail W ->
  exists expires,
    stored_entry (snd (cache_translation W text source_lang target_lang result ttl st))
                 (translation_key W text source_lang target_lang)
    = Some (mkEntry result expires).
Proof.
  intros Hok. unfold cache_translation, stored_entry.
  rewrite !run_bind. cbn [get_state fst snd].
  destruct (redis_client st) eqn:Hclient.
  - rewrite !run_bind. unfold redis_setex. rewrite !run_bind.
    cbn [external fst snd]. rewrite (proj1 (Hok (tick st))).
    rewrite !run_bind. cbn. eexists. rewrite Hclient. apply lookup_insert_eq.
  - cbn [mret M_ret fst snd]. rewrite !run_bind. unfold disk_set.
    rewrite !run_bind. cbn [external fst snd]. rewrite (proj2 (Hok (tick st))).
    rewrite !run_bind. cbn. eexists. rewrite Hclient. apply lookup_insert_eq.
Qed.

Lemma probe_finds text source_lang target_lang st e :
  tiers_never_fail W ->
  stored_entry st (translation_key W text source_lang target_lang) = Some e ->
  live (clock W (tick st)) e = true ->
  truthy_dict (entry_value e) = true ->
  get_cached_translation W text source_lang target_lang st
  = (Some (entry_value e),
     record_event
       ((if redis_client st then EvRedisGet else EvDiskGet)
          (translation_key W text source_lang target_lang)) st).
Proof.
  intros Hok Hstored Hlive Htruthy.
  unfold get_cached_translation, stored_entry in *.
  rewrite !run_bind. cbn [get_state fst snd].
  destruct (redis_client st) eqn:Hclient.
  - rewrite !run_bind. unfold redis_get. rewrite !run_bind.
    cbn [external fst snd]. rewrite (proj1 (Hok (tick st))).
    rewrite !run_bind. cbn [get_state fst snd mret M_ret record_event redis_store].
    unfold read_store. rewrite Hstored, Hlive. reflexivity.
  - cbn [mret M_ret fst snd]. rewrite !run_bind. unfold disk_get.
    rewrite !run_bind. cbn [external fst snd]. rewrite (proj2 (Hok (tick st))).
    rewrite !run_bind. cbn [get_state fst snd mret M_ret record_event disk_cache].
    unfold read_store. rewrite Hstored, Hlive, Htruthy. reflexivity.
Qed.

(** A result of the backend chain has just been written to the cache. *)
Lemma backend_chain_writes text source_lang target_lang start_time st result st' :
  backend_chain W text source_lang target_lang start_time st = (Some result, st') ->
  exists st_mid,
    st' = snd (cache_translation W text source_lang target_lang result default_ttl st_mid).
Proof.
  unfold backend_chain. rewrite run_bind.
  match goal with |- context [fst (translate_with_ai W ?a ?b ?c ?s)] =>
    destruct (fst (translate_with_ai W a b c s)) as [ai_result ai_method] end.
  destruct (truthy_opt ai_result).
  { rewrite !run_bind. intros H. inversion H; subst. eexists. reflexivity. }
  rewrite run_bind.
  match goal with |- context [fst (translate_with_google W ?a ?b ?c ?s)] =>
    destruct (fst (translate_with_google W a b c s))
      as [[google_result detected] google_method] end.
  destruct (truthy_opt google_result).
  { rewrite !run_bind. intros H. inversion H; subst. eexists. reflexivity. }
  rewrite run_bind.
  match goal with |- context [fst (translate_with_mymemory W ?a ?b ?c ?s)] =>
    destruct (fst (translate_with_mymemory W a b c s))
      as [mymemory_result mymemory_method] end.
  destruct (truthy_opt mymemory_result).
  { rewrite !run_bind. intros H. inversion H; subst. eexists. reflexivity. }
  discriminate.
Qed.

(** What [cache_translation] does, by the tier that takes the write. *)
Lemma cache_translation_run text source_lang target_lang result ttl st :
  let key := translation_key W text source_lang target_lang in
  let st0 := if redis_client st then record_event (EvRedisSetex key) st else st in
  cache_translation W text source_lang target_lang result ttl st
  = (tt,
     if redis_client st && negb (redis_raises W (tick st)) then
       set_redis_store (insert key (mkEntry result (add (clock W (tick st)) ttl)))
         (record_event (EvRedisSetex key) st)
     else if disk_raises W (tick st0) then record_event (EvDiskSet key) st0
     else set_disk_cache (insert key (mkEntry result (add (clock W (tick st0)) ttl)))
            (record_event (EvDiskSet key) st0)).
Proof.
  cbv zeta. unfold cache_translation. rewrite !run_bind. cbn [get_state fst snd].
  destruct (redis_client st) eqn:Hclient; cbn [andb].
  - rewrite !run_bind. unfold redis_setex. rewrite !run_bind. cbn [external fst snd].
    destruct (redis_raises W (tick st)); cbn [negb].
    + unfold disk_set. cbn [mret M_ret fst snd].
      change (bool_decide (is_Some (@None unit))) with false. cbv iota.
      rewrite !run_bind. cbn [external fst snd].
      destruct (disk_raises W _); reflexivity.
    + reflexivity.
  - cbn [mret M_ret fst snd]. unfold disk_set. rewrite !run_bind. cbn [external fst snd].
    destruct (disk_raises W _); reflexivity.
Qed.

(** The write with which a call ends, by the tier that took it. *)
Lemma write_outcome text source_lang target_lang result ttl st :
  let key := translation_key W text source_lang target_lang in
  let st1 := snd (cache_translation W text source_lang target_lang result ttl st) in
  let entry := mkEntry result (add (clock W (Nat.pred (tick st1))) ttl) in
  match written_to W st1 with
  | Some InRedis => redis_client st1 = true /\ redis_store st1 !! key = Some entry
  | Some OnDisk => disk_cache st1 !! key = Some entry
  | None => True
  end.
Proof.
  cbv zeta. rewrite cache_translation_run. cbn [snd]. unfold written_to.
  destruct (redis_client st) eqn:Hclient; cbn [andb].
  - destruct (redis_raises W (tick st)); cbn [negb].
    + destruct (disk_raises W (tick (record_event _ st))) eqn:Hdisk;
        cbn [trace tick record_event set_disk_cache Nat.pred disk_cache] in *;
        rewrite last_snoc, Hdisk; [exact I|].
      apply lookup_insert_eq.
    + cbn [trace tick record_event set_redis_store Nat.pred redis_store redis_client].
      rewrite last_snoc. split; [exact Hclient|apply lookup_insert_eq].
  - destruct (disk_raises W (tick st)) eqn:Hdisk;
      cbn [trace tick record_event set_disk_cache Nat.pred disk_cache] in *;
      rewrite last_snoc, Hdisk; [exact I|].
    apply lookup_insert_eq.
Qed.

(** A probe that finds a live entry in Redis. *)
Lemma probe_redis_hit text source_lang target_lang st e :
  let key := translation_key W text source_lang target_lang in
  redis_client st = true ->
  redis_raises W (tick st) = false ->
  redis_store st !! key = Some e ->
  live (clock W (tick st)) e = true ->
  get_cached_translation W text source_lang target_lang st
  = (Some (entry_value e), record_event (EvRedisGet key) st).
Proof.
  cbv zeta. intros Hclient Hget Hstored Hlive.
  unfold get_cached_translation. rewrite !run_bind. cbn [get_state fst snd].
  rewrite Hclient. rewrite !run_bind. unfold redis_get. rewrite !run_bind.
  cbn [external fst snd]. rewrite Hget.
  rewrite !run_bind. cbn [get_state fst snd mret M_ret record_event redis_store].
  unfold read_store. rewrite Hstored, Hlive. reflexivity.
Qed.

(** A probe that gets nothing from Redis and finds a live entry on disk;
    the entry is then offered to Redis, whatever comes of it. *)
Lemma probe_disk_hit text source_lang target_lang st e :
  let key := translation_key W text source_lang target_lang in
  let disk_read := if redis_client st then S (tick st) else tick st in
  (redis_client st = true ->
   redis_raises W (tick st) = true
   \/ read_store (redis_store st) (clock W (tick st)) key = None) ->
  disk_raises W disk_read = false ->
  disk_cache st !! key = Some e ->
  live (clock W disk_read) e = true ->
  truthy_dict (entry_value e) = true ->
  fst (get_cached_translation W text source_lang target_lang st) = Some (entry_value e).
Proof.
  cbv zeta. intros Hredis Hdisk Hstored Hlive Htruthy.
  unfold get_cached_translation. rewrite !run_bind. cbn [get_state fst snd].
  destruct (redis_client st) eqn:Hclient.
  - rewrite !run_bind. unfold redis_get. rewrite !run_bind. cbn [external fst snd].
    destruct (redis_raises W (tick st)) eqn:Hraises.
    + cbn [mret M_ret fst snd]. rewrite !run_bind.
      unfold disk_get. rewrite !run_bind. cbn [external fst snd record_event tick].
      rewrite Hdisk. rewrite !run_bind.
      cbn [get_state mret M_ret fst snd disk_cache record_event].
      unfold read_store. rewrite Hstored, Hlive, Htruthy.
      rewrite !run_bind. reflexivity.
    + destruct (Hredis eq_refl) as [H|H]; [discriminate H|].
      rewrite !run_bind. cbn [get_state mret M_ret fst snd record_event redis_store].
      rewrite H. rewrite !run_bind.
      unfold disk_get. rewrite !run_bind. cbn [external fst snd record_event tick].
      rewrite Hdisk. rewrite !run_bind.
      cbn [get_state mret M_ret fst snd disk_cache record_event].
      unfold read_store. rewrite Hstored, Hlive, Htruthy.
      rewrite !run_bind. reflexivity.
  - cbn [mret M_ret fst snd]. rewrite !run_bind.
    unfold disk_get. rewrite !run_bind. cbn [external fst snd]. rewrite Hdisk.
    rewrite !run_bind. cbn [get_state mret M_ret fst snd disk_cache record_event].
    unfold read_store. rewrite Hstored, Hlive, Htruthy.
    rewrite !run_bind. reflexivity.
Qed.

(** C2, as amended. Let the source language be given (not ["auto"]) and
    let a first call return a result a backend produced.  Its last
    operation is the cache write, which goes to Redis when there is a
    client and [setex] does not raise, and to the disk cache otherwise.
    If that write succeeded, in whichever tier, and the probe of a second
    call with the same arguments reads that tier without an exception and
    before the entry expires (3600 seconds after the write; an entry on
    disk is reached when Redis, if there is a client, raises or holds no
    live entry for the key), the second call returns the stored result
    with [cached] set to true and [time] set to the time elapsed in the
    second call, from its first clock reading to its last; the
    translation and every other field are those of the first result. *)
Theorem smart_translate_second_call_cached text source_lang target_lang st r1 st1 tier :
  source_lang ≠ lit "auto" ->
  smart_translate W text source_lang target_lang st = (Some r1, st1) ->
  r1 !! "cached" = Some (VBool false) ->
  written_to W st1 = Some tier ->
  read_back W st1 (translation_key W text source_lang target_lang) tier ->
  exists r2 st2,
    smart_translate W text source_lang target_lang st1 = (Some r2, st2)
    /\ r2 !! "cached" = Some (VBool true)
    /\ r2 !! "translation" = r1 !! "translation"
    /\ r2 !! "time"
       = Some (VFloat (sub (clock W (Nat.pred (tick st2))) (clock W (tick st1))))
    /\ forall field, field ≠ "time" -> field ≠ "cached" -> r2 !! field = r1 !! field.
Proof.
  intros Hne Hfirst Hfresh Hwritten Hread.
  (* the first call was served by a backend, which wrote its result *)
  destruct (smart_translate_cases W text source_lang target_lang st)
    as [(cached & _ & _ & Heq)|[_ Heq]]; rewrite Heq in Hfirst.
  { apply return_cached_flag in Hfirst. rewrite Hfirst in Hfresh. discriminate Hfresh. }
  rewrite resolve_source_given in Hfirst by assumption. cbn [fst snd] in Hfirst.
  apply backend_chain_writes in Hfirst as [st_mid ->].
  pose proof (write_outcome text source_lang target_lang r1 default_ttl st_mid) as Hstored.
  cbv zeta in Hstored. rewrite Hwritten in Hstored.
  set (st1 := snd (cache_translation W text source_lang target_lang r1 default_ttl st_mid))
    in *.
  pose proof (truthy_dict_lookup r1 "cached" _ Hfresh) as Htruthy.
  (* the second call finds it *)
  assert (Hprobe : fst (get_cached_translation W text source_lang target_lang
                          (record_event EvTime st1)) = Some r1).
  { destruct tier; unfold read_back in Hread; cbv zeta in Hread.
    - destruct Hstored as [Hclient Hentry]. destruct Hread as [Hget Hlive].
      rewrite (probe_redis_hit text source_lang target_lang (record_event EvTime st1)
                 (mkEntry r1 (add (clock W (Nat.pred (tick st1))) default_ttl)));
        [reflexivity|exact Hclient|exact Hget|exact Hentry|exact Hlive].
    - destruct Hread as (Hredis & Hdisk & Hlive).
      apply (probe_disk_hit text source_lang target_lang (record_event EvTime st1)
               (mkEntry r1 (add (clock W (Nat.pred (tick st1))) default_ttl)));
        [exact Hredis|exact Hdisk|exact Hstored|exact Hlive|exact Htruthy]. }
  apply run_eq in Hprobe.
  unfold smart_translate. rewrite !run_bind.
  rewrite !run_time_time. cbn [fst snd].
  rewrite !(resolve_source_given _ _ _ _ Hne). cbn [fst snd].
  rewrite Hprobe. cbn [fst snd]. rewrite Htruthy.
  unfold return_cached. rewrite !run_bind, !run_time_time.
  cbn [fst snd mret M_ret record_event tick Nat.pred].
  eexists _, _. split; [reflexivity|].
  split; [apply lookup_insert_eq|].
  split; [rewrite !lookup_insert_ne by discriminate; reflexivity|].
  split; [rewrite lookup_insert_ne by discriminate; apply lookup_insert_eq|].
  intros field Htime Hcached. rewrite !lookup_insert_ne by congruence. reflexivity.
Qed.

End SecondCall.

Lemma smart_translate_second_call_cached_witness :
  let first := smart_translate Demo.redis_down_world (lit "Hello") (lit "en") (lit "es")
                 Demo.fresh_redis in
  exists r1 r2 st2,
    fst first = Some r1
    /\ r1 !! "translation" = Some (VStr (lit "Hola"))
    /\ written_to Demo.redis_down_world (snd first) = Some OnDisk
    /\ smart_translate Demo.redis_down_world (lit "Hello") (lit "en") (lit "es") (snd first)
       = (Some r2, st2)
    /\ r2 !! "cached" = Some (VBool true)
    /\ r2 !! "translation" = Some (VStr (lit "Hola")).
Proof.
  cbv zeta.
  set (first := smart_translate Demo.redis_down_world (lit "Hello") (lit "en") (lit "es")
                  Demo.fresh_redis).
  assert (Hsome : is_Some (fst first)) by (apply (bool_decide_unpack _); vm_compute; exact I).
  destruct Hsome as [r1 Hr1].
  assert (Hfield : forall name, r1 !! name = Some r1 ≫= (.!! name)) by reflexivity.
  assert (Hfresh : r1 !! "cached" = Some (VBool false)).
  { rewrite Hfield, <- Hr1. vm_compute. reflexivity. }
  assert (Htranslation : r1 !! "translation" = Some (VStr (lit "Hola"))).
  { rewrite Hfield, <- Hr1. vm_compute. reflexivity. }
  assert (Hwritten : written_to Demo.redis_down_world (snd first) = Some OnDisk)
    by (vm_compute; reflexivity).
  destruct (smart_translate_second_call_cached Demo.redis_down_world
              (lit "Hello") (lit "en") (lit "es") Demo.fresh_redis r1 (snd first) OnDisk)
    as (r2 & st2 & Hrun & Hcached & Hsame & _).
  - discriminate.
  - apply run_eq. exact Hr1.
  - exact Hfresh.
  - exact Hwritten.
  - unfold read_back. cbv zeta. split; [intros _; left; reflexivity|].
    split; [reflexivity|]. vm_compute. reflexivity.
  - exists r1, r2, st2. split; [exact Hr1|]. split; [exact Htranslation|].
    split; [exact Hwritten|]. split; [exact Hrun|]. split; [exact Hcached|].
    rewrite Hsame. exact Htranslation.
Defined.

(** The same with a Redis client: the entry goes to Redis and is read back
    from there. *)
Example second_call_through_redis :
  let first := smart_translate Demo.demo_world (lit "Hello") (lit "en") (lit "es")
                 Demo.fresh_redis in
  let second := smart_translate Demo.demo_world (lit "Hello") (lit "en") (lit "es")
                  (snd first) in
  size (redis_store (snd first)) = 1%nat
  /\ size (disk_cache (snd first)) = 0%nat
  /\ fields_of <$> fst second
     = Some [ ("translation", VStr (lit "Hola"));
              ("source_lang", VStr (lit "en"));
              ("method", VStr (lit "AI Model (Marian)"));
              ("time", VFloat 0%float);
              ("confidence", VFloat 0.95%float);
              ("cached", VBool true) ].
Proof. cbv zeta. repeat split; vm_compute; reflexivity. Qed.

(** Without a readable tier the second call is not served from the cache:
    the first result is on disk, live, and the disk cache's [get] raises when
    the second call probes it. *)
Example second_call_read_fails :
  let first := smart_translate Demo.unreadable_world (lit "Hello") (lit "en") (lit "es")
                 Demo.fresh in
  let second := smart_translate Demo.unreadable_world (lit "Hello") (lit "en") (lit "es")
                  (snd first) in
  written_to Demo.unreadable_world (snd first) = Some OnDisk
  /\ (fst first ≫= (.!! "cached")) = Some (VBool false)
  /\ (fst second ≫= (.!! "cached")) = Some (VBool false).
Proof. cbv zeta. repeat split; vm_compute; reflexivity. Qed.

(** A result written to disk because Redis was down is hidden by an older
    live entry in Redis once Redis is back: the second call is served from
    the cache, with the older translation. *)
Example second_call_older_entry :
  let W := Demo.redis_back_world in
  let first := smart_translate W (lit "Hello") (lit "en") (lit "es") (Demo.stale_redis W) in
  let second := smart_translate W (lit "Hello") (lit "en") (lit "es") (snd first) in
  written_to W (snd first) = Some OnDisk
  /\ (fst first ≫= (.!! "cached")) = Some (VBool false)
  /\ (fst first ≫= (.!! "translation")) = Some (VStr (lit "Hola"))
  /\ (fst second ≫= (.!! "cached")) = Some (VBool true)
  /\ (fst second ≫= (.!! "translation")) = Some (VStr (lit "Buenas")).
Proof. cbv zeta. repeat split; vm_compute; reflexivity. Qed.

(** C2 as the specification states it fails: the first call succeeds and
    its result is written to the disk cache with an expiry 3600 seconds ahead (at 4600);
    when the second call probes the cache the clock reads 10000, the entry
    has expired, the model is asked again and the result has [cached]
    false. *)
Lemma second_call_after_expiry :
  let first := smart_translate Demo.late_world (lit "Hello") (lit "en") (lit "es")
                 Demo.fresh in
  let second := smart_translate Demo.late_world (lit "Hello") (lit "en") (lit "es")
                  (snd first) in
  let key := translation_key Demo.late_world (lit "Hello") (lit "en") (lit "es") in
  fields_of <$> fst first
  = Some [ ("translation", VStr (lit "Hola"));
           ("source_lang", VStr (lit "en"));
           ("method", VStr (lit "AI Model (Marian)"));
           ("time", VFloat 0%float);
           ("confidence", VFloat 0.95%float);
           ("cached", VBool false) ]
  /\ (fun e => (fields_of (entry_value e), entry_expires e)) <$> disk_cache (snd first) !! key
     = (fun fields => (fields, 4600%float)) <$> (fields_of <$> fst first)
  /\ clock Demo.late_world (S (tick (snd first))) = 10000%float
  /\ fields_of <$> fst second
     = Some [ ("translation", VStr (lit "Hola"));
              ("source_lang", VStr (lit "en"));
              ("method", VStr (lit "AI Model (Marian)"));
              ("time", VFloat 0%float);
              ("confidence", VFloat 0.95%float);
              ("cached", VBool false) ]
  /\ generate_calls (trace (snd second))
     = [ (lit "Helsinki-NLP/opus-mt-en-es", lit "Hello");
         (lit "Helsinki-NLP/opus-mt-en-es", lit "Hello") ].
Proof. cbv zeta. repeat split; vm_compute; reflexivity. Qed.

(** ** Chunking in [translate_with_ai] *)

Lemma slice_window (text : str) (i size : nat) :
  slice text i (i + size) = take size (drop i text).
Proof. unfold slice. f_equal. lia. Qed.

Lemma chunks_unfold (size : nat) (text : str) :
  chunks size text
  = List.map (fun k => take size (drop (k * size) text))
             (seq 0 (Nat.div (length text + size - 1) size)).
Proof.
  unfold chunks, range_step. rewrite List.map_map.
  apply List.map_ext. intros k. apply slice_window.
Qed.

Lemma windows_concat (size n : nat) (text : str) :
  (length text <= n * size)%nat ->
  concat (List.map (fun k => take size (drop (k * size) text)) (seq 0 n)) = text.
Proof.
  revert text. induction n as [|n IH]; intros text Hlen.
  - destruct text; [reflexivity|cbn in Hlen; lia].
  - cbn [seq List.map concat]. rewrite <- seq_shift, List.map_map.
    cbn [Nat.mul]. rewrite drop_0.
    rewrite (List.map_ext _ (fun k => take size (drop (k * size) (drop size text)))).
    + rewrite IH.
      * apply take_drop.
      * rewrite length_drop. lia.
    + intros k. rewrite drop_drop. reflexivity.
Qed.

(** The chunks, one after the other, are the text. *)
Lemma chunks_concat (size : nat) (text : str) :
  (0 < size)%nat -> concat (chunks size text) = text.
Proof.
  intros Hsize. rewrite chunks_unfold. apply windows_concat.
  pose proof (Nat.div_mod_eq (length text + size - 1) size) as Hdiv.
  pose proof (Nat.mod_upper_bound (length text + size - 1) size ltac:(lia)) as Hmod.
  nia.
Qed.

Lemma chunks_length (size : nat) (text : str) :
  length (chunks size text) = Nat.div (length text + size - 1) size.
Proof. rewrite chunks_unfold, length_map, length_seq. reflexivity. Qed.

(** Chunk [k] is the window of [size] characters that starts at [k * size]. *)
Lemma chunks_lookup (size : nat) (text : str) (k : nat) (chunk : str) :
  chunks size text !! k = Some chunk ->
  chunk = take size (drop (k * size) text) /\ (k * size < length text)%nat.
Proof.
  rewrite chunks_unfold. intros H.
  apply list_lookup_fmap_Some in H as (i & -> & Hi).
  apply lookup_seq in Hi as [-> Hlt]. split; [reflexivity|].
  cbn [Nat.add] in *.
  destruct (Nat.eq_dec size 0%nat) as [->|Hsize]; [cbn in Hlt; lia|].
  pose proof (Nat.div_mod_eq (length text + size - 1) size) as Hdiv.
  pose proof (Nat.mod_upper_bound (length text + size - 1) size Hsize) as Hmod.
  nia.
Qed.

(** Every chunk but the last has [size] characters; the last has between 1
    and [size]. *)
Lemma chunks_sizes (size : nat) (text : str) (k : nat) (chunk : str) :
  chunks size text !! k = Some chunk ->
  (length chunk = size /\ S k < length (chunks size text))%nat
  \/ (S k = length (chunks size text) /\ 0 < length chunk <= size)%nat.
Proof.
  intros H. pose proof (lookup_lt_Some _ _ _ H) as Hk.
  apply chunks_lookup in H as [-> Hlt].
  rewrite chunks_length in *.
  rewrite length_take, length_drop.
  destruct (Nat.eq_dec size 0%nat) as [->|Hsize]; [cbn in Hk; lia|].
  pose proof (Nat.div_mod_eq (length text + size - 1) size) as Hdiv.
  pose proof (Nat.mod_upper_bound (length text + size - 1) size Hsize) as Hmod.
  destruct (Nat.eq_dec (S k) (Nat.div (length text + size - 1) size)) as [Hlast|Hnot].
  - right. split; [exact Hlast|]. lia.
  - left. split; [|lia]. nia.
Qed.

Section Generate.
Context (W : World) (h : ModelHandle).

(** The loop over the chunks, when the model answers for each: one call per
    chunk, in order, call [i] being operation [tick st + i]. *)
Lemma generate_all (l : list str) (st : State) :
  (forall i chunk, l !! i = Some chunk ->
     is_Some (marian_generate W (tick st + i) (handle_name h) chunk)) ->
  exists outputs st',
    for_each_try (generate W h) l st = (Some outputs, st')
    /\ length outputs = length l
    /\ (forall i chunk, l !! i = Some chunk ->
          marian_generate W (tick st + i) (handle_name h) chunk = outputs !! i)
    /\ trace st' = trace st ++ List.map (EvGenerate (handle_name h)) l
    /\ tick st' = (tick st + length l)%nat.
Proof.
  revert st. induction l as [|chunk l IH]; intros st Hall.
  - exists [], st. cbn. rewrite app_nil_r, Nat.add_0_r.
    repeat split; try reflexivity. intros i c Hc. discriminate Hc.
  - destruct (Hall 0%nat chunk eq_refl) as [out Hout].
    rewrite Nat.add_0_r in Hout.
    destruct (IH (record_event (EvGenerate (handle_name h) chunk) st))
      as (outputs & st' & Hrun & Hlen & Hsame & Htrace & Htick).
    { intros i c Hc. cbn [record_event tick].
      replace (S (tick st) + i)%nat with (tick st + S i)%nat by lia.
      apply Hall. exact Hc. }
    exists (out :: outputs), st'.
    split.
    { assert (Hgen : generate W h chunk st
                     = (Some out, record_event (EvGenerate (handle_name h) chunk) st)).
      { unfold generate. rewrite run_bind. cbn [external fst snd mret M_ret].
        rewrite Hout. reflexivity. }
      cbn [for_each_try]. rewrite run_bind, Hgen. cbn [fst snd].
      rewrite run_bind, Hrun. reflexivity. }
    split; [cbn; lia|]. split.
    { intros [|i] c Hc.
      - cbn in Hc. inversion Hc; subst. rewrite Nat.add_0_r. exact Hout.
      - cbn in Hc. change ((out :: outputs) !! S i) with (outputs !! i).
        rewrite <- (Hsame i c Hc).
        cbn [record_event tick]. f_equal. lia. }
    split.
    { rewrite Htrace. cbn [record_event trace List.map]. rewrite <- app_assoc. reflexivity. }
    rewrite Htick. cbn [record_event tick length]. lia.
Qed.

End Generate.

(** C6, as amended. For a text of more than 400 characters that is not made
    of whitespace only, when the model for the pair loads and answers for
    every chunk, [translate_with_ai] cuts the text into consecutive windows
    of 400 characters (the last one between 1 and 400 characters long),
    calls the model once per chunk in that order, and returns the answers
    joined by single spaces, with the method ["AI Model (Marian)"]. *)
Theorem translate_with_ai_chunked (W : World) (text source_lang target_lang : str)
    (st st1 : State) (h : ModelHandle) :
  400 < len text ->
  strip text ≠ [] ->
  load_ai_model W (lit "Helsinki-NLP/opus-mt-" ++ source_lang ++ lit "-" ++ target_lang) st
  = (Some h, st1) ->
  (forall i chunk, chunks 400 text !! i = Some chunk ->
     is_Some (marian_generate W (tick st1 + i) (handle_name h) chunk)) ->
  exists outputs st2,
    translate_with_ai W text source_lang target_lang st
    = ((Some (join (lit " ") outputs), Some (lit "AI Model (Marian)")), st2)
    /\ length outputs = length (chunks 400 text)
    /\ (forall i chunk, chunks 400 text !! i = Some chunk ->
          marian_generate W (tick st1 + i) (handle_name h) chunk = outputs !! i)
    /\ trace st2 = trace st1 ++ List.map (EvGenerate (handle_name h)) (chunks 400 text)
    /\ concat (chunks 400 text) = text
    /\ (forall i chunk, chunks 400 text !! i = Some chunk ->
          chunk = take 400 (drop (i * 400) text)
          /\ ((length chunk = 400 /\ S i < length (chunks 400 text))%nat
              \/ (S i = length (chunks 400 text) /\ 0 < length chunk <= 400)%nat)).
Proof.
  intros Hlong Hblank Hload Hall.
  destruct (generate_all W h (chunks 400 text) st1 Hall)
    as (outputs & st2 & Hrun & Hlen & Hsame & Htrace & _).
  exists outputs, st2. split.
  { unfold translate_with_ai.
    rewrite (truthy_str_nonempty _ Hblank). cbn [negb].
    rewrite run_bind, Hload. cbn [fst snd].
    apply Z.ltb_lt in Hlong. change (Z.of_nat 400) with 400. rewrite Hlong.
    rewrite !run_bind, Hrun. reflexivity. }
  split; [exact Hlen|]. split; [exact Hsame|]. split; [exact Htrace|].
  split; [apply chunks_concat; lia|].
  intros i chunk Hchunk. split.
  - apply (chunks_lookup 400 text i chunk Hchunk).
  - apply chunks_sizes. exact Hchunk.
Qed.

Lemma translate_with_ai_chunked_witness :
  400 < len Demo.long_text
  /\ length (chunks 400 Demo.long_text) = 2%nat
  /\ exists st2,
       translate_with_ai Demo.demo_world Demo.long_text (lit "en") (lit "es") Demo.fresh
       = ((Some (lit "Hola Hola"), Some (lit "AI Model (Marian)")), st2).
Proof.
  split; [vm_compute; reflexivity|]. split; [vm_compute; reflexivity|].
  destruct (translate_with_ai_chunked Demo.demo_world Demo.long_text (lit "en") (lit "es")
              Demo.fresh
              (snd (load_ai_model Demo.demo_world (lit "Helsinki-NLP/opus-mt-en-es")
                      Demo.fresh))
              (mkHandle (lit "Helsinki-NLP/opus-mt-en-es")))
    as (outputs & st2 & Hrun & Hlen & Hsame & _).
  - vm_compute. reflexivity.
  - intros Hblank. apply (f_equal (@length N)) in Hblank.
    vm_compute in Hblank. discriminate Hblank.
  - apply run_eq. vm_compute. reflexivity.
  - intros i chunk _. exists (lit "Hola"). reflexivity.
  - exists st2. rewrite Hrun. do 3 f_equal.
    assert (Hchunks : length (chunks 400 Demo.long_text) = 2%nat)
      by (vm_compute; reflexivity).
    rewrite Hchunks in Hlen.
    destruct outputs as [|o1 [|o2 [|o3 outputs]]]; try discriminate Hlen.
    assert (H1 : is_Some (chunks 400 Demo.long_text !! 0%nat))
      by (apply (bool_decide_unpack _); vm_compute; exact I).
    assert (H2 : is_Some (chunks 400 Demo.long_text !! 1%nat))
      by (apply (bool_decide_unpack _); vm_compute; exact I).
    destruct H1 as [c1 H1], H2 as [c2 H2].
    pose proof (Hsame 0%nat c1 H1) as E1.
    pose proof (Hsame 1%nat c2 H2) as E2.
    injection E1 as <-. injection E2 as <-. reflexivity.
Defined.

(** C6 as the specification states it fails: a text of 401 spaces is longer
    than the threshold, yet [translate_with_ai] returns [(None, None)] at once; the
    state is untouched, so the text was not cut and the model was neither
    loaded nor called, although it would load and answer. *)
Lemma translate_with_ai_blank_text :
  let run := translate_with_ai Demo.demo_world Demo.blank_text (lit "en") (lit "es")
               Demo.fresh in
  400 < len Demo.blank_text
  /\ fst run = (None, None)
  /\ trace (snd run) = []
  /\ from_pretrained Demo.demo_world 0 (lit "Helsinki-NLP/opus-mt-en-es") = true
  /\ marian_generate Demo.demo_world 1 (lit "Helsinki-NLP/opus-mt-en-es")
       (take 400 Demo.blank_text) = Some (lit "Hola").
Proof. cbv zeta. repeat split; vm_compute; reflexivity. Qed.

(** ** The offline dispatcher *)

Section Offline.
Import OfflineTranslator.
Context (W : World).

Lemma auto_has_no_model : is_offline_available (lit "auto") (lit "en") = false.
Proof. vm_compute. reflexivity. Qed.

Lemma offline_smart_translate_miss self text source_lang target_lang st :
  let start_time := fst (time_time W st) in
  let resolved := resolve_source W text source_lang (snd (time_time W st)) in
  let probe := get_cached_translation W text (fst resolved) target_lang (snd resolved) in
  truthy_opt_dict (fst probe) = false ->
  OfflineTranslator.smart_translate W self text source_lang target_lang st
  = local_model_first W self text (fst resolved) target_lang start_time (snd probe).
Proof.
  cbv zeta. intros Hmiss.
  destruct (offline_smart_translate_cases W self text source_lang target_lang st)
    as [(cached & Hsome & Ht & _)|[_ Heq]]; [|exact Heq].
  rewrite Hsome in Hmiss. cbn in Hmiss. congruence.
Qed.

(** With offline mode off, a result that is not from the cache has no
    [pivot] field. *)
Lemma online_result_no_pivot self text source_lang target_lang start_time st result st' :
  offline_mode self = false ->
  local_model_first W self text source_lang target_lang start_time st = (Some result, st') ->
  result !! "pivot" = None.
Proof.
  intros Honline. unfold local_model_first, after_local_model. rewrite Honline.
  destruct (use_ai_models self && is_offline_available source_lang target_lang).
  - rewrite run_bind.
    match goal with |- context [fst (translate_with_ai W ?a ?b ?c ?s)] =>
      destruct (fst (translate_with_ai W a b c s)) as [ai_result ai_method] end.
    destruct (truthy_opt ai_result).
    + rewrite !run_bind. intros H. inversion H; subst. reflexivity.
    + intros H. eapply online_chain_confidence. exact H.
  - intros H. eapply online_chain_confidence. exact H.
Qed.

(** C5. In forced offline mode, for a pair that has no model of its own,
    with neither side English and with models from the source to English
    and from English to the target: when the cache probe misses and both
    calls of the local model succeed (text to English, then that English
    text to the target), [smart_translate] returns the output of the second
    call with confidence 0.85 and [pivot] set.  With offline mode off, no
    result that was not read from the cache has a [pivot] field. *)
Theorem english_pivot self text source_lang target_lang st :
  let start := time_time W st in
  let probe := get_cached_translation W text source_lang target_lang (snd start) in
  let pivot_start := time_time W (snd probe) in
  let to_english := translate_with_ai W text source_lang (lit "en") (snd pivot_start) in
  forall english final : str,
  offline_mode self = true ->
  is_offline_available source_lang target_lang = false ->
  source_lang ≠ lit "en" -> target_lang ≠ lit "en" ->
  is_offline_available source_lang (lit "en") = true ->
  is_offline_available (lit "en") target_lang = true ->
  truthy_opt_dict (fst probe) = false ->
  fst (fst to_english) = Some english -> english ≠ [] ->
  fst (fst (translate_with_ai W english (lit "en") target_lang (snd to_english)))
    = Some final ->
  final ≠ [] ->
  (exists result st',
      OfflineTranslator.smart_translate W self text source_lang target_lang st
      = (Some result, st')
      /\ result !! "translation" = Some (VStr final)
      /\ result !! "confidence" = Some (VFloat 0.85%float)
      /\ result !! "pivot" = Some (VBool true)
      /\ result !! "method" = Some (VStr pivot_method_name)
      /\ result !! "cached" = Some (VBool false))
  /\ (forall online text' source' target' st0 result st0',
         offline_mode online = false ->
         OfflineTranslator.smart_translate W online text' source' target' st0
         = (Some result, st0') ->
         result !! "cached" = Some (VBool false) ->
         result !! "pivot" = None).
Proof.
  cbv zeta. intros english final Hforced Hnone Hsrc Htgt Hfirst Hsecond Hmiss
    Henglish Hne1 Hfinal Hne2.
  assert (Hauto : source_lang ≠ lit "auto").
  { intros ->. rewrite auto_has_no_model in Hfirst. discriminate Hfirst. }
  split.
  - pose proof (offline_smart_translate_miss self text source_lang target_lang st) as Hrun.
    cbv zeta in Hrun.
    rewrite !(resolve_source_given W text source_lang _ Hauto) in Hrun.
    cbn [fst snd] in Hrun. rewrite (Hrun Hmiss). clear Hrun.
    unfold local_model_first. rewrite Hnone, andb_false_r.
    unfold after_local_model. rewrite Hforced.
    rewrite (bool_decide_eq_false_2 _ Hsrc), (bool_decide_eq_false_2 _ Htgt).
    cbn [negb andb]. rewrite run_bind.
    unfold _translate_via_english_pivot. rewrite run_bind, Hfirst, run_bind.
    destruct (translate_with_ai W text source_lang (lit "en") _)
      as [[english_result method1] st3].
    cbn [fst snd] in *. subst english_result.
    rewrite (truthy_str_nonempty _ Hne1). cbn [negb]. rewrite Hsecond, run_bind.
    destruct (translate_with_ai W english (lit "en") target_lang st3)
      as [[final_result method2] st4].
    cbn [fst snd] in *. subst final_result.
    cbn [truthy_opt]. rewrite (truthy_str_nonempty _ Hne2). cbn [negb].
    rewrite !run_bind. cbn [mret M_ret fst snd truthy_opt_dict].
    match goal with |- context [truthy_dict ?d] =>
      rewrite (truthy_dict_lookup d "pivot" (VBool true) eq_refl) end.
    eexists _, _. split; [reflexivity|]. repeat split; reflexivity.
  - intros online text' source' target' st0 result st0' Honline Hrun Hfresh.
    destruct (offline_smart_translate_cases W online text' source' target' st0)
      as [(cached & _ & _ & Heq)|[_ Heq]]; rewrite Heq in Hrun.
    + apply return_cached_flag in Hrun. rewrite Hrun in Hfresh. discriminate Hfresh.
    + eapply online_result_no_pivot; eassumption.
Qed.

End Offline.

(** ["Hola"] from Spanish to German: no model for the pair, one to English
    and one from English. *)
Lemma english_pivot_witness :
  OfflineTranslator.is_offline_available (lit "es") (lit "de") = false
  /\ OfflineTranslator.is_offline_available (lit "es") (lit "en") = true
  /\ OfflineTranslator.is_offline_available (lit "en") (lit "de") = true
  /\ exists result st',
       OfflineTranslator.smart_translate Demo.demo_world Demo.forced_offline
         (lit "Hola") (lit "es") (lit "de") Demo.fresh = (Some result, st')
       /\ result !! "translation" = Some (VStr (lit "Hallo"))
       /\ result !! "confidence" = Some (VFloat 0.85%float)
       /\ result !! "pivot" = Some (VBool true)
       /\ result !! "method" = Some (VStr pivot_method_name)
       /\ result !! "cached" = Some (VBool false).
Proof.
  split; [vm_compute; reflexivity|].
  split; [vm_compute; reflexivity|].
  split; [vm_compute; reflexivity|].
  pose proof (english_pivot Demo.demo_world Demo.forced_offline
                (lit "Hola") (lit "es") (lit "de") Demo.fresh) as H.
  cbv zeta in H.
  apply (H (lit "Hello") (lit "Hallo")); try discriminate; vm_compute; reflexivity.
Defined.

(** The calls that pivot makes: to English first, then on the English text. *)
Example english_pivot_calls :
  generate_calls
    (trace (snd (OfflineTranslator.smart_translate Demo.demo_world Demo.forced_offline
                   (lit "Hola") (lit "es") (lit "de") Demo.fresh)))
  = [ (lit "Helsinki-NLP/opus-mt-es-en", lit "Hola");
      (lit "Helsinki-NLP/opus-mt-en-de", lit "Hello") ].
Proof. vm_compute. reflexivity. Qed.

(** The same request with offline mode off goes to Google. *)
Example no_pivot_online :
  fields_of <$> fst (OfflineTranslator.smart_translate Demo.demo_world Demo.online
                       (lit "Hola") (lit "es") (lit "de") Demo.fresh)
  = Some [ ("translation", VStr (lit "Hola"));
           ("source_lang", VStr (lit "es"));
           ("method", VStr (lit "Google Translate (Online)"));
           ("time", VFloat 0%float);
           ("confidence", VFloat 0.90%float);
           ("cached", VBool false);
           ("offline", VBool false) ].
Proof. vm_compute. reflexivity. Qed.

Section Fallback.
Import OfflineTranslator.
Context (W : World) (self : Config).

Lemma after_local_model_forced text source_lang target_lang start_time st :
  offline_mode self = true ->
  exists result st',
    after_local_model W self text source_lang target_lang start_time st = (Some result, st').
Proof.
  intros Hforced. unfold after_local_model. rewrite Hforced, run_bind.
  match goal with |- context [truthy_opt_dict (fst ?x)] =>
    destruct x as [[pivot|] st1] end; cbn [fst snd truthy_opt_dict].
  - destruct (truthy_dict pivot).
    + eexists _, _. reflexivity.
    + unfold offline_fallback. rewrite run_bind. eexists _, _. reflexivity.
  - unfold offline_fallback. rewrite run_bind. eexists _, _. reflexivity.
Qed.

Lemma local_model_first_forced text source_lang target_lang start_time st :
  offline_mode self = true ->
  exists result st',
    local_model_first W self text source_lang target_lang start_time st = (Some result, st').
Proof.
  intros Hforced. unfold local_model_first.
  destruct (use_ai_models self && is_offline_available source_lang target_lang).
  - rewrite run_bind.
    match goal with |- context [fst (translate_with_ai W ?a ?b ?c ?s)] =>
      destruct (fst (translate_with_ai W a b c s)) as [ai_result ai_method] end.
    destruct (truthy_opt ai_result).
    + rewrite !run_bind. eexists _, _. reflexivity.
    + apply after_local_model_forced. exact Hforced.
  - apply after_local_model_forced. exact Hforced.
Qed.

(** Without a pivot result, the forced-offline tail returns the fallback. *)
Lemma after_local_model_fallback text source_lang target_lang start_time st :
  let may_pivot :=
    negb (bool_decide (source_lang = lit "en"))
    && negb (bool_decide (target_lang = lit "en")) in
  let pivot := _translate_via_english_pivot W text source_lang target_lang st in
  let after_pivot := if may_pivot then snd pivot else st in
  offline_mode self = true ->
  (may_pivot = true -> fst pivot = None) ->
  after_local_model W self text source_lang target_lang start_time st
  = (Some (fallback_result text source_lang target_lang
             (sub (clock W (tick after_pivot)) start_time)),
     record_event EvTime after_pivot).
Proof.
  cbv zeta. intros Hforced Hnone.
  unfold after_local_model. rewrite Hforced, run_bind.
  destruct (negb (bool_decide (source_lang = lit "en"))
            && negb (bool_decide (target_lang = lit "en"))).
  - rewrite (Hnone eq_refl). reflexivity.
  - reflexivity.
Qed.

(** C9. In forced offline mode [smart_translate] always returns a
    dictionary.  When the cache probe misses, the direct call of the local
    model (made only if the pair has a model and models are enabled) yields
    nothing usable, and the English pivot (tried only if neither side is
    English) yields nothing, the dictionary is the fallback: [translation]
    is the input text, [method] is ["Offline Fallback"], [confidence] is
    0.1, [offline] is true and [error] is a non-empty message. *)
Theorem offline_forced_never_null text source_lang target_lang st :
  let start := time_time W st in
  let resolved := resolve_source W text source_lang (snd start) in
  let src := fst resolved in
  let probe := get_cached_translation W text src target_lang (snd resolved) in
  let has_model := use_ai_models self && is_offline_available src target_lang in
  let direct := translate_with_ai W text src target_lang (snd probe) in
  let after_direct := if has_model then snd direct else snd probe in
  let may_pivot :=
    negb (bool_decide (src = lit "en")) && negb (bool_decide (target_lang = lit "en")) in
  let pivot := _translate_via_english_pivot W text src target_lang after_direct in
  let after_pivot := if may_pivot then snd pivot else after_direct in
  let result :=
    fallback_result text src target_lang (sub (clock W (tick after_pivot)) (fst start)) in
  offline_mode self = true ->
  (exists returned st',
      OfflineTranslator.smart_translate W self text source_lang target_lang st
      = (Some returned, st'))
  /\ (truthy_opt_dict (fst probe) = false ->
      (has_model = true -> truthy_opt (fst (fst direct)) = false) ->
      (may_pivot = true -> fst pivot = None) ->
      OfflineTranslator.smart_translate W self text source_lang target_lang st
      = (Some result, record_event EvTime after_pivot)
      /\ result !! "translation" = Some (VStr text)
      /\ result !! "method" = Some (VStr (lit "Offline Fallback"))
      /\ result !! "confidence" = Some (VFloat 0.1%float)
      /\ result !! "offline" = Some (VBool true)
      /\ exists message,
           result !! "error" = Some (VStr message) /\ truthy_str message = true).
Proof.
  cbv zeta. intros Hforced. split.
  - destruct (offline_smart_translate_cases W self text source_lang target_lang st)
      as [(cached & _ & _ & Heq)|[_ Heq]]; rewrite Heq.
    + unfold return_cached. rewrite run_bind. eexists _, _. reflexivity.
    + apply local_model_first_forced. exact Hforced.
  - intros Hmiss Hdirect Hpivot. split.
    { rewrite (offline_smart_translate_miss W self _ _ _ _ Hmiss).
      unfold local_model_first.
      set (src := fst (resolve_source W text source_lang (snd (time_time W st)))) in *.
      set (st2 := snd (get_cached_translation W text src target_lang _)) in *.
      destruct (use_ai_models self && is_offline_available src target_lang).
      - rewrite run_bind.
        destruct (translate_with_ai W text src target_lang st2)
          as [[ai_result ai_method] st3].
        cbn [fst snd] in *. rewrite (Hdirect eq_refl).
        apply after_local_model_fallback; assumption.
      - apply after_local_model_fallback; assumption. }
    repeat split; try reflexivity.
    eexists. split; reflexivity.
Qed.

End Fallback.

(** English to Spanish has a model; when it fails, the text comes back. *)
Lemma offline_forced_never_null_witness :
  OfflineTranslator.offline_mode Demo.forced_offline = true
  /\ exists returned,
       fst (OfflineTranslator.smart_translate Demo.silent_world Demo.forced_offline
              (lit "Hello") (lit "en") (lit "es") Demo.fresh) = Some returned
       /\ returned !! "translation" = Some (VStr (lit "Hello"))
       /\ returned !! "method" = Some (VStr (lit "Offline Fallback"))
       /\ returned !! "confidence" = Some (VFloat 0.1%float).
Proof.
  split; [reflexivity|].
  pose proof (offline_forced_never_null Demo.silent_world Demo.forced_offline
                (lit "Hello") (lit "en") (lit "es") Demo.fresh) as H.
  cbv zeta in H.
  destruct H as [_ H]; [reflexivity|].
  destruct H as (Hrun & Htranslation & Hmethod & Hconfidence & _).
  - vm_compute. reflexivity.
  - intros _. vm_compute. reflexivity.
  - intros Hpivot. vm_compute in Hpivot. discriminate Hpivot.
  - eexists. rewrite Hrun. split; [reflexivity|].
    split; [exact Htranslation|]. split; [exact Hmethod|exact Hconfidence].
Defined.

(** Thai to Korean: no model for the pair and none from Thai to English. *)
Example offline_fallback_without_models :
  fields_of <$> fst (OfflineTranslator.smart_translate Demo.demo_world Demo.forced_offline
                       (lit "Hello") (lit "th") (lit "ko") Demo.fresh)
  = Some [ ("translation", VStr (lit "Hello"));
           ("source_lang", VStr (lit "th"));
           ("method", VStr (lit "Offline Fallback"));
           ("time", VFloat 0%float);
           ("confidence", VFloat 0.1%float);
           ("cached", VBool false);
           ("offline", VBool true);
           ("error", VStr (lit "No offline model available for th"
                           ++ OfflineTranslator.arrow ++ lit "ko")) ].
Proof. vm_compute. reflexivity. Qed.

(** * Effects, cache tiers and loaders *)

Import Effects.

(** ** Relations a run keeps *)

Section Steps.
Context (W : World) (R : relation State) {HR : PreOrder R}.

Lemma steps_ret {A : Type} (a : A) : steps R (mret a).
Proof. intros st. reflexivity. Qed.

Lemma steps_bind {A B : Type} (m : M A) (k : A -> M B) :
  steps R m -> (forall a, steps R (k a)) -> steps R (m ≫= k).
Proof.
  intros Hm Hk st. rewrite run_bind.
  transitivity (snd (m st)); [apply Hm|apply Hk].
Qed.

Lemma steps_get_state : steps R get_state.
Proof. intros st. reflexivity. Qed.

Lemma steps_external e : event_ok R (kind e) -> steps R (external e).
Proof. intros He st. apply He. reflexivity. Qed.

Lemma steps_time_time : event_ok R Clock -> steps R (time_time W).
Proof.
  intros He. unfold time_time. apply steps_bind; [|intros; apply steps_ret].
  apply steps_external. exact He.
Qed.

Lemma steps_time_sleep seconds : event_ok R Pause -> steps R (time_sleep seconds).
Proof.
  intros He. unfold time_sleep. apply steps_bind; [|intros; apply steps_ret].
  apply steps_external. exact He.
Qed.

Lemma steps_for_each_try {A B : Type} (body : A -> M (option B)) (l : list A) :
  (forall a, steps R (body a)) -> steps R (for_each_try body l).
Proof.
  intros Hbody. induction l as [|a l IH]; [apply steps_ret|].
  cbn [for_each_try]. apply steps_bind; [apply Hbody|].
  intros [b|]; [|apply steps_ret].
  apply steps_bind; [exact IH|]. intros rs. apply steps_ret.
Qed.

Lemma steps_detect_language text : event_ok R Detector -> steps R (detect_language W text).
Proof.
  intros He. unfold detect_language.
  destruct (negb (truthy_str text) || (len (strip text) <? 3)); [apply steps_ret|].
  apply steps_bind; [apply steps_external; exact He|]. intros k.
  destruct (langdetect W k _) as [detected|].
  - destruct (negb _); apply steps_ret.
  - repeat (match goal with |- context [if ?b then _ else _] => destruct b end);
      apply steps_ret.
Qed.

Lemma steps_resolve_source text source_lang :
  (source_lang = lit "auto" -> event_ok R Detector) ->
  steps R (resolve_source W text source_lang).
Proof.
  intros He. unfold resolve_source. case_bool_decide as Hauto; [|apply steps_ret].
  apply steps_bind; [apply steps_detect_language; auto|]. intros r. apply steps_ret.
Qed.

Lemma steps_load_ai_model model_name :
  event_ok R ModelLoad -> models_ok R -> steps R (load_ai_model W model_name).
Proof.
  intros He Hm. unfold load_ai_model, get_model, set_model.
  apply steps_bind; [apply steps_bind; [apply steps_get_state|intros; apply steps_ret]|].
  intros [h|]; [apply steps_ret|].
  apply steps_bind; [apply steps_external; exact He|]. intros k.
  destruct (from_pretrained W k model_name); [|apply steps_ret].
  apply steps_bind; [|intros; apply steps_ret].
  intros st. apply Hm.
Qed.

Lemma steps_generate h chunk : event_ok R ModelCall -> steps R (generate W h chunk).
Proof.
  intros He. unfold generate. apply steps_bind; [|intros; apply steps_ret].
  apply steps_external. exact He.
Qed.

Lemma steps_translate_with_ai text source_lang target_lang :
  event_ok R ModelLoad -> event_ok R ModelCall -> models_ok R ->
  steps R (translate_with_ai W text source_lang target_lang).
Proof.
  intros Hl Hc Hm. unfold translate_with_ai.
  destruct (negb (truthy_str (strip text))); [apply steps_ret|].
  apply steps_bind; [apply steps_load_ai_model; assumption|].
  intros [h|]; [|apply steps_ret].
  apply steps_bind.
  - destruct (_ <? _).
    + apply steps_bind; [|intros; apply steps_ret].
      apply steps_for_each_try. intros chunk. apply steps_generate. exact Hc.
    + apply steps_generate. exact Hc.
  - intros [r|]; apply steps_ret.
Qed.

Lemma steps_google_request text source_lang target_lang :
  event_ok R OnlineService -> event_ok R Pause ->
  steps R (google_request W text source_lang target_lang).
Proof.
  intros Ho Hp. unfold google_request. destruct (_ <? _).
  - apply steps_bind; [|intros; apply steps_ret].
    apply steps_for_each_try. intros chunk.
    apply steps_bind; [apply steps_external; exact Ho|]. intros k.
    destruct (google_call W k _ _ _); [|apply steps_ret].
    apply steps_bind; [apply steps_time_sleep; exact Hp|]. intros; apply steps_ret.
  - apply steps_bind; [apply steps_external; exact Ho|]. intros; apply steps_ret.
Qed.

Lemma steps_google_attempts attempts text source_lang target_lang :
  event_ok R OnlineService -> event_ok R Pause ->
  (source_lang = lit "auto" -> event_ok R Detector) ->
  steps R (google_attempts W attempts text source_lang target_lang).
Proof.
  intros Ho Hp. revert source_lang.
  induction attempts as [|attempt rest IH]; intros source_lang Hd; [apply steps_ret|].
  cbn [google_attempts].
  assert (Hlater : forall resolved st,
             fst ((if bool_decide (source_lang = lit "auto")
                   then r ← detect_language W text; mret (fst r)
                   else mret source_lang) st) = resolved ->
             resolved = lit "auto" -> event_ok R Detector).
  { intros resolved st Hres Hauto. case_bool_decide as Hsrc; [auto|].
    cbn in Hres. subst resolved. contradiction. }
  intros st. rewrite run_bind.
  set (settled := (if bool_decide (source_lang = lit "auto")
                   then r ← detect_language W text; mret (fst r)
                   else mret source_lang) st).
  transitivity (snd settled).
  { subst settled. apply (steps_resolve_source text source_lang Hd). }
  rewrite run_bind.
  transitivity (snd (google_request W text (fst settled) target_lang (snd settled))).
  { apply steps_google_request; assumption. }
  destruct (fst (google_request W text (fst settled) target_lang (snd settled)));
    [reflexivity|].
  destruct (attempt <? max_retries - 1)%nat; [|reflexivity].
  rewrite run_bind.
  transitivity (snd (time_sleep 1%float
                       (snd (google_request W text (fst settled) target_lang (snd settled))))).
  { apply steps_time_sleep. exact Hp. }
  apply IH. apply (Hlater (fst settled) st eq_refl).
Qed.

Lemma steps_translate_with_google text source_lang target_lang :
  event_ok R OnlineService -> event_ok R Pause ->
  (source_lang = lit "auto" -> event_ok R Detector) ->
  steps R (translate_with_google W text source_lang target_lang).
Proof. apply steps_google_attempts. Qed.

Lemma steps_translate_with_mymemory text source_lang target_lang :
  event_ok R OnlineService -> event_ok R Pause ->
  steps R (translate_with_mymemory W text source_lang target_lang).
Proof.
  intros Ho Hp. unfold translate_with_mymemory. apply steps_bind.
  - destruct (_ <? _).
    + apply steps_bind; [|intros; apply steps_ret].
      apply steps_for_each_try. intros chunk.
      apply steps_bind; [apply steps_external; exact Ho|]. intros k.
      destruct (mymemory_call W k _ _ _); [|apply steps_ret].
      apply steps_bind; [apply steps_time_sleep; exact Hp|]. intros; apply steps_ret.
    + apply steps_bind; [apply steps_external; exact Ho|]. intros; apply steps_ret.
  - intros [r|]; apply steps_ret.
Qed.

Lemma steps_modify f : (forall st, R st (f st)) -> steps R (modify f).
Proof. intros Hf st. apply Hf. Qed.

Lemma steps_redis_setex key ttl value :
  event_ok R CacheTier -> stores_ok R -> steps R (redis_setex W key ttl value).
Proof.
  intros He [Hredis _]. unfold redis_setex.
  apply steps_bind; [apply steps_external; exact He|]. intros k.
  destruct (redis_raises W k); [apply steps_ret|].
  apply steps_bind; [|intros; apply steps_ret].
  apply steps_modify. intros st. apply Hredis.
Qed.

Lemma steps_disk_set key value ttl :
  event_ok R CacheTier -> stores_ok R -> steps R (disk_set W key value ttl).
Proof.
  intros He [_ Hdisk]. unfold disk_set.
  apply steps_bind; [apply steps_external; exact He|]. intros k.
  destruct (disk_raises W k); [apply steps_ret|].
  apply steps_bind; [|intros; apply steps_ret].
  apply steps_modify. intros st. apply Hdisk.
Qed.

Lemma steps_redis_get key : event_ok R CacheTier -> steps R (redis_get W key).
Proof.
  intros He. unfold redis_get.
  apply steps_bind; [apply steps_external; exact He|]. intros k.
  destruct (redis_raises W k); [apply steps_ret|].
  apply steps_bind; [apply steps_get_state|intros; apply steps_ret].
Qed.

Lemma steps_disk_get key : event_ok R CacheTier -> steps R (disk_get W key).
Proof.
  intros He. unfold disk_get.
  apply steps_bind; [apply steps_external; exact He|]. intros k.
  destruct (disk_raises W k); [apply steps_ret|].
  apply steps_bind; [apply steps_get_state|intros; apply steps_ret].
Qed.

Lemma steps_cache_translation text source_lang target_lang result ttl :
  event_ok R CacheTier -> stores_ok R ->
  steps R (cache_translation W text source_lang target_lang result ttl).
Proof.
  intros He Hs. unfold cache_translation.
  apply steps_bind; [apply steps_get_state|]. intros st0.
  apply steps_bind.
  - destruct (redis_client st0); [|apply steps_ret].
    apply steps_bind; [apply steps_redis_setex; assumption|]. intros; apply steps_ret.
  - intros [|]; [apply steps_ret|].
    apply steps_bind; [apply steps_disk_set; assumption|]. intros; apply steps_ret.
Qed.

Lemma steps_get_cached_translation text source_lang target_lang :
  event_ok R CacheTier -> stores_ok R ->
  steps R (get_cached_translation W text source_lang target_lang).
Proof.
  intros He Hs. unfold get_cached_translation.
  apply steps_bind; [apply steps_get_state|]. intros st0.
  apply steps_bind.
  - destruct (redis_client st0); [|apply steps_ret].
    apply steps_bind; [apply steps_redis_get; assumption|]. intros; apply steps_ret.
  - intros [cached|]; [apply steps_ret|].
    apply steps_bind; [apply steps_disk_get; assumption|].
    intros [[cached|]|]; try apply steps_ret.
    destruct (truthy_dict cached); [|apply steps_ret].
    apply steps_bind; [|intros; apply steps_ret].
    destruct (redis_client st0); [|apply steps_ret].
    apply steps_bind; [apply steps_redis_setex; assumption|]. intros; apply steps_ret.
Qed.

Lemma steps_return_cached cached start_time :
  event_ok R Clock -> steps R (return_cached W cached start_time).
Proof.
  intros He. unfold return_cached.
  apply steps_bind; [apply steps_time_time; exact He|]. intros; apply steps_ret.
Qed.

Lemma steps_backend_chain text source_lang target_lang start_time :
  event_ok R Clock -> event_ok R ModelLoad -> event_ok R ModelCall ->
  event_ok R OnlineService -> event_ok R Pause -> event_ok R CacheTier ->
  (source_lang = lit "auto" -> event_ok R Detector) ->
  models_ok R -> stores_ok R ->
  steps R (backend_chain W text source_lang target_lang start_time).
Proof.
  intros Hclock Hload Hcall Honline Hpause Hcache Hdetect Hmodels Hstores.
  assert (Hwrite : forall result,
             steps R (now ← time_time W;
                      _ ← cache_translation W text source_lang target_lang
                            (result now) default_ttl;
                      mret (Some (result now)))).
  { intros result. apply steps_bind; [apply steps_time_time; exact Hclock|]. intros now.
    apply steps_bind; [apply steps_cache_translation; assumption|].
    intros; apply steps_ret. }
  unfold backend_chain.
  apply steps_bind; [apply steps_translate_with_ai; assumption|].
  intros [ai_result ai_method].
  destruct (truthy_opt ai_result).
  { apply (Hwrite (fun now => mk_dict _)). }
  apply steps_bind; [apply steps_translate_with_google; assumption|].
  intros [[google_result detected_lang] google_method].
  destruct (truthy_opt google_result).
  { apply (Hwrite (fun now => mk_dict _)). }
  apply steps_bind; [apply steps_translate_with_mymemory; assumption|].
  intros [mymemory_result mymemory_method].
  destruct (truthy_opt mymemory_result); [|apply steps_ret].
  apply (Hwrite (fun now => mk_dict _)).
Qed.

Lemma steps_smart_translate text source_lang target_lang :
  event_ok R Clock -> event_ok R Detector -> event_ok R ModelLoad ->
  event_ok R ModelCall -> event_ok R OnlineService -> event_ok R Pause ->
  event_ok R CacheTier -> models_ok R -> stores_ok R ->
  steps R (smart_translate W text source_lang target_lang).
Proof.
  intros Hclock Hdetect Hload Hcall Honline Hpause Hcache Hmodels Hstores.
  unfold smart_translate.
  apply steps_bind; [apply steps_time_time; exact Hclock|]. intros start_time.
  apply steps_bind; [apply steps_resolve_source; auto|]. intros src.
  apply steps_bind; [apply steps_get_cached_translation; assumption|].
  intros [cached|]; [destruct (truthy_dict cached)|];
    try (apply steps_backend_chain; auto).
  apply steps_return_cached. exact Hclock.
Qed.

Lemma steps_pivot text source_lang target_lang :
  event_ok R Clock -> event_ok R ModelLoad -> event_ok R ModelCall ->
  event_ok R CacheTier -> models_ok R -> stores_ok R ->
  steps R (OfflineTranslator._translate_via_english_pivot W text source_lang target_lang).
Proof.
  intros Hclock Hload Hcall Hcache Hmodels Hstores.
  unfold OfflineTranslator._translate_via_english_pivot.
  apply steps_bind; [apply steps_time_time; exact Hclock|]. intros start_time.
  destruct (OfflineTranslator.is_offline_available source_lang (lit "en"));
    [|apply steps_ret].
  apply steps_bind; [apply steps_translate_with_ai; assumption|].
  intros [[english|] method1]; [|apply steps_ret].
  destruct (negb (truthy_str english)); [apply steps_ret|].
  destruct (OfflineTranslator.is_offline_available (lit "en") target_lang);
    [|apply steps_ret].
  apply steps_bind; [apply steps_translate_with_ai; assumption|].
  intros [final_result method2].
  destruct (negb (truthy_opt final_result)); [apply steps_ret|].
  apply steps_bind; [apply steps_time_time; exact Hclock|]. intros now.
  apply steps_bind; [apply steps_cache_translation; assumption|].
  intros; apply steps_ret.
Qed.

Lemma steps_online_chain self text source_lang target_lang start_time :
  event_ok R Clock -> event_ok R OnlineService -> event_ok R Pause ->
  event_ok R CacheTier -> (source_lang = lit "auto" -> event_ok R Detector) ->
  stores_ok R ->
  steps R (OfflineTranslator.online_chain W self text source_lang target_lang start_time).
Proof.
  intros Hclock Honline Hpause Hcache Hdetect Hstores.
  unfold OfflineTranslator.online_chain. apply steps_bind.
  - destruct (OfflineTranslator.use_google_translate self); [|apply steps_ret].
    apply steps_bind; [apply steps_translate_with_google; assumption|].
    intros [[google_result detected_lang] google_method].
    destruct (truthy_opt google_result); [|apply steps_ret].
    apply steps_bind; [apply steps_time_time; exact Hclock|]. intros now.
    apply steps_bind; [apply steps_cache_translation; assumption|].
    intros; apply steps_ret.
  - intros [served|]; [apply steps_ret|].
    destruct (OfflineTranslator.use_mymemory self); [|apply steps_ret].
    apply steps_bind; [apply steps_translate_with_mymemory; assumption|].
    intros [mymemory_result mymemory_method].
    destruct (truthy_opt mymemory_result); [|apply steps_ret].
    apply steps_bind; [apply steps_time_time; exact Hclock|]. intros now.
    apply steps_bind; [apply steps_cache_translation; assumption|].
    intros; apply steps_ret.
Qed.

(** The offline dispatcher; the web services matter only when offline
    mode is not forced. *)
Lemma steps_offline_smart_translate self text source_lang target_lang :
  event_ok R Clock -> event_ok R Detector -> event_ok R ModelLoad ->
  event_ok R ModelCall -> event_ok R CacheTier -> models_ok R -> stores_ok R ->
  (OfflineTranslator.offline_mode self = false ->
   event_ok R OnlineService /\ event_ok R Pause) ->
  steps R (OfflineTranslator.smart_translate W self text source_lang target_lang).
Proof.
  intros Hclock Hdetect Hload Hcall Hcache Hmodels Hstores Honline.
  assert (Hafter : forall src start_time,
             steps R (OfflineTranslator.after_local_model W self text src target_lang
                        start_time)).
  { intros src start_time. unfold OfflineTranslator.after_local_model.
    destruct (OfflineTranslator.offline_mode self).
    - apply steps_bind.
      + destruct (negb _ && negb _); [apply steps_pivot; assumption|apply steps_ret].
      + intros pivot_result. destruct (truthy_opt_dict pivot_result); [apply steps_ret|].
        unfold OfflineTranslator.offline_fallback.
        apply steps_bind; [apply steps_time_time; exact Hclock|]. intros; apply steps_ret.
    - destruct (Honline eq_refl). apply steps_online_chain; auto. }
  assert (Hfirst : forall src start_time,
             steps R (OfflineTranslator.local_model_first W self text src target_lang
                        start_time)).
  { intros src start_time. unfold OfflineTranslator.local_model_first.
    destruct (_ && _); [|apply Hafter].
    apply steps_bind; [apply steps_translate_with_ai; assumption|].
    intros [ai_result ai_method].
    destruct (truthy_opt ai_result); [|apply Hafter].
    apply steps_bind; [apply steps_time_time; exact Hclock|]. intros now.
    apply steps_bind; [apply steps_cache_translation; assumption|].
    intros; apply steps_ret. }
  unfold OfflineTranslator.smart_translate.
  apply steps_bind; [apply steps_time_time; exact Hclock|]. intros start_time.
  apply steps_bind; [apply steps_resolve_source; auto|]. intros src.
  apply steps_bind; [apply steps_get_cached_translation; assumption|].
  intros [cached|]; [destruct (truthy_dict cached)|]; try apply Hfirst.
  apply steps_return_cached. exact Hclock.
Qed.

End Steps.

(** *** The three relations *)

Section Relations.

#[export] Instance grows_preorder allowed : PreOrder (grows allowed).
Proof.
  split.
  - intros st. exists []. rewrite app_nil_r. split; reflexivity.
  - intros st1 st2 st3 (e1 & H1 & A1) (e2 & H2 & A2). exists (e1 ++ e2).
    rewrite H2, H1, app_assoc. split; [reflexivity|].
    rewrite forallb_app, A1, A2. reflexivity.
Qed.

Lemma grows_event_ok allowed k : allowed k = true -> event_ok (grows allowed) k.
Proof.
  intros Hk e st He. exists [e]. split; [reflexivity|].
  cbn. rewrite He, Hk. reflexivity.
Qed.

Lemma grows_models_ok allowed : models_ok (grows allowed).
Proof. intros f st. exists []. cbn. rewrite app_nil_r. split; reflexivity. Qed.

Lemma grows_stores_ok allowed : stores_ok (grows allowed).
Proof. split; intros f st; exists []; cbn; rewrite app_nil_r; split; reflexivity. Qed.

#[export] Instance same_stores_preorder : PreOrder same_stores.
Proof.
  split.
  - intros st. repeat split.
  - intros st1 st2 st3 (A1 & B1 & C1) (A2 & B2 & C2).
    repeat split; congruence.
Qed.

Lemma same_stores_event_ok k : event_ok same_stores k.
Proof. intros e st _. repeat split. Qed.

Lemma same_stores_models_ok : models_ok same_stores.
Proof. intros f st. repeat split. Qed.

#[export] Instance same_models_preorder : PreOrder same_models.
Proof.
  split.
  - intros st. reflexivity.
  - intros st1 st2 st3 H1 H2. unfold same_models in *. congruence.
Qed.

Lemma same_models_event_ok k : event_ok same_models k.
Proof. intros e st _. reflexivity. Qed.

Lemma same_models_stores_ok : stores_ok same_models.
Proof. split; intros f st; reflexivity. Qed.

(** Events of a kind that is not allowed do not occur. *)
Lemma grows_of_kind allowed k st st' :
  grows allowed st st' -> allowed k = false ->
  of_kind k (trace st') = of_kind k (trace st).
Proof.
  intros (events & -> & Hall) Hk. unfold of_kind.
  rewrite List.filter_app.
  replace (List.filter _ events) with (@nil Event); [apply app_nil_r|].
  symmetry. induction events as [|e events IH]; [reflexivity|].
  cbn in Hall. apply andb_prop in Hall as [He Hrest]. cbn.
  case_bool_decide as Hkind; [|apply IH, Hrest].
  rewrite Hkind, Hk in He. discriminate He.
Qed.

End Relations.

(** ** The detected language *)

Lemma auto_not_supported : contains supported_languages (lit "auto") = false.
Proof. vm_compute. reflexivity. Qed.

Lemma detect_language_in_table (W : World) (text : str) (st : State) :
  contains supported_languages (fst (fst (detect_language W text st))) = true.
Proof.
  unfold detect_language.
  destruct (negb (truthy_str text) || (len (strip text) <? 3));
    [vm_compute; reflexivity|].
  rewrite run_bind. cbn [external fst snd].
  destruct (langdetect W (tick st) _) as [detected|].
  - destruct (contains supported_languages detected) eqn:Hin; cbn [negb fst snd mret M_ret].
    + exact Hin.
    + vm_compute. reflexivity.
  - repeat (match goal with |- context [if ?b then _ else _] => destruct b end);
      vm_compute; reflexivity.
Qed.

(** X1. Whatever the text and whatever the detector answers,
    [detect_language] returns one of the twenty codes of
    [supported_languages]; in particular never ["auto"]. *)
Theorem detect_language_supported (W : World) (text : str) (st : State) :
  contains supported_languages (fst (fst (detect_language W text st))) = true
  /\ bool_decide (fst (fst (detect_language W text st)) = lit "auto") = false.
Proof.
  split; [apply detect_language_in_table|].
  apply bool_decide_eq_false. intros Hauto.
  pose proof (detect_language_in_table W text st) as Hin.
  rewrite Hauto, auto_not_supported in Hin. discriminate Hin.
Qed.

Lemma resolve_source_not_auto (W : World) (text source_lang : str) (st : State) :
  fst (resolve_source W text source_lang st) ≠ lit "auto".
Proof.
  unfold resolve_source. case_bool_decide as Hauto; [|exact Hauto].
  rewrite run_bind. cbn [mret M_ret fst]. intros Heq.
  pose proof (detect_language_in_table W text st) as Hin.
  rewrite Heq, auto_not_supported in Hin. discriminate Hin.
Qed.

(** The detector is asked at most once by [detect_language]. *)
Lemma detect_language_trace (W : World) (text : str) (st : State) :
  trace (snd (detect_language W text st)) = trace st
  \/ exists sample, trace (snd (detect_language W text st)) = trace st ++ [EvDetect sample].
Proof.
  unfold detect_language.
  destruct (negb (truthy_str text) || (len (strip text) <? 3)); [left; reflexivity|].
  right. eexists. rewrite run_bind. cbn [external fst snd].
  destruct (langdetect W (tick st) _) as [detected|].
  - destruct (negb _); reflexivity.
  - repeat (match goal with |- context [if ?b then _ else _] => destruct b end);
      reflexivity.
Qed.

(** ** What a call issues *)

Section Issues.
Context (W : World).

(** X2. A result flagged [cached] was produced without loading or calling
    a model, without a request to Google or MyMemory and without a pause:
    the call issued clock readings, cache operations and, for ["auto"], a
    language detection only. *)
Theorem cached_result_calls_no_backend text source_lang target_lang st result st' :
  smart_translate W text source_lang target_lang st = (Some result, st') ->
  result !! "cached" = Some (VBool true) ->
  grows no_backend st st'
  /\ of_kind ModelLoad (trace st') = of_kind ModelLoad (trace st)
  /\ of_kind ModelCall (trace st') = of_kind ModelCall (trace st)
  /\ of_kind OnlineService (trace st') = of_kind OnlineService (trace st)
  /\ of_kind Pause (trace st') = of_kind Pause (trace st).
Proof.
  intros Hrun Hcached.
  assert (Hgrows : grows no_backend st st').
  { destruct (smart_translate_cases W text source_lang target_lang st)
      as [(cached & _ & _ & Heq)|[_ Heq]]; rewrite Heq in Hrun.
    - apply (f_equal snd) in Hrun. cbn [snd] in Hrun. rewrite <- Hrun.
      etransitivity; [apply (steps_time_time W (grows no_backend))|].
      { apply grows_event_ok. reflexivity. }
      etransitivity; [apply (steps_resolve_source W (grows no_backend))|].
      { intros _. apply grows_event_ok. reflexivity. }
      etransitivity; [apply (steps_get_cached_translation W (grows no_backend))|].
      { apply grows_event_ok. reflexivity. }
      { apply grows_stores_ok. }
      apply (steps_return_cached W (grows no_backend)).
      apply grows_event_ok. reflexivity.
    - apply backend_chain_confidence in Hrun.
      destruct Hrun as [(_ & _ & H)|[(_ & _ & H)|(_ & _ & H)]];
        rewrite H in Hcached; discriminate Hcached. }
  split; [exact Hgrows|].
  repeat split; apply (grows_of_kind no_backend _ _ _ Hgrows); reflexivity.
Qed.

(** X3. One call of [smart_translate] asks the language detector at most
    once, and not at all when the source language is given: the Google
    backend is handed the language already settled and does not detect
    again. *)
Theorem smart_translate_detects_once text source_lang target_lang st :
  let st' := snd (smart_translate W text source_lang target_lang st) in
  (length (of_kind Detector (trace st')) <= S (length (of_kind Detector (trace st))))%nat
  /\ (bool_decide (source_lang = lit "auto") = false ->
      of_kind Detector (trace st') = of_kind Detector (trace st)).
Proof.
  cbv zeta.
  set (st0 := snd (time_time W st)).
  set (resolved := resolve_source W text source_lang st0).
  assert (Hrest : grows not_detector (snd resolved)
                    (snd (smart_translate W text source_lang target_lang st))).
  { unfold smart_translate. rewrite !run_bind. fold st0. fold resolved.
    pose proof (resolve_source_not_auto W text source_lang st0) as Hsrc.
    fold resolved in Hsrc.
    etransitivity; [apply (steps_get_cached_translation W (grows not_detector))|].
    { apply grows_event_ok. reflexivity. }
    { apply grows_stores_ok. }
    destruct (fst (get_cached_translation W text (fst resolved) target_lang (snd resolved)))
      as [cached|]; [destruct (truthy_dict cached)|].
    - apply (steps_return_cached W (grows not_detector)).
      apply grows_event_ok. reflexivity.
    - apply (steps_backend_chain W (grows not_detector));
        try (apply grows_event_ok; reflexivity);
        try apply grows_models_ok; try apply grows_stores_ok.
      intros Hauto. contradiction.
    - apply (steps_backend_chain W (grows not_detector));
        try (apply grows_event_ok; reflexivity);
        try apply grows_models_ok; try apply grows_stores_ok.
      intros Hauto. contradiction. }
  apply (grows_of_kind not_detector Detector) in Hrest; [|reflexivity].
  rewrite Hrest.
  assert (Hst0 : of_kind Detector (trace st0) = of_kind Detector (trace st)).
  { subst st0. rewrite run_time_time. cbn [snd record_event trace].
    unfold of_kind. rewrite List.filter_app. cbn. apply app_nil_r. }
  subst resolved. unfold resolve_source. case_bool_decide as Hauto.
  - split; [|discriminate]. rewrite run_bind. cbn [mret M_ret snd].
    destruct (detect_language_trace W text st0) as [Hsame|[sample Hone]].
    + rewrite Hsame, Hst0. lia.
    + rewrite Hone. unfold of_kind in *. rewrite List.filter_app, length_app, Hst0.
      change (length (List.filter (fun e => bool_decide (kind e = Detector))
                        [EvDetect sample])) with 1%nat.
      lia.
  - cbn [mret M_ret snd]. rewrite Hst0. split; [lia|reflexivity].
Qed.

(** X4. In forced offline mode [smart_translate] sends nothing to Google
    or MyMemory and never pauses, whatever the text, the languages, the
    cache and the models do. *)
Theorem forced_offline_never_online self text source_lang target_lang st :
  OfflineTranslator.offline_mode self = true ->
  let st' := snd (OfflineTranslator.smart_translate W self text source_lang target_lang st) in
  grows not_online st st'
  /\ of_kind OnlineService (trace st') = of_kind OnlineService (trace st)
  /\ of_kind Pause (trace st') = of_kind Pause (trace st).
Proof.
  intros Hforced. cbv zeta.
  assert (Hgrows : grows not_online st
            (snd (OfflineTranslator.smart_translate W self text source_lang target_lang st))).
  { apply (steps_offline_smart_translate W (grows not_online));
      try (apply grows_event_ok; reflexivity);
      try apply grows_models_ok; try apply grows_stores_ok.
    intros Hoff. rewrite Hforced in Hoff. discriminate Hoff. }
  split; [exact Hgrows|].
  split; apply (grows_of_kind not_online _ _ _ Hgrows); reflexivity.
Qed.

End Issues.

(** ** The source language of a result *)

Section SourceLanguage.
Context (W : World).

Lemma google_attempts_source attempts text source_lang target_lang st :
  source_lang ≠ lit "auto" ->
  fst (google_attempts W attempts text source_lang target_lang st) = (None, None, None)
  \/ exists result,
       fst (google_attempts W attempts text source_lang target_lang st)
       = (result, Some source_lang, Some google_method_name).
Proof.
  intros Hne. revert st.
  induction attempts as [|attempt rest IH]; intros st; [left; reflexivity|].
  cbn [google_attempts]. rewrite (bool_decide_eq_false_2 _ Hne).
  rewrite !run_bind. cbn [mret M_ret fst snd].
  destruct (fst (google_request W text source_lang target_lang st)) as [result|].
  - right. exists result. reflexivity.
  - destruct (attempt <? max_retries - 1)%nat; [|left; reflexivity].
    rewrite run_bind. apply IH.
Qed.

Lemma backend_chain_source text source_lang target_lang start_time st result st' :
  source_lang ≠ lit "auto" ->
  backend_chain W text source_lang target_lang start_time st = (Some result, st') ->
  result !! "source_lang" = Some (VStr source_lang).
Proof.
  intros Hne. unfold backend_chain. rewrite run_bind.
  match goal with |- context [fst (translate_with_ai W ?a ?b ?c ?s)] =>
    destruct (fst (translate_with_ai W a b c s)) as [ai_result ai_method] end.
  destruct (truthy_opt ai_result).
  { rewrite !run_bind. intros H. inversion H; subst. reflexivity. }
  rewrite run_bind.
  match goal with |- context [fst (translate_with_google W ?a ?b ?c ?s)] =>
    destruct (google_attempts_source (seq 0 max_retries) a b c s Hne)
      as [Hg|[google_result Hg]];
    change (google_attempts W (seq 0 max_retries) a b c s)
      with (translate_with_google W a b c s) in Hg; rewrite Hg
  end; cbn [truthy_opt].
  2: destruct (truthy_opt google_result).
  2: { rewrite !run_bind. intros H. inversion H; subst. reflexivity. }
  all: rewrite run_bind;
    match goal with |- context [fst (translate_with_mymemory W ?a ?b ?c ?s)] =>
      destruct (fst (translate_with_mymemory W a b c s))
        as [mymemory_result mymemory_method] end;
    (destruct (truthy_opt mymemory_result); [|discriminate]);
    rewrite !run_bind; intros H; inversion H; subst; reflexivity.
Qed.

(** X5. The [source_lang] of a result a backend produced is a concrete
    language, never ["auto"]: the language given when one is given, the
    detected one otherwise. *)
Theorem result_source_never_auto text source_lang target_lang st result st' :
  smart_translate W text source_lang target_lang st = (Some result, st') ->
  result !! "cached" = Some (VBool false) ->
  exists resolved,
    result !! "source_lang" = Some (VStr resolved)
    /\ bool_decide (resolved = lit "auto") = false
    /\ resolved = fst (resolve_source W text source_lang (snd (time_time W st)))
    /\ (bool_decide (source_lang = lit "auto") = false -> resolved = source_lang).
Proof.
  intros Hrun Hfresh.
  destruct (smart_translate_cases W text source_lang target_lang st)
    as [(cached & _ & _ & Heq)|[_ Heq]]; rewrite Heq in Hrun.
  { apply return_cached_flag in Hrun. rewrite Hrun in Hfresh. discriminate Hfresh. }
  pose proof (resolve_source_not_auto W text source_lang (snd (time_time W st))) as Hne.
  eexists. split; [eapply backend_chain_source; eassumption|].
  split; [apply bool_decide_eq_false; exact Hne|].
  split; [reflexivity|].
  intros Hgiven. apply bool_decide_eq_false in Hgiven.
  rewrite resolve_source_given by exact Hgiven. reflexivity.
Qed.

End SourceLanguage.

(** ** What is left in the cache *)

Section Stores.
Context (W : World).

(** A probe that finds nothing usable leaves the tiers as they were. *)
Lemma probe_miss_same_stores text source_lang target_lang st :
  truthy_opt_dict (fst (get_cached_translation W text source_lang target_lang st)) = false ->
  same_stores st (snd (get_cached_translation W text source_lang target_lang st)).
Proof.
  unfold get_cached_translation. rewrite !run_bind. cbn [get_state fst snd].
  set (key := translation_key W text source_lang target_lang).
  set (from_redis := (if redis_client st
                      then r ← redis_get W key;
                           mret (match r with Some (Some cached) => Some cached | _ => None end)
                      else mret None) st).
  assert (Hredis : same_stores st (snd from_redis)).
  { subst from_redis. destruct (redis_client st); [|reflexivity].
    rewrite run_bind.
    apply (steps_redis_get W same_stores). apply same_stores_event_ok. }
  destruct (fst from_redis) as [cached|]; [intros _; exact Hredis|].
  rewrite run_bind.
  assert (Hdisk : same_stores st (snd (disk_get W key (snd from_redis)))).
  { etransitivity; [exact Hredis|].
    apply (steps_disk_get W same_stores). apply same_stores_event_ok. }
  destruct (fst (disk_get W key (snd from_redis))) as [[cached|]|];
    try (intros _; exact Hdisk).
  destruct (truthy_dict cached) eqn:Htruthy; [|intros _; exact Hdisk].
  rewrite run_bind. cbn [mret M_ret fst truthy_opt_dict].
  rewrite Htruthy. discriminate.
Qed.

Lemma backend_chain_none_same_stores text source_lang target_lang start_time st :
  fst (backend_chain W text source_lang target_lang start_time st) = None ->
  same_stores st (snd (backend_chain W text source_lang target_lang start_time st)).
Proof.
  unfold backend_chain. rewrite !run_bind.
  pose proof (steps_translate_with_ai W same_stores text source_lang target_lang
                (same_stores_event_ok _) (same_stores_event_ok _) same_stores_models_ok st)
    as Hai.
  destruct (translate_with_ai W text source_lang target_lang st)
    as [[ai_result ai_method] st1].
  cbn [fst snd] in *.
  destruct (truthy_opt ai_result); [rewrite !run_bind; discriminate|].
  rewrite !run_bind.
  pose proof (steps_translate_with_google W same_stores text source_lang target_lang
                (same_stores_event_ok _) (same_stores_event_ok _)
                (fun _ => same_stores_event_ok _) st1) as Hgoogle.
  destruct (translate_with_google W text source_lang target_lang st1)
    as [[[google_result detected] google_method] st2].
  cbn [fst snd] in *.
  destruct (truthy_opt google_result); [rewrite !run_bind; discriminate|].
  rewrite !run_bind.
  pose proof (steps_translate_with_mymemory W same_stores text source_lang target_lang
                (same_stores_event_ok _) (same_stores_event_ok _) st2) as Hmymemory.
  destruct (translate_with_mymemory W text source_lang target_lang st2)
    as [[mymemory_result mymemory_method] st3].
  cbn [fst snd] in *.
  destruct (truthy_opt mymemory_result); [rewrite !run_bind; discriminate|].
  intros _. cbn [mret M_ret snd].
  etransitivity; [exact Hai|]. etransitivity; [exact Hgoogle|exact Hmymemory].
Qed.

(** X6. A failed translation is not cached: when [smart_translate] returns
    [None], Redis and the disk cache hold exactly what they held before
    the call. *)
Theorem failure_caches_nothing text source_lang target_lang st :
  fst (smart_translate W text source_lang target_lang st) = None ->
  same_stores st (snd (smart_translate W text source_lang target_lang st)).
Proof.
  destruct (smart_translate_cases W text source_lang target_lang st)
    as [(cached & _ & _ & Heq)|[Hmiss Heq]]; rewrite Heq.
  { unfold return_cached. rewrite run_bind. discriminate. }
  intros Hnone.
  etransitivity; [apply (steps_time_time W same_stores), same_stores_event_ok|].
  etransitivity; [apply (steps_resolve_source W same_stores); intros _;
                  apply same_stores_event_ok|].
  etransitivity; [apply probe_miss_same_stores; exact Hmiss|].
  apply backend_chain_none_same_stores. exact Hnone.
Qed.

End Stores.

(** ** The cache tiers of [ModelCache] *)

Lemma lit_inj (a b : string) : lit a = lit b -> a = b.
Proof.
  unfold lit. intros H.
  rewrite <- (string_of_list_ascii_of_string a), <- (string_of_list_ascii_of_string b).
  f_equal. revert H.
  generalize (list_ascii_of_string a) (list_ascii_of_string b).
  induction l as [|x l IH]; intros [|y l'] H; try discriminate H; [reflexivity|].
  cbn in H. injection H as Hxy Hrest. f_equal; [|apply IH; exact Hrest].
  rewrite <- (ascii_N_embedding x), <- (ascii_N_embedding y), Hxy. reflexivity.
Qed.

Lemma str_of_int_inj (a b : Z) : str_of_int a = str_of_int b -> a = b.
Proof.
  unfold str_of_int. intros H. apply lit_inj in H.
  assert (Hnonnil : forall z, Z.to_int z <> Decimal.Pos Decimal.Nil
                              /\ Z.to_int z <> Decimal.Neg Decimal.Nil).
  { intros [|p|p]; cbn; split; try discriminate;
      intros Hnil; injection Hnil; apply DecimalPos.Unsigned.to_uint_nonnil. }
  apply DecimalZ.to_int_inj.
  assert (Hparse : Some (Z.to_int a) = Some (Z.to_int b)).
  { rewrite <- (NilZero.isi (Z.to_int a)) by apply Hnonnil.
    rewrite <- (NilZero.isi (Z.to_int b)) by apply Hnonnil.
    rewrite H. reflexivity. }
  injection Hparse as Hparse. exact Hparse.
Qed.

(** Two strings cut at their first colon. *)
Lemma split_at_colon (a a' rest rest' : str) :
  58%N ∉ a -> 58%N ∉ a' ->
  a ++ lit ":" ++ rest = a' ++ lit ":" ++ rest' -> a = a' /\ rest = rest'.
Proof.
  change (lit ":") with [58%N].
  revert a'. induction a as [|c a IH]; intros [|c' a'] Ha Ha' H; cbn in H.
  - injection H as H. split; [reflexivity|exact H].
  - injection H as Hc _. exfalso. apply Ha'. rewrite <- Hc. left.
  - injection H as Hc _. exfalso. apply Ha. rewrite Hc. left.
  - injection H as Hc H. subst c'.
    destruct (IH a') as [-> ->]; [| |exact H|split; reflexivity].
    + intros Hin. apply Ha. right. exact Hin.
    + intros Hin. apply Ha'. right. exact Hin.
Qed.

Section Tiers.
Context (W : World).

(** X7. Two requests share a cache entry only when they agree on both
    languages and their texts have the same [hash]: as long as the joined
    key is at most 200 characters long and the language codes hold no
    colon, the key determines the two codes and the hash of the text. *)
Theorem translation_key_separates_languages text text' source_lang target_lang
    source_lang' target_lang' :
  58%N ∉ source_lang -> 58%N ∉ target_lang ->
  58%N ∉ source_lang' -> 58%N ∉ target_lang' ->
  len (join (lit ":") [source_lang; target_lang; str_of_int (py_hash W text)]) <= 200 ->
  len (join (lit ":") [source_lang'; target_lang'; str_of_int (py_hash W text')]) <= 200 ->
  translation_key W text source_lang target_lang
  = translation_key W text' source_lang' target_lang' ->
  source_lang = source_lang' /\ target_lang = target_lang'
  /\ py_hash W text = py_hash W text'.
Proof.
  intros Hs Ht Hs' Ht' Hshort Hshort' Hkey.
  unfold translation_key, _make_key in Hkey. cbn [List.map py_str] in Hkey.
  apply Z.ltb_ge in Hshort, Hshort'. rewrite Hshort, Hshort' in Hkey.
  apply app_inv_head in Hkey. apply app_inv_head in Hkey.
  cbn [join] in Hkey.
  apply split_at_colon in Hkey as [-> Hkey]; [|assumption..].
  apply split_at_colon in Hkey as [-> Hkey]; [|assumption..].
  apply str_of_int_inj in Hkey. auto.
Qed.

(** X8. [cache_translation] writes to one tier only, and only under the
    key of its arguments: every other key of Redis and of the disk cache
    keeps its entry, one of the two tiers is left exactly as it was, Redis
    is never written without a client, and the models are not touched. *)
Theorem cache_translation_one_tier text source_lang target_lang result ttl st :
  let key := translation_key W text source_lang target_lang in
  let st' := snd (cache_translation W text source_lang target_lang result ttl st) in
  model_cache st' = model_cache st
  /\ (forall other, other ≠ key ->
        redis_store st' !! other = redis_store st !! other
        /\ disk_cache st' !! other = disk_cache st !! other)
  /\ (redis_store st' = redis_store st \/ disk_cache st' = disk_cache st)
  /\ (redis_client st = false -> redis_store st' = redis_store st).
Proof.
  cbv zeta. rewrite cache_translation_run. cbn [snd].
  destruct (redis_client st) eqn:Hclient; cbn [andb].
  - destruct (redis_raises W (tick st)); cbn [negb].
    + destruct (disk_raises W _); cbn.
      * repeat split; auto; discriminate.
      * repeat split; auto; try discriminate.
        apply lookup_insert_ne. congruence.
    + cbn. repeat split; auto; try discriminate.
      apply lookup_insert_ne. congruence.
  - destruct (disk_raises W _); cbn.
    + repeat split; auto.
    + repeat split; auto. apply lookup_insert_ne. congruence.
Qed.

(** X9. When every Redis operation raises and the disk cache works, a stored
    result is not lost: the write falls through to the disk cache and a
    later probe reads it from there, provided it has not expired; the
    failed promotion back to Redis is swallowed. *)
Theorem redis_failure_falls_back_to_disk text source_lang target_lang result ttl st :
  redis_client st = true ->
  (forall k, redis_raises W k = true) ->
  (forall k, disk_raises W k = false) ->
  truthy_dict result = true ->
  ltb (clock W (tick st + 3)) (add (clock W (tick st + 1)) ttl) = true ->
  let key := translation_key W text source_lang target_lang in
  let st1 := snd (cache_translation W text source_lang target_lang result ttl st) in
  let probe := get_cached_translation W text source_lang target_lang st1 in
  fst probe = Some result
  /\ redis_store (snd probe) = redis_store st
  /\ trace (snd probe)
     = trace st ++ [EvRedisSetex key; EvDiskSet key; EvRedisGet key; EvDiskGet key;
                    EvRedisSetex key].
Proof.
  intros Hclient Hredis Hdisk Htruthy Hlive. cbv zeta.
  set (key := translation_key W text source_lang target_lang).
  replace (tick st + 3)%nat with (S (S (S (tick st)))) in Hlive by lia.
  replace (tick st + 1)%nat with (S (tick st)) in Hlive by lia.
  rewrite cache_translation_run. fold key. rewrite Hclient, Hredis. cbn [andb negb snd].
  cbn [record_event tick]. rewrite Hdisk.
  unfold get_cached_translation. fold key. rewrite !run_bind.
  cbn [get_state fst snd set_disk_cache record_event redis_client].
  rewrite Hclient. rewrite !run_bind. unfold redis_get. rewrite !run_bind.
  cbn [external fst snd tick]. rewrite Hredis. cbn [mret M_ret fst snd].
  rewrite !run_bind. unfold disk_get. rewrite !run_bind.
  cbn [external fst snd record_event tick]. rewrite Hdisk.
  rewrite !run_bind.
  cbn [get_state mret M_ret fst snd disk_cache tick record_event set_disk_cache].
  unfold read_store. rewrite lookup_insert_eq. unfold live. cbn [entry_expires entry_value].
  rewrite Hlive, Htruthy. rewrite !run_bind. unfold redis_setex. rewrite !run_bind.
  cbn [external fst snd tick]. rewrite Hredis.
  cbn [mret M_ret fst snd redis_store trace record_event].
  split; [reflexivity|]. split; [reflexivity|].
  cbn [trace set_disk_cache record_event]. rewrite <- !app_assoc. reflexivity.
Qed.

(** X10. A probe that misses in Redis and hits on disk copies the entry to
    Redis, and the copy expires 3600 seconds after the probe whatever the
    expiry of the entry on disk; the disk cache itself is not changed. *)
Theorem disk_hit_promoted_to_redis text source_lang target_lang st e :
  let key := translation_key W text source_lang target_lang in
  redis_client st = true ->
  redis_raises W (tick st) = false ->
  redis_raises W (tick st + 2) = false ->
  disk_raises W (tick st + 1) = false ->
  read_store (redis_store st) (clock W (tick st)) key = None ->
  disk_cache st !! key = Some e ->
  live (clock W (tick st + 1)) e = true ->
  truthy_dict (entry_value e) = true ->
  let probe := get_cached_translation W text source_lang target_lang st in
  fst probe = Some (entry_value e)
  /\ redis_store (snd probe) !! key
     = Some (mkEntry (entry_value e) (add (clock W (tick st + 2)) 3600))
  /\ disk_cache (snd probe) = disk_cache st.
Proof.
  cbv zeta. set (key := translation_key W text source_lang target_lang).
  intros Hclient Hget Hset Hdisk Hmiss Hstored Hlive Htruthy.
  replace (tick st + 2)%nat with (S (S (tick st))) in * by lia.
  replace (tick st + 1)%nat with (S (tick st)) in * by lia.
  unfold get_cached_translation. fold key. rewrite !run_bind.
  cbn [get_state fst snd]. rewrite Hclient. rewrite !run_bind.
  unfold redis_get. rewrite !run_bind. cbn [external fst snd]. rewrite Hget.
  rewrite !run_bind. cbn [get_state mret M_ret fst snd record_event redis_store].
  rewrite Hmiss. rewrite !run_bind. unfold disk_get. rewrite !run_bind.
  cbn [external fst snd tick record_event]. rewrite Hdisk.
  rewrite !run_bind. cbn [get_state mret M_ret fst snd disk_cache record_event].
  unfold read_store. rewrite Hstored, Hlive, Htruthy.
  rewrite !run_bind. unfold redis_setex. rewrite !run_bind.
  cbn [external fst snd tick record_event]. rewrite Hset.
  rewrite !run_bind. cbn. split; [reflexivity|]. split; [|reflexivity].
  apply lookup_insert_eq.
Qed.

End Tiers.

(** ** Loading models *)

Section Loader.
Context (W : World).

(** What [load_ai_model] does, by what the model map holds. *)
Lemma load_ai_model_run model_name st :
  load_ai_model W model_name st
  = match model_cache st !! model_name with
    | Some h => (Some h, st)
    | None =>
        if from_pretrained W (tick st) model_name
        then (Some (mkHandle model_name),
              set_model_cache (insert model_name (mkHandle model_name))
                (record_event (EvLoad model_name) st))
        else (None, record_event (EvLoad model_name) st)
    end.
Proof.
  unfold load_ai_model, get_model. rewrite !run_bind. cbn [get_state mret M_ret fst snd].
  destruct (model_cache st !! model_name); [reflexivity|].
  rewrite run_bind. cbn [external fst snd].
  destruct (from_pretrained W (tick st) model_name); reflexivity.
Qed.

Lemma load_ai_model_cached model_name st h st1 :
  load_ai_model W model_name st = (Some h, st1) ->
  model_cache st1 !! model_name = Some h.
Proof.
  rewrite load_ai_model_run.
  destruct (model_cache st !! model_name) as [h0|] eqn:Hcached.
  - intros H. inversion H; subst. exact Hcached.
  - destruct (from_pretrained W (tick st) model_name); [|discriminate].
    intros H. inversion H; subst. cbn. apply lookup_insert_eq.
Qed.

End Loader.

(** X11. A model that loaded once is served from memory from then on: a
    second [load_ai_model] for the same name returns the same pair and
    leaves the state as it is (the loader is not asked again), whatever
    the loader would answer now. *)
Theorem load_ai_model_memoised (W W' : World) model_name st h st1 :
  load_ai_model W model_name st = (Some h, st1) ->
  load_ai_model W' model_name st1 = (Some h, st1).
Proof.
  intros Hload. apply load_ai_model_cached in Hload.
  rewrite load_ai_model_run, Hload. reflexivity.
Qed.

(** X12. A load that fails is not remembered: the model map is as before,
    and the next [load_ai_model] for that name asks the loader again and
    returns what it answers then. *)
Theorem load_failure_is_retried (W : World) model_name st :
  fst (load_ai_model W model_name st) = None ->
  let st1 := snd (load_ai_model W model_name st) in
  let again := load_ai_model W model_name st1 in
  model_cache st1 = model_cache st
  /\ trace (snd again) = trace st ++ [EvLoad model_name; EvLoad model_name]
  /\ fst again = (if from_pretrained W (S (tick st)) model_name
                  then Some (mkHandle model_name) else None).
Proof.
  cbv zeta. rewrite load_ai_model_run.
  destruct (model_cache st !! model_name) as [h|] eqn:Hcached; [discriminate|].
  destruct (from_pretrained W (tick st) model_name); [discriminate|].
  intros _. cbn [snd]. rewrite load_ai_model_run.
  cbn [record_event model_cache tick]. rewrite Hcached.
  destruct (from_pretrained W (S (tick st)) model_name); cbn;
    rewrite <- app_assoc; repeat split; reflexivity.
Qed.

(** ** Retries in [translate_with_google] *)

Section Retries.
Context (W : World).

Lemma google_request_short text source_lang target_lang st :
  len text <= 4500 ->
  google_request W text source_lang target_lang st
  = (google_call W (tick st) source_lang target_lang text,
     record_event (EvGoogle source_lang target_lang text) st).
Proof.
  intros Hshort. unfold google_request.
  apply Z.ltb_ge in Hshort. change (Z.of_nat 4500) with 4500. rewrite Hshort.
  reflexivity.
Qed.

(** One attempt that raises, when it is not the last one. *)
Lemma google_attempts_retry attempt rest text source_lang target_lang st :
  source_lang ≠ lit "auto" -> len text <= 4500 ->
  (attempt < max_retries - 1)%nat ->
  google_call W (tick st) source_lang target_lang text = None ->
  google_attempts W (attempt :: rest) text source_lang target_lang st
  = google_attempts W rest text source_lang target_lang
      (record_event (EvSleep 1)
         (record_event (EvGoogle source_lang target_lang text) st)).
Proof.
  intros Hne Hshort Hattempt Hnone. cbn [google_attempts].
  rewrite (bool_decide_eq_false_2 _ Hne). rewrite !run_bind. cbn [mret M_ret fst snd].
  rewrite (google_request_short _ _ _ _ Hshort). cbn [fst snd]. rewrite Hnone.
  apply Nat.ltb_lt in Hattempt. rewrite Hattempt. reflexivity.
Qed.

(** One attempt that returns, a string or [None]. *)
Lemma google_attempts_answer attempt rest text source_lang target_lang st answer :
  source_lang ≠ lit "auto" -> len text <= 4500 ->
  google_call W (tick st) source_lang target_lang text = Some answer ->
  google_attempts W (attempt :: rest) text source_lang target_lang st
  = ((answer, Some source_lang, Some (lit "Google Translate")),
     record_event (EvGoogle source_lang target_lang text) st).
Proof.
  intros Hne Hshort Hsome. cbn [google_attempts].
  rewrite (bool_decide_eq_false_2 _ Hne). rewrite !run_bind. cbn [mret M_ret fst snd].
  rewrite (google_request_short _ _ _ _ Hshort). cbn [fst snd]. rewrite Hsome.
  reflexivity.
Qed.

Lemma google_attempts_last text source_lang target_lang st :
  source_lang ≠ lit "auto" -> len text <= 4500 ->
  google_call W (tick st) source_lang target_lang text = None ->
  google_attempts W [2%nat] text source_lang target_lang st
  = ((None, None, None), record_event (EvGoogle source_lang target_lang text) st).
Proof.
  intros Hne Hshort Hnone. cbn [google_attempts].
  rewrite (bool_decide_eq_false_2 _ Hne). rewrite !run_bind. cbn [mret M_ret fst snd].
  rewrite (google_request_short _ _ _ _ Hshort). cbn [fst snd]. rewrite Hnone.
  reflexivity.
Qed.

(** X13. [translate_with_google] asks at most three times, sleeps one second
    after a request that raised unless it was the third, and stops at the
    first request that returns.  For a text of at most 4500 characters and
    a given source language, every run has a number [n] of requests that
    raise before one returns ([n] is 3 when all three raise; request [i]
    is operation [tick st + 2 * i]).  When [n] is below 3 the result is
    what request [n] returned, be it a string or [None], with the source
    language and the method name; a returned [None] is not retried.  When
    [n] is 3 the result is three [None]s.  The operations performed are
    the first [2 * min n 2 + 1] of request, sleep, request, sleep,
    request. *)
Theorem translate_with_google_retries text source_lang target_lang st :
  source_lang ≠ lit "auto" ->
  len text <= 4500 ->
  let request i := google_call W (tick st + 2 * i) source_lang target_lang text in
  let run := translate_with_google W text source_lang target_lang st in
  exists n : nat,
    (n <= 3)%nat
    /\ (forall i, (i < n)%nat -> request i = None)
    /\ ((n < 3)%nat -> is_Some (request n))
    /\ fst run
       = (if (n <? 3)%nat
          then (default None (request n), Some source_lang, Some (lit "Google Translate"))
          else (None, None, None))
    /\ trace (snd run)
       = trace st
         ++ take (2 * Nat.min n 2 + 1)
              (concat (repeat [EvGoogle source_lang target_lang text; EvSleep 1] 3)).
Proof.
  intros Hne Hshort. cbv zeta.
  unfold translate_with_google. change (seq 0 max_retries) with [0; 1; 2]%nat.
  assert (E0 : (tick st + 2 * 0)%nat = tick st) by lia.
  assert (E1 : (tick st + 2 * 1)%nat = S (S (tick st))) by lia.
  assert (E2 : (tick st + 2 * 2)%nat = S (S (S (S (tick st))))) by lia.
  destruct (google_call W (tick st) source_lang target_lang text)
    as [answer0|] eqn:H0.
  { exists 0%nat. rewrite E0, H0.
    rewrite (google_attempts_answer _ _ _ _ _ _ answer0); [|exact Hne|exact Hshort|exact H0].
    split; [lia|]. split; [intros i Hi; lia|]. split; [intros _; eauto|].
    split; reflexivity. }
  rewrite google_attempts_retry;
    [|exact Hne|exact Hshort|unfold max_retries; lia|exact H0].
  destruct (google_call W (S (S (tick st))) source_lang target_lang text)
    as [answer1|] eqn:H1.
  { exists 1%nat. rewrite E1, H1.
    rewrite (google_attempts_answer _ _ _ _ _ _ answer1); [|exact Hne|exact Hshort|exact H1].
    split; [lia|].
    split; [intros [|i] Hi; [rewrite E0; exact H0|lia]|].
    split; [intros _; eauto|].
    cbn. rewrite <- !app_assoc. split; reflexivity. }
  rewrite google_attempts_retry;
    [|exact Hne|exact Hshort|unfold max_retries; lia|exact H1].
  destruct (google_call W (S (S (S (S (tick st))))) source_lang target_lang text)
    as [answer2|] eqn:H2.
  { exists 2%nat. rewrite E2, H2.
    rewrite (google_attempts_answer _ _ _ _ _ _ answer2); [|exact Hne|exact Hshort|exact H2].
    split; [lia|].
    split; [intros [|[|i]] Hi; [rewrite E0; exact H0|rewrite E1; exact H1|lia]|].
    split; [intros _; eauto|].
    cbn. rewrite <- !app_assoc. split; reflexivity. }
  exists 3%nat.
  rewrite google_attempts_last; [|exact Hne|exact Hshort|exact H2].
  split; [lia|].
  split; [intros [|[|[|i]]] Hi;
          [rewrite E0; exact H0|rewrite E1; exact H1|rewrite E2; exact H2|lia]|].
  split; [intros Hlt; lia|].
  cbn. rewrite <- !app_assoc. split; reflexivity.
Qed.

End Retries.

(** ** Long texts in the two web services *)

Lemma strings_of_Some (ps : list str) : strings_of (List.map Some ps) = Some ps.
Proof. induction ps as [|p ps IH]; [reflexivity|]. cbn. rewrite IH. reflexivity. Qed.

Lemma join_parts_Some (sep : str) (ps : list str) :
  join_parts sep (List.map Some ps) = Some (join sep ps).
Proof. unfold join_parts. rewrite strings_of_Some. reflexivity. Qed.

(** A list of answers none of which is [None]. *)
Lemma all_strings (parts : list (option str)) :
  (forall i part, parts !! i = Some part -> is_Some part) ->
  exists ps, parts = List.map Some ps.
Proof.
  induction parts as [|part parts IH]; intros Hall.
  - exists []. reflexivity.
  - destruct (Hall 0%nat part eq_refl) as [p ->].
    destruct IH as [ps ->].
    { intros i q Hq. apply (Hall (S i) q). exact Hq. }
    exists (p :: ps). reflexivity.
Qed.

(** What a paced loop over a service that answers a string for every chunk
    collects. *)
Lemma paced_strings (call : nat -> str -> option (option str))
    (translate : nat -> str -> option str) (l : list str) (outputs : list (option str))
    (first : nat) :
  (forall k chunk result, translate k chunk = Some result ->
     call k chunk = Some (Some result)) ->
  (forall i chunk, l !! i = Some chunk -> is_Some (translate (first + 2 * i)%nat chunk)) ->
  length outputs = length l ->
  (forall i chunk, l !! i = Some chunk -> call (first + 2 * i)%nat chunk = outputs !! i) ->
  exists ps,
    outputs = List.map Some ps
    /\ length ps = length l
    /\ forall i chunk, l !! i = Some chunk -> translate (first + 2 * i)%nat chunk = ps !! i.
Proof.
  intros Hcall Hall Hlen Hsame.
  destruct (all_strings outputs) as [ps ->].
  { intros i part Hpart.
    destruct (lookup_lt_is_Some_2 l i) as [chunk Hchunk].
    { rewrite <- Hlen. eapply lookup_lt_Some. exact Hpart. }
    destruct (Hall i chunk Hchunk) as [result Hresult].
    pose proof (Hsame i chunk Hchunk) as E.
    rewrite (Hcall _ _ _ Hresult), Hpart in E. injection E as <-. eauto. }
  exists ps. split; [reflexivity|]. split; [rewrite length_map in Hlen; exact Hlen|].
  intros i chunk Hchunk.
  destruct (Hall i chunk Hchunk) as [result Hresult].
  pose proof (Hsame i chunk Hchunk) as E.
  rewrite (Hcall _ _ _ Hresult), list_lookup_fmap in E.
  rewrite Hresult.
  destruct (ps !! i) as [p|]; cbn in E; [injection E as ->; reflexivity|discriminate E].
Qed.

Section Paced.
Context {B : Type} (ev : str -> Event) (answer : nat -> str -> option B) (pause : float).

(** A loop that asks a service for each chunk and sleeps after each
    answer: two operations per chunk. *)
Lemma for_each_try_paced (l : list str) (st : State) :
  (forall i chunk, l !! i = Some chunk -> is_Some (answer (tick st + 2 * i) chunk)) ->
  exists outputs st',
    for_each_try
      (fun chunk =>
         k ← external (ev chunk);
         match answer k chunk with
         | Some chunk_result => _ ← time_sleep pause; mret (Some chunk_result)
         | None => mret None
         end) l st
    = (Some outputs, st')
    /\ length outputs = length l
    /\ (forall i chunk, l !! i = Some chunk -> answer (tick st + 2 * i) chunk = outputs !! i)
    /\ trace st' = trace st ++ flat_map (fun chunk => [ev chunk; EvSleep pause]) l.
Proof.
  set (body := fun chunk : str => _).
  revert st. induction l as [|chunk l IH]; intros st Hall.
  - exists [], st. cbn. rewrite app_nil_r.
    repeat split; try reflexivity. intros i c Hc. discriminate Hc.
  - destruct (Hall 0%nat chunk eq_refl) as [out Hout].
    rewrite Nat.mul_0_r, Nat.add_0_r in Hout.
    destruct (IH (record_event (EvSleep pause) (record_event (ev chunk) st)))
      as (outputs & st' & Hrun & Hlen & Hsame & Htrace).
    { intros i c Hc. cbn [record_event tick].
      replace (S (S (tick st)) + 2 * i)%nat with (tick st + 2 * S i)%nat by lia.
      apply Hall. exact Hc. }
    exists (out :: outputs), st'.
    split.
    { assert (Hbody : body chunk st
                      = (Some out, record_event (EvSleep pause) (record_event (ev chunk) st))).
      { unfold body. rewrite !run_bind. cbn [external fst snd]. rewrite Hout.
        reflexivity. }
      cbn [for_each_try]. rewrite run_bind, Hbody. cbn [fst snd].
      rewrite run_bind, Hrun. reflexivity. }
    split; [cbn; lia|]. split.
    { intros [|i] c Hc.
      - cbn in Hc. inversion Hc; subst. rewrite Nat.mul_0_r, Nat.add_0_r. exact Hout.
      - cbn in Hc. change ((out :: outputs) !! S i) with (outputs !! i).
        rewrite <- (Hsame i c Hc).
        cbn [record_event tick]. f_equal. lia. }
    rewrite Htrace. cbn [record_event trace flat_map]. rewrite <- !app_assoc. reflexivity.
Qed.

End Paced.

(** X14. A text of more than 450 characters goes to MyMemory in consecutive
    chunks of 450 characters, with a pause of 0.2 seconds after each
    answer, also after the last; when the service answers for every chunk
    the result is the answers joined by single spaces, with the method
    ["MyMemory"]. *)
Theorem translate_with_mymemory_chunked (W : World) text source_lang target_lang st :
  450 < len text ->
  (forall i chunk, chunks 450 text !! i = Some chunk ->
     is_Some (mymemory_translate W (tick st + 2 * i) source_lang target_lang chunk)) ->
  exists outputs st',
    translate_with_mymemory W text source_lang target_lang st
    = ((Some (join (lit " ") outputs), Some (lit "MyMemory")), st')
    /\ length outputs = length (chunks 450 text)
    /\ (forall i chunk, chunks 450 text !! i = Some chunk ->
          mymemory_translate W (tick st + 2 * i) source_lang target_lang chunk
          = outputs !! i)
    /\ trace st'
       = trace st
         ++ flat_map (fun chunk => [EvMyMemory source_lang target_lang chunk; EvSleep 0.2])
              (chunks 450 text)
    /\ concat (chunks 450 text) = text.
Proof.
  intros Hlong Hall.
  assert (Hcall : forall k chunk result,
             mymemory_translate W k source_lang target_lang chunk = Some result ->
             mymemory_call W k source_lang target_lang chunk = Some (Some result)).
  { intros k chunk result Hresult. unfold mymemory_call. rewrite Hresult. reflexivity. }
  destruct (for_each_try_paced (EvMyMemory source_lang target_lang)
              (fun k => mymemory_call W k source_lang target_lang) 0.2
              (chunks 450 text) st)
    as (parts & st' & Hrun & Hlen & Hsame & Htrace).
  { intros i chunk Hchunk. destruct (Hall i chunk Hchunk) as [result Hresult].
    rewrite (Hcall _ _ _ Hresult). eauto. }
  destruct (paced_strings (fun k => mymemory_call W k source_lang target_lang)
              (fun k => mymemory_translate W k source_lang target_lang)
              (chunks 450 text) parts (tick st) Hcall Hall Hlen Hsame)
    as (outputs & -> & Hlength & Hanswers).
  exists outputs, st'. split.
  { unfold translate_with_mymemory.
    apply Z.ltb_lt in Hlong. change (Z.of_nat 450) with 450. rewrite Hlong.
    rewrite !run_bind. cbv beta in Hrun. rewrite Hrun. cbn [fst snd mret M_ret].
    rewrite join_parts_Some. reflexivity. }
  split; [exact Hlength|]. split; [exact Hanswers|]. split; [exact Htrace|].
  apply chunks_concat. lia.
Qed.

(** X15. A text of more than 4500 characters and a given source language:
    when Google answers for every chunk, the first attempt of
    [translate_with_google] returns the answers joined by single spaces,
    having asked once per chunk of 4500 characters with a pause of 0.1
    seconds after each answer and no retry. *)
Theorem translate_with_google_chunked (W : World) text source_lang target_lang st :
  source_lang ≠ lit "auto" ->
  4500 < len text ->
  (forall i chunk, chunks 4500 text !! i = Some chunk ->
     is_Some (google_translate W (tick st + 2 * i) source_lang target_lang chunk)) ->
  exists outputs st',
    translate_with_google W text source_lang target_lang st
    = ((Some (join (lit " ") outputs), Some source_lang, Some (lit "Google Translate")),
       st')
    /\ length outputs = length (chunks 4500 text)
    /\ (forall i chunk, chunks 4500 text !! i = Some chunk ->
          google_translate W (tick st + 2 * i) source_lang target_lang chunk
          = outputs !! i)
    /\ trace st'
       = trace st
         ++ flat_map (fun chunk => [EvGoogle source_lang target_lang chunk; EvSleep 0.1])
              (chunks 4500 text).
Proof.
  intros Hne Hlong Hall.
  assert (Hcall : forall k chunk result,
             google_translate W k source_lang target_lang chunk = Some result ->
             google_call W k source_lang target_lang chunk = Some (Some result)).
  { intros k chunk result Hresult. unfold google_call. rewrite Hresult. reflexivity. }
  destruct (for_each_try_paced (EvGoogle source_lang target_lang)
              (fun k => google_call W k source_lang target_lang) 0.1
              (chunks 4500 text) st)
    as (parts & st' & Hrun & Hlen & Hsame & Htrace).
  { intros i chunk Hchunk. destruct (Hall i chunk Hchunk) as [result Hresult].
    rewrite (Hcall _ _ _ Hresult). eauto. }
  destruct (paced_strings (fun k => google_call W k source_lang target_lang)
              (fun k => google_translate W k source_lang target_lang)
              (chunks 4500 text) parts (tick st) Hcall Hall Hlen Hsame)
    as (outputs & -> & Hlength & Hanswers).
  exists outputs, st'. split.
  { unfold translate_with_google. change (seq 0 max_retries) with [0; 1; 2]%nat.
    cbn [google_attempts]. rewrite (bool_decide_eq_false_2 _ Hne).
    rewrite !run_bind. cbn [mret M_ret fst snd].
    unfold google_request.
    apply Z.ltb_lt in Hlong. change (Z.of_nat 4500) with 4500. rewrite Hlong.
    rewrite !run_bind. cbv beta in Hrun. rewrite Hrun. cbn [fst snd mret M_ret].
    rewrite join_parts_Some. reflexivity. }
  split; [exact Hlength|]. split; [exact Hanswers|]. exact Htrace.
Qed.

(** ** A chunk the model fails on *)

Section FailingChunk.
Context (W : World) (h : ModelHandle).

Lemma generate_until_failure (l : list str) (k : nat) (chunk_k : str) (st : State) :
  l !! k = Some chunk_k ->
  (forall i chunk, (i < k)%nat -> l !! i = Some chunk ->
     is_Some (marian_generate W (tick st + i) (handle_name h) chunk)) ->
  marian_generate W (tick st + k) (handle_name h) chunk_k = None ->
  exists st',
    for_each_try (generate W h) l st = (None, st')
    /\ trace st' = trace st ++ List.map (EvGenerate (handle_name h)) (take (S k) l).
Proof.
  revert k st. induction l as [|chunk l IH]; intros k st Hk Hbefore Hfail.
  - discriminate Hk.
  - destruct k as [|k].
    + cbn in Hk. inversion Hk; subst. rewrite Nat.add_0_r in Hfail.
      eexists. split.
      * cbn [for_each_try]. rewrite run_bind. unfold generate. rewrite run_bind.
        cbn [external mret M_ret fst snd]. rewrite Hfail. reflexivity.
      * reflexivity.
    + destruct (Hbefore 0%nat chunk ltac:(lia) eq_refl) as [out Hout].
      rewrite Nat.add_0_r in Hout.
      destruct (IH k (record_event (EvGenerate (handle_name h) chunk) st))
        as (st' & Hrun & Htrace).
      { exact Hk. }
      { intros i c Hi Hc. cbn [record_event tick].
        replace (S (tick st) + i)%nat with (tick st + S i)%nat by lia.
        apply Hbefore; [lia|exact Hc]. }
      { cbn [record_event tick].
        replace (S (tick st) + k)%nat with (tick st + S k)%nat by lia. exact Hfail. }
      exists st'. split.
      * assert (Hgen : generate W h chunk st
                       = (Some out, record_event (EvGenerate (handle_name h) chunk) st)).
        { unfold generate. rewrite run_bind. cbn [external fst snd mret M_ret].
          rewrite Hout. reflexivity. }
        cbn [for_each_try]. rewrite run_bind, Hgen. cbn [fst snd].
        rewrite run_bind, Hrun. reflexivity.
      * rewrite Htrace. cbn [record_event trace]. rewrite <- app_assoc. reflexivity.
Qed.

End FailingChunk.

(** X16. When the model fails on one chunk of a long text, [translate_with_ai]
    stops there: the chunks after it are not sent to the model, the
    translations of the chunks before it are dropped, and the answer is
    [(None, None)]. *)
Theorem translate_with_ai_failing_chunk (W : World) (text source_lang target_lang : str)
    (st st1 : State) (h : ModelHandle) (k : nat) (chunk_k : str) :
  400 < len text ->
  strip text ≠ [] ->
  load_ai_model W (lit "Helsinki-NLP/opus-mt-" ++ source_lang ++ lit "-" ++ target_lang) st
  = (Some h, st1) ->
  chunks 400 text !! k = Some chunk_k ->
  (forall i chunk, (i < k)%nat -> chunks 400 text !! i = Some chunk ->
     is_Some (marian_generate W (tick st1 + i) (handle_name h) chunk)) ->
  marian_generate W (tick st1 + k) (handle_name h) chunk_k = None ->
  exists st2,
    translate_with_ai W text source_lang target_lang st = ((None, None), st2)
    /\ trace st2
       = trace st1 ++ List.map (EvGenerate (handle_name h)) (take (S k) (chunks 400 text)).
Proof.
  intros Hlong Hblank Hload Hk Hbefore Hfail.
  destruct (generate_until_failure W h (chunks 400 text) k chunk_k st1 Hk Hbefore Hfail)
    as (st2 & Hrun & Htrace).
  exists st2. split; [|exact Htrace].
  unfold translate_with_ai.
  rewrite (truthy_str_nonempty _ Hblank). cbn [negb].
  rewrite run_bind, Hload. cbn [fst snd].
  apply Z.ltb_lt in Hlong. change (Z.of_nat 400) with 400. rewrite Hlong.
  rewrite !run_bind, Hrun. reflexivity.
Qed.

(** ** What [validate_input] accepts *)

Lemma strip_empty : strip [] = [].
Proof. reflexivity. Qed.

(** X17. [validate_input] returns no error exactly for a text that is not
    made of whitespace only, is at most 10000 characters long, and whose
    source language differs from the target unless it is ["auto"]. *)
Theorem validate_input_accepts (text source_lang target_lang : str) :
  validate_input (Some text) source_lang target_lang = Returns []
  <-> (strip text ≠ [] /\ len text <= 10000
       /\ (source_lang = target_lang -> source_lang = lit "auto")).
Proof.
  unfold validate_input. cbn [app].
  assert (Hblank : negb (truthy_str text) || negb (truthy_str (strip text)) = false
                   <-> strip text ≠ []).
  { destruct text as [|c text]; cbn [truthy_str negb orb].
    - rewrite strip_empty. split; [discriminate|congruence].
    - unfold truthy_str. destruct (strip (c :: text)); cbn; split;
        congruence. }
  destruct (negb (truthy_str text) || negb (truthy_str (strip text))) eqn:Hb.
  - split.
    + intros H. exfalso.
      destruct (10000 <? len text);
        destruct (bool_decide (source_lang = target_lang)
                  && negb (bool_decide (source_lang = lit "auto")));
        discriminate H.
    + intros [Hstrip _]. apply Hblank in Hstrip. discriminate Hstrip.
  - destruct (10000 <? len text) eqn:Hlen.
    + split.
      * intros H. exfalso.
        destruct (bool_decide (source_lang = target_lang)
                  && negb (bool_decide (source_lang = lit "auto")));
          discriminate H.
      * intros (_ & Hle & _). apply Z.ltb_lt in Hlen. lia.
    + apply Z.ltb_ge in Hlen.
      destruct (bool_decide (source_lang = target_lang)
                && negb (bool_decide (source_lang = lit "auto"))) eqn:Hsame.
      * split; [discriminate|].
        intros (_ & _ & Hauto). exfalso.
        apply andb_prop in Hsame as [Heq Hnot].
        apply bool_decide_eq_true in Heq. apply negb_true_iff in Hnot.
        apply bool_decide_eq_false in Hnot. auto.
      * split; [|reflexivity]. intros _.
        split; [apply Hblank; reflexivity|]. split; [exact Hlen|].
        intros Heq. apply andb_false_iff in Hsame as [Hne|Hauto].
        -- apply bool_decide_eq_false in Hne. contradiction.
        -- apply negb_false_iff in Hauto. apply bool_decide_eq_true in Hauto.
           exact Hauto.
Qed.

(** ** The table of offline models *)

Section OfflineTable.
Import OfflineTranslator.

(** The entries of [offline_pairs], one by one. *)
Lemma offline_pairs_entries source target model_name :
  offline_pairs !! (source, target) = Some model_name ->
  In ((source, target), model_name)
    [ ((lit "en", lit "es"), lit "Helsinki-NLP/opus-mt-en-es");
      ((lit "en", lit "fr"), lit "Helsinki-NLP/opus-mt-en-fr");
      ((lit "en", lit "de"), lit "Helsinki-NLP/opus-mt-en-de");
      ((lit "en", lit "it"), lit "Helsinki-NLP/opus-mt-en-it");
      ((lit "en", lit "pt"), lit "Helsinki-NLP/opus-mt-en-pt");
      ((lit "en", lit "ru"), lit "Helsinki-NLP/opus-mt-en-ru");
      ((lit "en", lit "zh"), lit "Helsinki-NLP/opus-mt-en-zh");
      ((lit "en", lit "ja"), lit "Helsinki-NLP/opus-mt-en-jap");
      ((lit "en", lit "ko"), lit "Helsinki-NLP/opus-mt-en-ko");
      ((lit "en", lit "ar"), lit "Helsinki-NLP/opus-mt-en-ar");
      ((lit "en", lit "hi"), lit "Helsinki-NLP/opus-mt-en-hi");
      ((lit "en", lit "nl"), lit "Helsinki-NLP/opus-mt-en-nl");
      ((lit "en", lit "sv"), lit "Helsinki-NLP/opus-mt-en-sv");
      ((lit "en", lit "da"), lit "Helsinki-NLP/opus-mt-en-da");
      ((lit "en", lit "no"), lit "Helsinki-NLP/opus-mt-en-no");
      ((lit "en", lit "fi"), lit "Helsinki-NLP/opus-mt-en-fi");
      ((lit "en", lit "pl"), lit "Helsinki-NLP/opus-mt-en-pl");
      ((lit "en", lit "tr"), lit "Helsinki-NLP/opus-mt-en-tr");
      ((lit "es", lit "en"), lit "Helsinki-NLP/opus-mt-es-en");
      ((lit "fr", lit "en"), lit "Helsinki-NLP/opus-mt-fr-en");
      ((lit "de", lit "en"), lit "Helsinki-NLP/opus-mt-de-en");
      ((lit "it", lit "en"), lit "Helsinki-NLP/opus-mt-it-en");
      ((lit "pt", lit "en"), lit "Helsinki-NLP/opus-mt-pt-en");
      ((lit "ru", lit "en"), lit "Helsinki-NLP/opus-mt-ru-en");
      ((lit "zh", lit "en"), lit "Helsinki-NLP/opus-mt-zh-en");
      ((lit "ja", lit "en"), lit "Helsinki-NLP/opus-mt-jap-en");
      ((lit "ko", lit "en"), lit "Helsinki-NLP/opus-mt-ko-en");
      ((lit "ar", lit "en"), lit "Helsinki-NLP/opus-mt-ar-en");
      ((lit "hi", lit "en"), lit "Helsinki-NLP/opus-mt-hi-en");
      ((lit "nl", lit "en"), lit "Helsinki-NLP/opus-mt-nl-en");
      ((lit "sv", lit "en"), lit "Helsinki-NLP/opus-mt-sv-en");
      ((lit "da", lit "en"), lit "Helsinki-NLP/opus-mt-da-en");
      ((lit "no", lit "en"), lit "Helsinki-NLP/opus-mt-no-en");
      ((lit "fi", lit "en"), lit "Helsinki-NLP/opus-mt-fi-en");
      ((lit "pl", lit "en"), lit "Helsinki-NLP/opus-mt-pl-en");
      ((lit "tr", lit "en"), lit "Helsinki-NLP/opus-mt-tr-en");
      ((lit "es", lit "fr"), lit "Helsinki-NLP/opus-mt-es-fr");
      ((lit "fr", lit "es"), lit "Helsinki-NLP/opus-mt-fr-es");
      ((lit "es", lit "it"), lit "Helsinki-NLP/opus-mt-es-it");
      ((lit "it", lit "es"), lit "Helsinki-NLP/opus-mt-it-es");
      ((lit "fr", lit "de"), lit "Helsinki-NLP/opus-mt-fr-de");
      ((lit "de", lit "fr"), lit "Helsinki-NLP/opus-mt-de-fr") ].
Proof.
  intros Hentry. apply list_elem_of_In.
  apply elem_of_list_to_map_2. exact Hentry.
Qed.

Ltac each_offline_pair H :=
  apply offline_pairs_entries in H; cbn [In] in H;
  repeat (destruct H as [H|H]; [injection H as <- <- <-|]); [..|contradiction].

Lemma is_offline_available_entry source target :
  is_offline_available source target = true ->
  exists model_name, offline_pairs !! (source, target) = Some model_name.
Proof.
  unfold is_offline_available. intros H. apply bool_decide_eq_true in H.
  destruct H as [model_name H]. exists model_name. exact H.
Qed.

(** The model [translate_with_ai] asks for is the one the table names,
    unless one of the two languages is Japanese. *)
Lemma offline_model_name source target model_name :
  offline_pairs !! (source, target) = Some model_name ->
  source ≠ lit "ja" -> target ≠ lit "ja" ->
  model_name = lit "Helsinki-NLP/opus-mt-" ++ source ++ lit "-" ++ target.
Proof.
  intros Hentry. each_offline_pair Hentry; intros Hs Ht;
    solve [reflexivity | exfalso; apply Hs; reflexivity | exfalso; apply Ht; reflexivity].
Qed.

(** X18. The table of offline models is symmetric and stays within the
    supported languages: a pair has an offline model exactly when the
    reverse pair has one, and then the two languages are distinct entries
    of [supported_languages]. *)
Theorem offline_pairs_symmetric source target :
  is_offline_available source target = is_offline_available target source
  /\ (is_offline_available source target = true ->
      contains supported_languages source = true
      /\ contains supported_languages target = true
      /\ bool_decide (source = target) = false).
Proof.
  assert (Hflip : forall a b, is_offline_available a b = true ->
                              is_offline_available b a = true
                              /\ contains supported_languages a = true
                              /\ contains supported_languages b = true
                              /\ bool_decide (a = b) = false).
  { intros a b H. apply is_offline_available_entry in H as [model_name H].
    each_offline_pair H; repeat split; vm_compute; reflexivity. }
  split.
  - destruct (is_offline_available source target) eqn:Hst.
    + symmetry. apply Hflip. exact Hst.
    + destruct (is_offline_available target source) eqn:Hts; [|reflexivity].
      apply Hflip in Hts. rewrite Hst in Hts. apply Hts.
  - intros H. apply Hflip in H. tauto.
Qed.

(** X19. The table and [translate_with_ai] disagree on Japanese only: the
    model the table names for a pair is the one [translate_with_ai] builds
    the name of, ["Helsinki-NLP/opus-mt-<source>-<target>"], exactly when
    neither language is ["ja"] (for which the table says ["jap"]). *)
Theorem offline_model_names source target model_name :
  offline_pairs !! (source, target) = Some model_name ->
  (model_name = lit "Helsinki-NLP/opus-mt-" ++ source ++ lit "-" ++ target
   <-> source ≠ lit "ja" /\ target ≠ lit "ja").
Proof.
  intros Hentry. split.
  - intros Hname. each_offline_pair Hentry;
      solve [split; discriminate | discriminate Hname].
  - intros [Hs Ht]. apply offline_model_name; assumption.
Qed.

End OfflineTable.

(** ** Preloading *)

Section Preload.
Import OfflineTranslator.
Context (W : World).

Lemma load_ai_model_keeps model_name st other :
  is_Some (model_cache st !! other) ->
  is_Some (model_cache (snd (load_ai_model W model_name st)) !! other).
Proof.
  intros Hother. rewrite load_ai_model_run.
  destruct (model_cache st !! model_name) as [h|] eqn:Hcached; [exact Hother|].
  destruct (from_pretrained W (tick st) model_name); [|exact Hother].
  cbn. destruct (decide (model_name = other)) as [->|Hne].
  - rewrite lookup_insert_eq. eauto.
  - rewrite lookup_insert_ne by exact Hne. exact Hother.
Qed.

(** The loop of [preload_models], whatever was collected before it. *)
Lemma preload_loop_spec language_pairs results st :
  let run := preload_loop W language_pairs results st in
  (forall other, is_Some (model_cache st !! other) ->
                 is_Some (model_cache (snd run) !! other))
  /\ (length (loaded (fst run)) + length (errors (fst run))
      = length (loaded results) + length (errors results)
        + length (List.filter (fun p => is_offline_available (fst p) (snd p))
                    language_pairs))%nat
  /\ (forall x, In x (loaded (fst run)) ->
        In x (loaded results)
        \/ exists source target model_name,
             x = (source, target, model_name)
             /\ In (source, target) language_pairs
             /\ offline_pairs !! (source, target) = Some model_name
             /\ is_Some (model_cache (snd run) !! model_name))
  /\ (forall x, In x (errors (fst run)) ->
        In x (errors results)
        \/ exists source target,
             x = (source, target, lit "Failed to load model")
             /\ In (source, target) language_pairs
             /\ is_offline_available source target = true).
Proof.
  cbv zeta. revert results st.
  induction language_pairs as [|[source target] rest IH]; intros results st.
  - cbn. repeat split; auto; lia.
  - cbn [preload_loop List.filter fst snd]. unfold is_offline_available at 1.
    destruct (offline_pairs !! (source, target)) as [model_name|] eqn:Hentry.
    + rewrite (bool_decide_eq_true_2 _ (mk_is_Some _ _ eq_refl)).
      rewrite run_bind.
      pose proof (load_ai_model_keeps model_name st) as Hkeeps.
      destruct (load_ai_model W model_name st) as [[h|] st1] eqn:Hload;
        cbn [fst snd] in *.
      * apply load_ai_model_cached in Hload.
        match goal with |- context [preload_loop W rest ?r st1] =>
          destruct (IH r st1) as (Hmodels & Hcount & Hloaded & Herrors) end.
        cbn [loaded errors] in *.
        split; [intros other Hother; apply Hmodels, Hkeeps, Hother|].
        split; [rewrite Hcount, length_app; cbn; lia|].
        split.
        -- intros x Hx. apply Hloaded in Hx as [Hx|Hx].
           ++ apply in_app_or in Hx as [Hx|[<-|[]]]; [left; exact Hx|].
              right. exists source, target, model_name.
              repeat split; [left; reflexivity|exact Hentry|].
              apply Hmodels. rewrite Hload. eauto.
           ++ right. destruct Hx as (s & t & m & -> & Hin & Hm & Hc).
              exists s, t, m. repeat split; [right; exact Hin|exact Hm|exact Hc].
        -- intros x Hx. apply Herrors in Hx as [Hx|Hx]; [left; exact Hx|].
           right. destruct Hx as (s & t & -> & Hin & Ha).
           exists s, t. repeat split; [right; exact Hin|exact Ha].
      * match goal with |- context [preload_loop W rest ?r st1] =>
          destruct (IH r st1) as (Hmodels & Hcount & Hloaded & Herrors) end.
        cbn [loaded errors] in *.
        split; [intros other Hother; apply Hmodels, Hkeeps, Hother|].
        split; [rewrite Hcount, length_app; cbn; lia|].
        split.
        -- intros x Hx. apply Hloaded in Hx as [Hx|Hx]; [left; exact Hx|].
           right. destruct Hx as (s & t & m & -> & Hin & Hm & Hc).
           exists s, t, m. repeat split; [right; exact Hin|exact Hm|exact Hc].
        -- intros x Hx. apply Herrors in Hx as [Hx|Hx].
           ++ apply in_app_or in Hx as [Hx|[<-|[]]]; [left; exact Hx|].
              right. exists source, target.
              repeat split; [left; reflexivity|].
              unfold is_offline_available. rewrite Hentry.
              apply bool_decide_eq_true_2. eauto.
           ++ right. destruct Hx as (s & t & -> & Hin & Ha).
              exists s, t. repeat split; [right; exact Hin|exact Ha].
    + rewrite (bool_decide_eq_false_2 (is_Some None)) by (intros [? ?]; discriminate).
      destruct (IH results st) as (Hmodels & Hcount & Hloaded & Herrors).
      split; [exact Hmodels|]. split; [exact Hcount|].
      split.
      * intros x Hx. apply Hloaded in Hx as [Hx|Hx]; [left; exact Hx|].
        right. destruct Hx as (s & t & m & -> & Hin & Hm & Hc).
        exists s, t, m. repeat split; [right; exact Hin|exact Hm|exact Hc].
      * intros x Hx. apply Herrors in Hx as [Hx|Hx]; [left; exact Hx|].
        right. destruct Hx as (s & t & -> & Hin & Ha).
        exists s, t. repeat split; [right; exact Hin|exact Ha].
Qed.

(** X20. [preload_models] accounts for every requested pair the table knows,
    once, and skips the others without a word: the loaded and the failed
    entries together are as many as the requested pairs with an offline
    model; a loaded entry names a requested pair and its model from the
    table; a failed entry names a requested pair of the table and carries
    the message ["Failed to load model"]. *)
Theorem preload_models_accounting language_pairs st :
  let results := fst (preload_models W (Some language_pairs) st) in
  (length (loaded results) + length (errors results)
   = length (List.filter (fun p => is_offline_available (fst p) (snd p)) language_pairs))%nat
  /\ (forall source target model_name,
        In (source, target, model_name) (loaded results) ->
        In (source, target) language_pairs
        /\ offline_pairs !! (source, target) = Some model_name)
  /\ (forall source target message,
        In (source, target, message) (errors results) ->
        In (source, target) language_pairs
        /\ is_offline_available source target = true
        /\ message = lit "Failed to load model").
Proof.
  cbv zeta. unfold preload_models. cbn [default].
  destruct (preload_loop_spec language_pairs (mkPreloadResults [] []) st)
    as (_ & Hcount & Hloaded & Herrors).
  cbn [loaded errors length] in *.
  split; [exact Hcount|]. split.
  - intros source target model_name Hin.
    apply Hloaded in Hin as [[]|(s & t & m & Heq & Hin & Hm & _)].
    injection Heq as -> -> ->. split; assumption.
  - intros source target message Hin.
    apply Herrors in Hin as [[]|(s & t & Heq & Hin & Ha)].
    injection Heq as -> -> ->. repeat split; assumption.
Qed.

(** A model that is in the map: [translate_with_ai] only calls it. *)
Lemma translate_with_ai_loaded W' text source_lang target_lang st :
  is_Some (model_cache st
             !! (lit "Helsinki-NLP/opus-mt-" ++ source_lang ++ lit "-" ++ target_lang)) ->
  grows not_load st (snd (translate_with_ai W' text source_lang target_lang st)).
Proof.
  intros [h Hcached]. unfold translate_with_ai.
  destruct (negb (truthy_str (strip text))); [reflexivity|].
  rewrite run_bind, load_ai_model_run, Hcached. cbn [fst snd].
  apply (steps_bind (grows not_load)).
  - destruct (Z.of_nat 400 <? len text).
    + apply (steps_bind (grows not_load)).
      * apply (steps_for_each_try (grows not_load)). intros chunk.
        apply (steps_generate W' (grows not_load)). apply grows_event_ok. reflexivity.
      * intros r. apply (steps_ret (grows not_load)).
    + apply (steps_generate W' (grows not_load)). apply grows_event_ok. reflexivity.
  - intros [r|]; apply (steps_ret (grows not_load)).
Qed.

(** X21. A preloaded model is the one [translate_with_ai] uses, Japanese
    apart: after [preload_models] reports a pair as loaded, with neither
    language ["ja"], translating any text for that pair asks the loader
    for nothing, whatever the loader would answer. *)
Theorem preloaded_model_is_reused W' language_pairs st source target model_name text :
  let preload := preload_models W (Some language_pairs) st in
  In (source, target, model_name) (loaded (fst preload)) ->
  source ≠ lit "ja" -> target ≠ lit "ja" ->
  of_kind ModelLoad (trace (snd (translate_with_ai W' text source target (snd preload))))
  = of_kind ModelLoad (trace (snd preload)).
Proof.
  cbv zeta. unfold preload_models. cbn [default].
  destruct (preload_loop_spec language_pairs (mkPreloadResults [] []) st)
    as (_ & _ & Hloaded & _).
  intros Hin Hs Ht.
  apply Hloaded in Hin as [[]|(s & t & m & Heq & _ & Hm & Hcached)].
  injection Heq as <- <- <-.
  rewrite (offline_model_name _ _ _ Hm Hs Ht) in Hcached.
  eapply grows_of_kind; [apply translate_with_ai_loaded; exact Hcached|reflexivity].
Qed.

End Preload.

(** ** The switches of [OfflineTranslator] *)

Section Switches.
Import OfflineTranslator.
Context (W : World) (self : Config).

(** X22. With every backend switched off and offline mode not forced,
    [OfflineTranslator.smart_translate] can only answer from the cache: it
    returns [None] or a result with [cached] true, and calls neither a
    model nor a web service. *)
Theorem all_switches_off text source_lang target_lang st :
  offline_mode self = false ->
  use_ai_models self = false ->
  use_google_translate self = false ->
  use_mymemory self = false ->
  let run := OfflineTranslator.smart_translate W self text source_lang target_lang st in
  grows no_backend st (snd run)
  /\ (fst run = None
      \/ exists result, fst run = Some result /\ result !! "cached" = Some (VBool true)).
Proof.
  intros Hoffline Hai Hgoogle Hmymemory. cbv zeta.
  assert (Hnothing : forall s start_time st0,
             local_model_first W self text s target_lang start_time st0 = (None, st0)).
  { intros s start_time st0. unfold local_model_first. rewrite Hai. cbn [andb].
    unfold after_local_model. rewrite Hoffline.
    unfold online_chain. rewrite Hgoogle, Hmymemory. reflexivity. }
  assert (Hprobe : forall s st0,
             grows no_backend st0 (snd (get_cached_translation W text s target_lang st0))).
  { intros s st0. apply (steps_get_cached_translation W (grows no_backend)).
    - apply grows_event_ok. reflexivity.
    - apply grows_stores_ok. }
  assert (Hhead : grows no_backend st
                    (snd (resolve_source W text source_lang (snd (time_time W st))))).
  { etransitivity.
    - apply (steps_time_time W (grows no_backend)). apply grows_event_ok. reflexivity.
    - apply (steps_resolve_source W (grows no_backend)). intros _.
      apply grows_event_ok. reflexivity. }
  destruct (offline_smart_translate_cases W self text source_lang target_lang st)
    as [(cached & Hsome & Htruthy & Heq)|[Hmiss Heq]]; rewrite Heq.
  - split.
    + etransitivity; [exact Hhead|]. etransitivity; [apply Hprobe|].
      apply (steps_return_cached W (grows no_backend)). apply grows_event_ok. reflexivity.
    + right. unfold return_cached. rewrite run_bind. cbn [mret M_ret fst].
      eexists. split; [reflexivity|]. apply lookup_insert_eq.
  - rewrite Hnothing. cbn [fst snd]. split; [|left; reflexivity].
    etransitivity; [exact Hhead|]. apply Hprobe.
Qed.

(** A pivot that does not succeed stores nothing. *)
Lemma pivot_none_same_stores text source_lang target_lang st :
  fst (_translate_via_english_pivot W text source_lang target_lang st) = None ->
  same_stores st (snd (_translate_via_english_pivot W text source_lang target_lang st)).
Proof.
  unfold _translate_via_english_pivot. rewrite !run_bind.
  assert (Hclock : same_stores st (snd (time_time W st))).
  { apply (steps_time_time W same_stores), same_stores_event_ok. }
  destruct (is_offline_available source_lang (lit "en")); [|intros _; exact Hclock].
  rewrite !run_bind.
  pose proof (steps_translate_with_ai W same_stores text source_lang (lit "en")
                (same_stores_event_ok _) (same_stores_event_ok _) same_stores_models_ok
                (snd (time_time W st))) as Hfirst.
  destruct (translate_with_ai W text source_lang (lit "en") (snd (time_time W st)))
    as [[english_result method1] st1].
  cbn [fst snd] in *.
  assert (Hst1 : same_stores st st1) by (etransitivity; [exact Hclock|exact Hfirst]).
  destruct english_result as [english|]; [|intros _; exact Hst1].
  destruct (negb (truthy_str english)); [intros _; exact Hst1|].
  destruct (is_offline_available (lit "en") target_lang); [|intros _; exact Hst1].
  rewrite !run_bind.
  pose proof (steps_translate_with_ai W same_stores english (lit "en") target_lang
                (same_stores_event_ok _) (same_stores_event_ok _) same_stores_models_ok
                st1) as Hsecond.
  destruct (translate_with_ai W english (lit "en") target_lang st1)
    as [[final_result method2] st2].
  cbn [fst snd] in *.
  destruct (negb (truthy_opt final_result)).
  - intros _. etransitivity; [exact Hst1|exact Hsecond].
  - rewrite !run_bind. discriminate.
Qed.

(** X23. The offline fallback is not cached: when a forced-offline call
    returns the ["Offline Fallback"] result, Redis and the disk cache hold
    exactly what they held before the call, so the next call starts over. *)
Theorem offline_fallback_not_cached text source_lang target_lang st result st' :
  offline_mode self = true ->
  OfflineTranslator.smart_translate W self text source_lang target_lang st
  = (Some result, st') ->
  result !! "cached" = Some (VBool false) ->
  result !! "method" = Some (VStr fallback_method_name) ->
  same_stores st st'.
Proof.
  intros Hoffline Hrun Hfresh Hmethod.
  destruct (offline_smart_translate_cases W self text source_lang target_lang st)
    as [(cached & _ & _ & Heq)|[Hmiss Heq]]; rewrite Heq in Hrun.
  { apply return_cached_flag in Hrun. rewrite Hrun in Hfresh. discriminate Hfresh. }
  assert (Hhead : same_stores st
            (snd (get_cached_translation W text
                    (fst (resolve_source W text source_lang (snd (time_time W st))))
                    target_lang
                    (snd (resolve_source W text source_lang (snd (time_time W st))))))).
  { etransitivity; [apply (steps_time_time W same_stores), same_stores_event_ok|].
    etransitivity; [apply (steps_resolve_source W same_stores); intros _;
                    apply same_stores_event_ok|].
    apply probe_miss_same_stores. exact Hmiss. }
  etransitivity; [exact Hhead|]. clear Hhead Heq Hmiss.
  revert Hrun.
  generalize (snd (get_cached_translation W text
                    (fst (resolve_source W text source_lang (snd (time_time W st))))
                    target_lang
                    (snd (resolve_source W text source_lang (snd (time_time W st)))))).
  generalize (fst (resolve_source W text source_lang (snd (time_time W st)))).
  generalize (fst (time_time W st)).
  intros start_time source st0 Hrun.
  (* after the local model, if it was tried and gave nothing *)
  assert (Hafter : forall st1,
             after_local_model W self text source target_lang start_time st1
             = (Some result, st') -> same_stores st1 st').
  { intros st1. unfold after_local_model. rewrite Hoffline. rewrite run_bind.
    set (pivot := (if negb (bool_decide (source = lit "en"))
                      && negb (bool_decide (target_lang = lit "en"))
                   then _translate_via_english_pivot W text source target_lang
                   else mret None) st1).
    assert (Hpivot : fst pivot = None -> same_stores st1 (snd pivot)).
    { subst pivot. destruct (negb _ && negb _); [|reflexivity].
      apply pivot_none_same_stores. }
    assert (Hsome : forall p, fst pivot = Some p ->
                      produced_by pivot_method_name 0.85%float p).
    { subst pivot. intros p Hp. destruct (negb _ && negb _); [|discriminate Hp].
      eapply pivot_returns. apply run_eq. exact Hp. }
    destruct (fst pivot) as [p|] eqn:Hp; cbn [truthy_opt_dict].
    - specialize (Hsome p eq_refl). destruct Hsome as (Hm & _ & _).
      rewrite (truthy_dict_lookup p "method" _ Hm).
      intros H. inversion H; subst. rewrite Hm in Hmethod. discriminate Hmethod.
    - unfold offline_fallback. rewrite run_bind. intros H.
      apply (f_equal snd) in H. cbn [snd mret M_ret] in H. rewrite <- H.
      etransitivity; [apply Hpivot; reflexivity|].
      apply (steps_time_time W same_stores), same_stores_event_ok. }
  revert Hrun. unfold local_model_first.
  destruct (use_ai_models self && is_offline_available source target_lang);
    [|apply Hafter].
  rewrite run_bind.
  pose proof (steps_translate_with_ai W same_stores text source target_lang
                (same_stores_event_ok _) (same_stores_event_ok _) same_stores_models_ok
                st0) as Hai.
  destruct (translate_with_ai_returns W text source target_lang st0)
    as [Hnone|[ai_result Hsome]].
  - rewrite Hnone. cbn [truthy_opt]. intros Hrun.
    etransitivity; [exact Hai|]. apply Hafter. exact Hrun.
  - rewrite Hsome. cbn [truthy_opt]. destruct (truthy_str ai_result).
    + rewrite !run_bind. intros H. inversion H; subst.
      cbn in Hmethod. discriminate Hmethod.
    + intros Hrun. etransitivity; [exact Hai|]. apply Hafter. exact Hrun.
Qed.

End Switches.

(** ** One cache for both dispatchers *)

Section SharedCache.
Context (W : World).

Lemma backend_chain_no_offline_field text source_lang target_lang start_time st result st' :
  backend_chain W text source_lang target_lang start_time st = (Some result, st') ->
  result !! "offline" = None.
Proof.
  unfold backend_chain. rewrite run_bind.
  match goal with |- context [fst (translate_with_ai W ?a ?b ?c ?s)] =>
    destruct (fst (translate_with_ai W a b c s)) as [ai_result ai_method] end.
  destruct (truthy_opt ai_result).
  { rewrite !run_bind. intros H. inversion H; subst. reflexivity. }
  rewrite run_bind.
  match goal with |- context [fst (translate_with_google W ?a ?b ?c ?s)] =>
    destruct (fst (translate_with_google W a b c s))
      as [[google_result detected] google_method] end.
  destruct (truthy_opt google_result).
  { rewrite !run_bind. intros H. inversion H; subst. reflexivity. }
  rewrite run_bind.
  match goal with |- context [fst (translate_with_mymemory W ?a ?b ?c ?s)] =>
    destruct (fst (translate_with_mymemory W a b c s))
      as [mymemory_result mymemory_method] end.
  destruct (truthy_opt mymemory_result).
  { rewrite !run_bind. intros H. inversion H; subst. reflexivity. }
  discriminate.
Qed.

(** X24. The two dispatchers read and write the same cache entries.  After
    [AITranslator.smart_translate] produced a result for a given source
    language, [OfflineTranslator.smart_translate] with the same arguments
    answers from the cache whatever its switches say (also in forced
    offline mode, and also when the result came from a web service),
    provided the tiers do not raise and the entry has not expired: the
    result has [cached] true, no [offline] field, and apart from [time] the
    fields of the first result. *)
Theorem dispatchers_share_cache self text source_lang target_lang st r1 st1 :
  source_lang ≠ lit "auto" ->
  tiers_never_fail W ->
  smart_translate W text source_lang target_lang st = (Some r1, st1) ->
  r1 !! "cached" = Some (VBool false) ->
  (forall e,
      stored_entry st1 (translation_key W text source_lang target_lang) = Some e ->
      live (clock W (S (tick st1))) e = true) ->
  exists r2 st2,
    OfflineTranslator.smart_translate W self text source_lang target_lang st1
    = (Some r2, st2)
    /\ r2 !! "cached" = Some (VBool true)
    /\ r2 !! "offline" = None
    /\ forall field, field ≠ "time" -> field ≠ "cached" -> r2 !! field = r1 !! field.
Proof.
  intros Hne Hok Hfirst Hfresh Hlive.
  destruct (smart_translate_cases W text source_lang target_lang st)
    as [(cached & _ & _ & Heq)|[_ Heq]]; rewrite Heq in Hfirst.
  { apply return_cached_flag in Hfirst. rewrite Hfirst in Hfresh. discriminate Hfresh. }
  rewrite resolve_source_given in Hfirst by assumption. cbn [fst snd] in Hfirst.
  pose proof (backend_chain_no_offline_field _ _ _ _ _ _ _ Hfirst) as Hfield.
  apply backend_chain_writes in Hfirst as [st_mid ->].
  destruct (cache_translation_stores W text source_lang target_lang r1 default_ttl st_mid Hok)
    as [expires Hstored].
  set (st1 := snd (cache_translation W text source_lang target_lang r1 default_ttl st_mid)) in *.
  specialize (Hlive _ Hstored).
  assert (Hprobe := probe_finds W text source_lang target_lang (record_event EvTime st1)
                      (mkEntry r1 expires) Hok Hstored Hlive
                      (truthy_dict_lookup r1 "cached" _ Hfresh)).
  cbn [entry_value] in Hprobe.
  unfold OfflineTranslator.smart_translate. rewrite !run_bind.
  rewrite !run_time_time. cbn [fst snd].
  rewrite !(resolve_source_given _ _ _ _ Hne). cbn [fst snd].
  rewrite !Hprobe. cbn [fst snd].
  rewrite (truthy_dict_lookup r1 "cached" _ Hfresh).
  unfold return_cached. rewrite !run_bind, !run_time_time.
  cbn [fst snd mret M_ret record_event tick].
  eexists _, _. split; [reflexivity|].
  split; [apply lookup_insert_eq|].
  split; [rewrite !lookup_insert_ne by discriminate; exact Hfield|].
  intros field Htime Hcached. rewrite !lookup_insert_ne by congruence. reflexivity.
Qed.

End SharedCache.

(** ** The properties above, on the concrete environments *)

(** A second call for ["Hello"] is answered from the cache: the model is
    called once, by the first call. *)
Lemma cached_result_calls_no_backend_witness :
  let first := smart_translate Demo.demo_world (lit "Hello") (lit "en") (lit "es")
                 Demo.fresh in
  let second := smart_translate Demo.demo_world (lit "Hello") (lit "en") (lit "es")
                  (snd first) in
  exists result,
    fst second = Some result
    /\ result !! "cached" = Some (VBool true)
    /\ of_kind ModelCall (trace (snd second)) = of_kind ModelCall (trace (snd first))
    /\ length (of_kind ModelCall (trace (snd first))) = 1%nat.
Proof.
  cbv zeta.
  set (first := smart_translate Demo.demo_world (lit "Hello") (lit "en") (lit "es")
                  Demo.fresh).
  set (second := smart_translate Demo.demo_world (lit "Hello") (lit "en") (lit "es")
                   (snd first)).
  assert (Hsome : is_Some (fst second))
    by (apply (bool_decide_unpack _); vm_compute; exact I).
  destruct Hsome as [result Hresult].
  assert (Hfield : forall name, result !! name = Some result ≫= (.!! name)) by reflexivity.
  assert (Hcached : result !! "cached" = Some (VBool true)).
  { rewrite Hfield, <- Hresult. vm_compute. reflexivity. }
  exists result. split; [exact Hresult|]. split; [exact Hcached|].
  split.
  - apply (cached_result_calls_no_backend Demo.demo_world (lit "Hello") (lit "en") (lit "es")
             (snd first) result (snd second)); [|exact Hcached].
    apply run_eq. exact Hresult.
  - vm_compute. reflexivity.
Defined.

(** Thai to Korean in forced offline mode: nothing goes out. *)
Lemma forced_offline_never_online_witness :
  OfflineTranslator.offline_mode Demo.forced_offline = true
  /\ of_kind OnlineService
       (trace (snd (OfflineTranslator.smart_translate Demo.demo_world Demo.forced_offline
                      (lit "Hello") (lit "th") (lit "ko") Demo.fresh)))
     = [].
Proof.
  split; [reflexivity|].
  apply (forced_offline_never_online Demo.demo_world Demo.forced_offline
           (lit "Hello") (lit "th") (lit "ko") Demo.fresh).
  reflexivity.
Defined.

(** ["Hello world"] with the source left to the detector: the result names
    English. *)
Lemma result_source_never_auto_witness :
  exists result,
    fst (smart_translate Demo.demo_world (lit "Hello world") (lit "auto") (lit "es")
           Demo.fresh) = Some result
    /\ result !! "source_lang" = Some (VStr (lit "en")).
Proof.
  set (run := smart_translate Demo.demo_world (lit "Hello world") (lit "auto") (lit "es")
                Demo.fresh).
  assert (Hsome : is_Some (fst run)) by (apply (bool_decide_unpack _); vm_compute; exact I).
  destruct Hsome as [result Hresult].
  assert (Hfield : forall name, result !! name = Some result ≫= (.!! name)) by reflexivity.
  assert (Hfresh : result !! "cached" = Some (VBool false)).
  { rewrite Hfield, <- Hresult. vm_compute. reflexivity. }
  exists result. split; [exact Hresult|].
  destruct (result_source_never_auto Demo.demo_world (lit "Hello world") (lit "auto")
              (lit "es") Demo.fresh result (snd run))
    as (resolved & Hsource & _ & Hresolved & _).
  - apply run_eq. exact Hresult.
  - exact Hfresh.
  - rewrite Hsource, Hresolved. vm_compute. reflexivity.
Defined.

(** Nothing answers: nothing is returned and nothing is stored. *)
Lemma failure_caches_nothing_witness :
  let run := smart_translate Demo.dead_world (lit "Hello") (lit "en") (lit "es")
               Demo.fresh in
  fst run = None /\ same_stores Demo.fresh (snd run).
Proof.
  cbv zeta.
  set (run := smart_translate Demo.dead_world (lit "Hello") (lit "en") (lit "es")
                Demo.fresh).
  assert (Hnone : fst run = None).
  { assert (H : match fst run with Some _ => false | None => true end = true)
      by (vm_compute; reflexivity).
    destruct (fst run); [discriminate H|reflexivity]. }
  split; [exact Hnone|].
  apply (failure_caches_nothing Demo.dead_world (lit "Hello") (lit "en") (lit "es")
           Demo.fresh).
  exact Hnone.
Defined.

(** Two texts with the same hash share their key. *)
Lemma translation_key_separates_languages_witness :
  translation_key Demo.demo_world (lit "abc") (lit "en") (lit "es")
  = translation_key Demo.demo_world (lit "xyz") (lit "en") (lit "es")
  /\ py_hash Demo.demo_world (lit "abc") = py_hash Demo.demo_world (lit "xyz").
Proof.
  assert (Hkey : translation_key Demo.demo_world (lit "abc") (lit "en") (lit "es")
                 = translation_key Demo.demo_world (lit "xyz") (lit "en") (lit "es"))
    by reflexivity.
  split; [exact Hkey|].
  apply (translation_key_separates_languages Demo.demo_world (lit "abc") (lit "xyz")
           (lit "en") (lit "es") (lit "en") (lit "es"));
    try exact Hkey;
    try (apply (bool_decide_unpack _); vm_compute; exact I);
    vm_compute; discriminate.
Defined.

(** With Redis down, a stored result comes back from the disk cache. *)
Lemma redis_failure_falls_back_to_disk_witness :
  let st1 := snd (cache_translation Demo.redis_down_world (lit "Hello") (lit "en") (lit "es")
                    Demo.sample_result default_ttl Demo.fresh_redis) in
  fst (get_cached_translation Demo.redis_down_world (lit "Hello") (lit "en") (lit "es") st1)
  = Some Demo.sample_result.
Proof.
  cbv zeta.
  apply (redis_failure_falls_back_to_disk Demo.redis_down_world (lit "Hello") (lit "en")
           (lit "es") Demo.sample_result default_ttl Demo.fresh_redis).
  - reflexivity.
  - intros k. reflexivity.
  - intros k. reflexivity.
  - vm_compute. reflexivity.
  - vm_compute. reflexivity.
Defined.

(** An entry that expires on disk at 2000 is promoted at 1000 and expires in
    Redis at 4600. *)
Lemma disk_hit_promoted_to_redis_witness :
  let st := Demo.disk_only Demo.demo_world Demo.sample_result in
  let probe := get_cached_translation Demo.demo_world (lit "Hello") (lit "en") (lit "es") st in
  fst probe = Some Demo.sample_result
  /\ entry_expires
       <$> redis_store (snd probe)
             !! translation_key Demo.demo_world (lit "Hello") (lit "en") (lit "es")
     = Some 4600%float.
Proof.
  cbv zeta.
  destruct (disk_hit_promoted_to_redis Demo.demo_world (lit "Hello") (lit "en") (lit "es")
              (Demo.disk_only Demo.demo_world Demo.sample_result)
              (mkEntry Demo.sample_result 2000))
    as (Hhit & Hpromoted & _).
  - reflexivity.
  - reflexivity.
  - reflexivity.
  - reflexivity.
  - unfold read_store. cbn [Demo.disk_only set_disk_cache redis_store Demo.fresh_redis].
    rewrite lookup_empty. reflexivity.
  - apply lookup_insert_eq.
  - vm_compute. reflexivity.
  - vm_compute. reflexivity.
  - split; [exact Hhit|]. rewrite Hpromoted. vm_compute. reflexivity.
Defined.

(** A model loaded while the loader worked is still there when it does
    not. *)
Lemma load_ai_model_memoised_witness :
  let first := load_ai_model Demo.demo_world (lit "Helsinki-NLP/opus-mt-en-es") Demo.fresh in
  fst (load_ai_model Demo.dead_world (lit "Helsinki-NLP/opus-mt-en-es") (snd first))
  = Some (mkHandle (lit "Helsinki-NLP/opus-mt-en-es"))
  /\ from_pretrained Demo.dead_world 1 (lit "Helsinki-NLP/opus-mt-en-es") = false.
Proof.
  cbv zeta. split; [|reflexivity].
  rewrite (load_ai_model_memoised Demo.demo_world Demo.dead_world
             (lit "Helsinki-NLP/opus-mt-en-es") Demo.fresh
             (mkHandle (lit "Helsinki-NLP/opus-mt-en-es"))
             (snd (load_ai_model Demo.demo_world (lit "Helsinki-NLP/opus-mt-en-es")
                     Demo.fresh))).
  - reflexivity.
  - apply run_eq. vm_compute. reflexivity.
Defined.

(** The loader fails at operation 1 and works at operation 2. *)
Lemma load_failure_is_retried_witness :
  let st := record_event EvTime Demo.fresh in
  let st1 := snd (load_ai_model Demo.flaky_world (lit "Helsinki-NLP/opus-mt-en-es") st) in
  fst (load_ai_model Demo.flaky_world (lit "Helsinki-NLP/opus-mt-en-es") st) = None
  /\ fst (load_ai_model Demo.flaky_world (lit "Helsinki-NLP/opus-mt-en-es") st1)
     = Some (mkHandle (lit "Helsinki-NLP/opus-mt-en-es")).
Proof.
  cbv zeta.
  assert (Hnone : fst (load_ai_model Demo.flaky_world (lit "Helsinki-NLP/opus-mt-en-es")
                         (record_event EvTime Demo.fresh)) = None)
    by (vm_compute; reflexivity).
  split; [exact Hnone|].
  pose proof (load_failure_is_retried Demo.flaky_world (lit "Helsinki-NLP/opus-mt-en-es")
                (record_event EvTime Demo.fresh) Hnone) as H.
  cbv zeta in H. destruct H as (_ & _ & H). rewrite H. reflexivity.
Defined.

(** Google raises twice and answers the third request. *)
Lemma translate_with_google_retries_witness :
  let run := translate_with_google Demo.flaky_world (lit "Hello") (lit "en") (lit "es")
               Demo.fresh in
  fst run = (Some (lit "Hola"), Some (lit "en"), Some (lit "Google Translate"))
  /\ trace (snd run)
     = [ EvGoogle (lit "en") (lit "es") (lit "Hello"); EvSleep 1;
         EvGoogle (lit "en") (lit "es") (lit "Hello"); EvSleep 1;
         EvGoogle (lit "en") (lit "es") (lit "Hello") ].
Proof.
  cbv zeta.
  destruct (translate_with_google_retries Demo.flaky_world (lit "Hello") (lit "en")
              (lit "es") Demo.fresh)
    as (n & Hn & Hraise & Hreturn & Hrun & Htrace).
  - discriminate.
  - vm_compute. discriminate.
  - destruct n as [|[|[|[|n]]]]; try lia.
    + destruct Hreturn as [answer Hanswer]; [lia|]. discriminate Hanswer.
    + destruct Hreturn as [answer Hanswer]; [lia|]. discriminate Hanswer.
    + rewrite Hrun, Htrace. split; reflexivity.
    + specialize (Hraise 2%nat ltac:(lia)). discriminate Hraise.
Defined.

(** Google returns [None] without raising: one request, no sleep, and the
    source language and method name come back with no translation. *)
Example google_returns_none_once :
  let run := translate_with_google Demo.none_world (lit "Hello") (lit "en") (lit "es")
               Demo.fresh in
  fst run = (None, Some (lit "en"), Some (lit "Google Translate"))
  /\ trace (snd run) = [EvGoogle (lit "en") (lit "es") (lit "Hello")].
Proof. cbv zeta. split; vm_compute; reflexivity. Qed.

(** [smart_translate] then finds Google's result falsy and goes on to
    MyMemory, having asked Google once. *)
Example google_none_then_mymemory :
  let run := AITranslator.smart_translate Demo.none_world (lit "Hello") (lit "en") (lit "es")
               Demo.fresh in
  fields_of <$> fst run
  = Some [ ("translation", VStr (lit "Hola"));
           ("source_lang", VStr (lit "en"));
           ("method", VStr (lit "MyMemory"));
           ("time", VFloat 0%float);
           ("confidence", VFloat 0.8%float);
           ("cached", VBool false) ]
  /\ filter (fun e => bool_decide (Effects.kind e = Effects.OnlineService)) (trace (snd run))
     = [ EvGoogle (lit "en") (lit "es") (lit "Hello");
         EvMyMemory (lit "en") (lit "es") (lit "Hello") ].
Proof. cbv zeta. split; vm_compute; reflexivity. Qed.

(** 1000 characters go to MyMemory in three chunks. *)
Lemma translate_with_mymemory_chunked_witness :
  length (chunks 450 Demo.longer_text) = 3%nat
  /\ exists st',
       translate_with_mymemory Demo.demo_world Demo.longer_text (lit "en") (lit "es")
         Demo.fresh
       = ((Some (lit "Hola Hola Hola"), Some (lit "MyMemory")), st').
Proof.
  assert (Hchunks : length (chunks 450 Demo.longer_text) = 3%nat)
    by (vm_compute; reflexivity).
  split; [exact Hchunks|].
  destruct (translate_with_mymemory_chunked Demo.demo_world Demo.longer_text
              (lit "en") (lit "es") Demo.fresh)
    as (outputs & st' & Hrun & Hlen & Hsame & _).
  - vm_compute. reflexivity.
  - intros i chunk _. exists (lit "Hola"). reflexivity.
  - exists st'. rewrite Hrun. do 3 f_equal.
    rewrite Hchunks in Hlen.
    destruct outputs as [|o1 [|o2 [|o3 [|o4 outputs]]]]; try discriminate Hlen.
    assert (H1 : is_Some (chunks 450 Demo.longer_text !! 0%nat))
      by (apply (bool_decide_unpack _); vm_compute; exact I).
    assert (H2 : is_Some (chunks 450 Demo.longer_text !! 1%nat))
      by (apply (bool_decide_unpack _); vm_compute; exact I).
    assert (H3 : is_Some (chunks 450 Demo.longer_text !! 2%nat))
      by (apply (bool_decide_unpack _); vm_compute; exact I).
    destruct H1 as [c1 H1], H2 as [c2 H2], H3 as [c3 H3].
    pose proof (Hsame 0%nat c1 H1) as E1.
    pose proof (Hsame 1%nat c2 H2) as E2.
    pose proof (Hsame 2%nat c3 H3) as E3.
    injection E1 as <-. injection E2 as <-. injection E3 as <-. reflexivity.
Defined.

(** 5000 characters go to Google in two chunks, at the first attempt. *)
Lemma translate_with_google_chunked_witness :
  length (chunks 4500 Demo.longest_text) = 2%nat
  /\ exists st',
       translate_with_google Demo.demo_world Demo.longest_text (lit "en") (lit "es")
         Demo.fresh
       = ((Some (lit "Hola Hola"), Some (lit "en"), Some (lit "Google Translate")), st').
Proof.
  assert (Hchunks : length (chunks 4500 Demo.longest_text) = 2%nat)
    by (vm_compute; reflexivity).
  split; [exact Hchunks|].
  destruct (translate_with_google_chunked Demo.demo_world Demo.longest_text
              (lit "en") (lit "es") Demo.fresh)
    as (outputs & st' & Hrun & Hlen & Hsame & _).
  - discriminate.
  - vm_compute. reflexivity.
  - intros i chunk _. exists (lit "Hola"). reflexivity.
  - exists st'. rewrite Hrun. do 4 f_equal.
    rewrite Hchunks in Hlen.
    destruct outputs as [|o1 [|o2 [|o3 outputs]]]; try discriminate Hlen.
    assert (H1 : is_Some (chunks 4500 Demo.longest_text !! 0%nat))
      by (apply (bool_decide_unpack _); vm_compute; exact I).
    assert (H2 : is_Some (chunks 4500 Demo.longest_text !! 1%nat))
      by (apply (bool_decide_unpack _); vm_compute; exact I).
    destruct H1 as [c1 H1], H2 as [c2 H2].
    pose proof (Hsame 0%nat c1 H1) as E1.
    pose proof (Hsame 1%nat c2 H2) as E2.
    injection E1 as <-. injection E2 as <-. reflexivity.
Defined.

(** The model answers for two chunks of 400 characters and fails on the
    third: the two answers are dropped. *)
Lemma translate_with_ai_failing_chunk_witness :
  length (chunks 400 Demo.longer_text) = 3%nat
  /\ exists st2,
       translate_with_ai Demo.flaky_world Demo.longer_text (lit "en") (lit "es") Demo.warm
       = ((None, None), st2)
       /\ length (trace st2) = 3%nat.
Proof.
  split; [vm_compute; reflexivity|].
  destruct (translate_with_ai_failing_chunk Demo.flaky_world Demo.longer_text
              (lit "en") (lit "es") Demo.warm Demo.warm
              (mkHandle (lit "Helsinki-NLP/opus-mt-en-es")) 2
              (drop 800 Demo.longer_text))
    as (st2 & Hrun & Htrace).
  - vm_compute. reflexivity.
  - intros Hblank. apply (f_equal (@length N)) in Hblank.
    vm_compute in Hblank. discriminate Hblank.
  - apply run_eq. vm_compute. reflexivity.
  - vm_compute. reflexivity.
  - intros [|[|i]] chunk Hi _; try lia; eexists; reflexivity.
  - reflexivity.
  - exists st2. split; [exact Hrun|].
    rewrite Htrace, length_app, length_map, length_take.
    assert (Hchunks : length (chunks 400 Demo.longer_text) = 3%nat)
      by (vm_compute; reflexivity).
    rewrite Hchunks. reflexivity.
Defined.

(** English to Spanish: the table and [translate_with_ai] name the same
    model. *)
Lemma offline_model_names_witness :
  OfflineTranslator.offline_pairs !! (lit "en", lit "es")
  = Some (lit "Helsinki-NLP/opus-mt-en-es")
  /\ (lit "Helsinki-NLP/opus-mt-en-es"
      = lit "Helsinki-NLP/opus-mt-" ++ lit "en" ++ lit "-" ++ lit "es"
      <-> lit "en" ≠ lit "ja" /\ lit "es" ≠ lit "ja").
Proof.
  assert (Hentry : OfflineTranslator.offline_pairs !! (lit "en", lit "es")
                   = Some (lit "Helsinki-NLP/opus-mt-en-es")) by (vm_compute; reflexivity).
  split; [exact Hentry|].
  apply (offline_model_names (lit "en") (lit "es") (lit "Helsinki-NLP/opus-mt-en-es")).
  exact Hentry.
Defined.

(** After preloading English to Spanish, translating asks no loader, not
    even one that would fail. *)
Lemma preloaded_model_is_reused_witness :
  let preload := OfflineTranslator.preload_models Demo.demo_world
                   (Some [(lit "en", lit "es")]) Demo.fresh in
  OfflineTranslator.loaded (fst preload) = [(lit "en", lit "es", lit "Helsinki-NLP/opus-mt-en-es")]
  /\ of_kind ModelLoad
       (trace (snd (translate_with_ai Demo.dead_world (lit "Hello") (lit "en") (lit "es")
                      (snd preload))))
     = of_kind ModelLoad (trace (snd preload)).
Proof.
  cbv zeta.
  assert (Hloaded : OfflineTranslator.loaded (fst (OfflineTranslator.preload_models Demo.demo_world
                                   (Some [(lit "en", lit "es")]) Demo.fresh))
                    = [(lit "en", lit "es", lit "Helsinki-NLP/opus-mt-en-es")])
    by (vm_compute; reflexivity).
  split; [exact Hloaded|].
  apply (preloaded_model_is_reused Demo.demo_world Demo.dead_world [(lit "en", lit "es")]
           Demo.fresh (lit "en") (lit "es") (lit "Helsinki-NLP/opus-mt-en-es") (lit "Hello")).
  - rewrite Hloaded. left. reflexivity.
  - discriminate.
  - discriminate.
Defined.

(** With every switch off and an empty cache there is no answer. *)
Lemma all_switches_off_witness :
  let run := OfflineTranslator.smart_translate Demo.demo_world Demo.switched_off
               (lit "Hello") (lit "en") (lit "es") Demo.fresh in
  grows no_backend Demo.fresh (snd run)
  /\ (fst run = None
      \/ exists result, fst run = Some result /\ result !! "cached" = Some (VBool true)).
Proof.
  cbv zeta.
  apply (all_switches_off Demo.demo_world Demo.switched_off (lit "Hello") (lit "en")
           (lit "es") Demo.fresh); reflexivity.
Defined.

(** Thai to Korean in forced offline mode: the fallback, and no entry in
    either tier. *)
Lemma offline_fallback_not_cached_witness :
  let run := OfflineTranslator.smart_translate Demo.demo_world Demo.forced_offline
               (lit "Hello") (lit "th") (lit "ko") Demo.fresh in
  exists result,
    fst run = Some result
    /\ result !! "method" = Some (VStr fallback_method_name)
    /\ same_stores Demo.fresh (snd run).
Proof.
  cbv zeta.
  set (run := OfflineTranslator.smart_translate Demo.demo_world Demo.forced_offline
                (lit "Hello") (lit "th") (lit "ko") Demo.fresh).
  assert (Hsome : is_Some (fst run)) by (apply (bool_decide_unpack _); vm_compute; exact I).
  destruct Hsome as [result Hresult].
  assert (Hfield : forall name, result !! name = Some result ≫= (.!! name)) by reflexivity.
  assert (Hfresh : result !! "cached" = Some (VBool false)).
  { rewrite Hfield, <- Hresult. vm_compute. reflexivity. }
  assert (Hmethod : result !! "method" = Some (VStr fallback_method_name)).
  { rewrite Hfield, <- Hresult. vm_compute. reflexivity. }
  exists result. split; [exact Hresult|]. split; [exact Hmethod|].
  apply (offline_fallback_not_cached Demo.demo_world Demo.forced_offline
           (lit "Hello") (lit "th") (lit "ko") Demo.fresh result (snd run)).
  - reflexivity.
  - apply run_eq. exact Hresult.
  - exact Hfresh.
  - exact Hmethod.
Defined.

(** A result Google produced for [AITranslator] is what a forced-offline
    [OfflineTranslator] answers next. *)
Lemma dispatchers_share_cache_witness :
  let first := smart_translate Demo.mymemory_world (lit "Hello") (lit "en") (lit "es")
                 Demo.fresh in
  exists r1 r2 st2,
    fst first = Some r1
    /\ r1 !! "method" = Some (VStr mymemory_method_name)
    /\ OfflineTranslator.smart_translate Demo.mymemory_world Demo.forced_offline
         (lit "Hello") (lit "en") (lit "es") (snd first) = (Some r2, st2)
    /\ r2 !! "cached" = Some (VBool true)
    /\ r2 !! "method" = Some (VStr mymemory_method_name)
    /\ r2 !! "offline" = None.
Proof.
  cbv zeta.
  set (first := smart_translate Demo.mymemory_world (lit "Hello") (lit "en") (lit "es")
                  Demo.fresh).
  assert (Hsome : is_Some (fst first)) by (apply (bool_decide_unpack _); vm_compute; exact I).
  destruct Hsome as [r1 Hr1].
  assert (Hfield : forall name, r1 !! name = Some r1 ≫= (.!! name)) by reflexivity.
  assert (Hfresh : r1 !! "cached" = Some (VBool false)).
  { rewrite Hfield, <- Hr1. vm_compute. reflexivity. }
  assert (Hmethod : r1 !! "method" = Some (VStr mymemory_method_name)).
  { rewrite Hfield, <- Hr1. vm_compute. reflexivity. }
  destruct (dispatchers_share_cache Demo.mymemory_world Demo.forced_offline
              (lit "Hello") (lit "en") (lit "es") Demo.fresh r1 (snd first))
    as (r2 & st2 & Hrun & Hcached & Hoffline & Hsame).
  - discriminate.
  - intros k. split; reflexivity.
  - apply run_eq. exact Hr1.
  - exact Hfresh.
  - intros e He.
    assert (Hexpiry : entry_expires <$> stored_entry (snd first)
                        (translation_key Demo.mymemory_world (lit "Hello") (lit "en") (lit "es"))
                      = Some 4600%float) by (vm_compute; reflexivity).
    rewrite He in Hexpiry. injection Hexpiry as Hexpiry.
    unfold live. rewrite Hexpiry. vm_compute. reflexivity.
  - exists r1, r2, st2. split; [exact Hr1|]. split; [exact Hmethod|].
    split; [exact Hrun|]. split; [exact Hcached|].
    split; [|exact Hoffline].
    rewrite Hsame by discriminate. exact Hmethod.
Defined.
